(** * SOW comparison core: section segmenter, section aligner, similarity
      measure, formatting differ and per-section analyzer

    A shallow embedding of the TypeScript sources

    - [src/utils/diffUtils.ts]            ([calculateSimilarity]),
    - [src/services/docxParser.ts]        (HTML-aware segmenter, [matchSections]),
    - the plain-text parser variant       ([extractSections], [calculateSectionLevel]),
    - [src/components/ComparisonView.tsx] ([sectionPairs]),
    - [src/components/ReviewDashboard.tsx] ([sectionMatches]),
    - [src/services/formattingAnalyzer.ts] ([compareSectionFormatting]),
    - [src/services/openaiAnalyzer.ts]    ([analyzeSectionPair], [analyzeSOWs]),

    followed by the properties of the specification that are checked
    against them, and by further properties of the same code, of the
    counters and view state of the two components, of [analyzeGlobal] and
    of the export route ([src/app/api/export/route.ts]).

    Modelling conventions.
    - A JavaScript string is a Rocq [string]; its characters are 8-bit and
      only the ASCII range is interpreted (white space, digits, letters and
      case mapping).  Characters above 127 are inert symbols.
    - A JavaScript number is a rational [Q] holding the exact value of the
      double.  Every arithmetic operation rounds its exact result to the
      nearest binary64 value, ties to even ([IEEE.round53]); the model is
      cross-checked against Rocq's primitive binary64 floats on a grid of
      operands ([Binary64Check]).  Infinities, NaN and subnormal numbers do
      not arise from the computations embedded here and are not modelled.
    - [null] and [undefined] are [None]; truthiness tests are written out.
    - The conversion of a number to a string, which is JavaScript's own, is
      a parameter [numberToString] of the functions that print numbers.
    - [Set<string>] is [gset string] and [Map<string, V>] is [gmap string V]. *)

From Stdlib Require Import ZArith QArith Qround Qpower Lqa Lia.
From Stdlib Require Import Ascii String List Bool DecimalString.
From Stdlib Require Import Floats.
From stdpp Require Import gmap strings list.
Import ListNotations.

Local Open Scope string_scope.
Local Open Scope list_scope.

#[local] Set Warnings "-clear-no-such-hyp".

(* ===================================================================== *)
(** * Part I.  The embedding                                              *)
(* ===================================================================== *)

(** ** JavaScript strings *)

Module JsString.

Definition chars (s : string) : list ascii := list_ascii_of_string s.
Definition str (l : list ascii) : string := string_of_list_ascii l.

Definition code (c : ascii) : nat := nat_of_ascii c.

(** The ASCII part of the regular-expression class [\s]
    (TAB, LF, VT, FF, CR, SPACE); also what [trim] strips. *)
Definition isSpace (c : ascii) : bool :=
  let n := code c in
  Nat.eqb n 9 || Nat.eqb n 10 || Nat.eqb n 11 || Nat.eqb n 12 || Nat.eqb n 13 || Nat.eqb n 32.

Definition isDigit (c : ascii) : bool := Nat.leb 48 (code c) && Nat.leb (code c) 57.
Definition isUpper (c : ascii) : bool := Nat.leb 65 (code c) && Nat.leb (code c) 90.
Definition isLower (c : ascii) : bool := Nat.leb 97 (code c) && Nat.leb (code c) 122.
Definition isLetter (c : ascii) : bool := isUpper c || isLower c.

Definition toLower (c : ascii) : ascii :=
  if isUpper c then ascii_of_nat (code c + 32) else c.
Definition toUpper (c : ascii) : ascii :=
  if isLower c then ascii_of_nat (code c - 32) else c.

Definition eqc (a b : ascii) : bool := Ascii.eqb a b.

Definition toLowerCase (s : string) : string := str (map toLower (chars s)).
Definition toUpperCase (s : string) : string := str (map toUpper (chars s)).

Fixpoint dropSpaces (l : list ascii) : list ascii :=
  match l with
  | c :: l' => if isSpace c then dropSpaces l' else l
  | [] => []
  end.

(** [String.prototype.trim]. *)
Definition trimChars (l : list ascii) : list ascii :=
  rev (dropSpaces (rev (dropSpaces l))).
Definition trim (s : string) : string := str (trimChars (chars s)).

(** [s.length] *)
Definition len (s : string) : nat := String.length s.

(** A string is truthy when it is not empty. *)
Definition nonEmpty (s : string) : bool := negb (String.eqb s "").

(** [s.substring(0, n)] *)
Definition substring0 (n : nat) (s : string) : string := str (firstn n (chars s)).

Fixpoint prefixChars (p l : list ascii) : bool :=
  match p, l with
  | [], _ => true
  | a :: p', b :: l' => eqc a b && prefixChars p' l'
  | _ :: _, [] => false
  end.

(** [s.startsWith(p)] *)
Definition startsWith (s p : string) : bool := prefixChars (chars p) (chars s).

Fixpoint includesChars (p l : list ascii) : bool :=
  prefixChars p l ||
  match l with
  | [] => false
  | _ :: l' => includesChars p l'
  end.

(** [s.includes(p)] *)
Definition includes (s p : string) : bool := includesChars (chars p) (chars s).

(** [s.split(/sep+/)] for a separator class [sep]: the pieces between the
    maximal runs of separator characters, empty first and last pieces
    included. [prev] records that the previous character was a separator. *)
Fixpoint splitRuns (sep : ascii -> bool) (acc : list ascii) (prev : bool)
  (l : list ascii) : list (list ascii) :=
  match l with
  | [] => [rev acc]
  | c :: l' =>
      if sep c then
        if prev then splitRuns sep acc true l'
        else rev acc :: splitRuns sep [] true l'
      else splitRuns sep (c :: acc) false l'
  end.

Definition split (sep : ascii -> bool) (s : string) : list string :=
  map str (splitRuns sep [] false (chars s)).

(** [xs.join(sep)] *)
Fixpoint join (sep : string) (xs : list string) : string :=
  match xs with
  | [] => ""
  | [x] => x
  | x :: xs' => x ++ sep ++ join sep xs'
  end.

Definition LF : ascii := ascii_of_nat 10.
Definition CR : ascii := ascii_of_nat 13.
Definition TAB : ascii := ascii_of_nat 9.

(** The separator of section bodies, two line feeds. *)
Definition LFLF : string := String LF (String LF EmptyString).

(** [s.replace(/\r\n/g, '\n')] *)
Fixpoint replaceCRLF (l : list ascii) : list ascii :=
  match l with
  | a :: ((b :: l'') as l') =>
      if eqc a CR && eqc b LF then LF :: replaceCRLF l'' else a :: replaceCRLF l'
  | _ => l
  end.

End JsString.

(** ** JavaScript numbers: binary64 arithmetic on exact rationals *)

Module IEEE.
Local Open Scope Q_scope.

Definition pow2 (e : Z) : Q := (2 # 1) ^ e.

(** The binade of a positive rational: the [e] with [2^e <= x < 2^(e+1)]. *)
Definition binade (x : Q) : Z :=
  let e0 := (Z.log2 (Qnum x) - Z.log2 (Z.pos (Qden x)))%Z in
  if Qle_bool (pow2 e0) x then e0 else (e0 - 1)%Z.

(** Nearest integer, ties to even. *)
Definition rne (t : Q) : Z :=
  let n := Qfloor t in
  match Qcompare (t - inject_Z n) (1 # 2) with
  | Lt => n
  | Gt => (n + 1)%Z
  | Eq => if Z.even n then n else (n + 1)%Z
  end.

(** Nearest value with a 53-bit significand, for a positive rational. *)
Definition round_pos (x : Q) : Q :=
  let e := binade x in
  Qred (inject_Z (rne (x * pow2 (52 - e))) * pow2 (e - 52)).

Definition round53 (x : Q) : Q :=
  match Qnum x with
  | Z0 => 0
  | Z.pos _ => round_pos x
  | Z.neg _ => - round_pos (- x)
  end.

(** The operators [+], [*] and [/] of JavaScript. *)
Definition fadd (x y : Q) : Q := round53 (x + y).
Definition fmul (x y : Q) : Q := round53 (x * y).
Definition fdiv (x y : Q) : Q := round53 (x / y).

(** The number literals [0.8] and [0.2]. *)
Definition lit_0_8 : Q := round53 (8 # 10).
Definition lit_0_2 : Q := round53 (2 # 10).

(** [Math.round]: the nearest integer, a tie going towards plus infinity. *)
Definition Math_round (x : Q) : Z := Qfloor (x + (1 # 2)).

(** [x > y], [x >= y] and [x !== y] on numbers. *)
Definition gt (x y : Q) : bool := negb (Qle_bool x y).
Definition ge (x y : Q) : bool := Qle_bool y x.
Definition neq (x y : Q) : bool := negb (Qeq_bool x y).

(** A number is truthy when it is not zero. *)
Definition truthy (x : Q) : bool := negb (Qeq_bool x 0).

End IEEE.

(** ** Cross-check of [IEEE] against the primitive binary64 floats *)

Module Binary64Check.
Local Open Scope Q_scope.

Definition Q_of_float (f : float) : option Q :=
  match Prim2SF f with
  | S754_zero _ => Some 0
  | S754_finite s m e =>
      Some (Qred ((if s then - (1) else 1) * inject_Z (Z.pos m) * IEEE.pow2 e))
  | _ => None
  end.

Definition float_of_Z (z : Z) : float := PrimFloat.of_uint63 (Uint63.of_Z z).

Definition agree (f : float) (q : Q) : bool :=
  match Q_of_float f with
  | Some q' => Qeq_bool q' q
  | None => false
  end.

Definition grid (n : nat) : list (Z * Z) :=
  flat_map (fun u => map (fun m => (Z.of_nat m, Z.of_nat u)) (seq 0 (S n))) (seq 1 n).

(** [(m / u) * 100] as the hardware computes it and as [IEEE] does. *)
Definition check_ratio (mu : Z * Z) : bool :=
  let '(m, u) := mu in
  let q := PrimFloat.div (float_of_Z m) (float_of_Z u) in
  let p := PrimFloat.mul q (float_of_Z 100) in
  agree q (IEEE.fdiv (inject_Z m) (inject_Z u))
  && agree p (IEEE.fmul (IEEE.fdiv (inject_Z m) (inject_Z u)) 100).

Definition f_0_8 : float := PrimFloat.div (float_of_Z 8) (float_of_Z 10).
Definition f_0_2 : float := PrimFloat.div (float_of_Z 2) (float_of_Z 10).

(** [50 + a * 0.8 + b * 0.2 + 10], summed from the left. *)
Definition check_score (ab : Z * Z) : bool :=
  let '(a, b) := ab in
  let s1 := PrimFloat.add (float_of_Z 50) (PrimFloat.mul (float_of_Z a) f_0_8) in
  let s2 := PrimFloat.add s1 (PrimFloat.mul (float_of_Z b) f_0_2) in
  let s3 := PrimFloat.add s2 (float_of_Z 10) in
  agree s3
    (IEEE.fadd (IEEE.fadd (IEEE.fadd 50 (IEEE.fmul (inject_Z a) IEEE.lit_0_8))
                  (IEEE.fmul (inject_Z b) IEEE.lit_0_2)) 10).

End Binary64Check.

(** ** Regular expressions with JavaScript's backtracking order *)

Module Regex.
Import JsString.

Inductive regex : Type :=
| Eps : regex
| Chr : (ascii -> bool) -> regex
| Seq : regex -> regex -> regex
| Alt : regex -> regex -> regex
| Star : regex -> regex
| Group : nat -> regex -> regex
| Eoi : regex.

(** Captured groups, most recent first. *)
Definition captures : Type := list (nat * list ascii).

(** [run r s caps k] matches [r] at the head of [s] and hands the rest of
    the input to the continuation [k]. Alternatives are tried left to
    right, [Star] is greedy and refuses an iteration that consumes
    nothing, and the first success wins. *)
Fixpoint run (r : regex) (s : list ascii) (caps : captures)
  (k : list ascii -> captures -> option captures) {struct r} : option captures :=
  match r with
  | Eps => k s caps
  | Chr p =>
      match s with
      | c :: s' => if p c then k s' caps else None
      | [] => None
      end
  | Seq r1 r2 => run r1 s caps (fun s1 c1 => run r2 s1 c1 k)
  | Alt r1 r2 =>
      match run r1 s caps k with
      | Some c => Some c
      | None => run r2 s caps k
      end
  | Star r' =>
      (fix loop (fuel : nat) (s0 : list ascii) (c0 : captures) {struct fuel}
         : option captures :=
         match fuel with
         | O => k s0 c0
         | S fuel' =>
             match run r' s0 c0
                     (fun s1 c1 =>
                        if Nat.ltb (length s1) (length s0) then loop fuel' s1 c1 else None)
             with
             | Some c => Some c
             | None => k s0 c0
             end
         end) (length s) s caps
  | Group n r' =>
      run r' s caps
        (fun s1 c1 => k s1 ((n, firstn (length s - length s1) s) :: c1))
  | Eoi =>
      match s with
      | [] => k s caps
      | _ :: _ => None
      end
  end.

(** A pattern that starts with [^]: one attempt, at the first character. *)
Definition execAnchored (r : regex) (s : string) : option captures :=
  run r (chars s) [] (fun _ c => Some c).

Fixpoint searchFrom (r : regex) (l : list ascii) : option captures :=
  match run r l [] (fun _ c => Some c) with
  | Some c => Some c
  | None =>
      match l with
      | [] => None
      | _ :: l' => searchFrom r l'
      end
  end.

(** A pattern without [^]: the leftmost position at which it matches. *)
Definition execSearch (r : regex) (s : string) : option captures :=
  searchFrom r (chars s).

Definition isSome {A : Type} (o : option A) : bool :=
  match o with
  | Some _ => true
  | None => false
  end.

Definition testAnchored (r : regex) (s : string) : bool := isSome (execAnchored r s).
Definition testSearch (r : regex) (s : string) : bool := isSome (execSearch r s).

(** [match[n]] *)
Fixpoint group (n : nat) (caps : captures) : option string :=
  match caps with
  | [] => None
  | (m, txt) :: caps' => if Nat.eqb m n then Some (str txt) else group n caps'
  end.

(** Pattern combinators. *)
Definition Plus (r : regex) : regex := Seq r (Star r).
Definition Opt (r : regex) : regex := Alt r Eps.
Definition AtLeast3 (r : regex) : regex := Seq r (Seq r (Seq r (Star r))).

Fixpoint seqs (rs : list regex) : regex :=
  match rs with
  | [] => Eps
  | [r] => r
  | r :: rs' => Seq r (seqs rs')
  end.

Fixpoint alts (rs : list regex) : regex :=
  match rs with
  | [] => Chr (fun _ => false)
  | [r] => r
  | r :: rs' => Alt r (alts rs')
  end.

(** A literal, and a literal under the [i] flag. *)
Definition lit (s : string) : regex := seqs (map (fun c => Chr (eqc c)) (chars s)).
Definition liti (s : string) : regex :=
  seqs (map (fun c => Chr (fun x => eqc (toLower x) (toLower c))) (chars s)).

Definition oneOf (s : string) (c : ascii) : bool := existsb (eqc c) (chars s).
Definition oneOfi (s : string) (c : ascii) : bool :=
  existsb (fun x => eqc (toLower c) (toLower x)) (chars s).

(** [\s], [\d] and [.] (any character but a line terminator). *)
Definition ws : regex := Chr isSpace.
Definition digit : regex := Chr isDigit.
Definition dot : regex := Chr (fun c => negb (eqc c LF || eqc c CR)).

End Regex.

(** ** The data model ([src/types/index.ts]) *)

(** [interface Section]. ([Section] is a reserved word of Rocq, hence
    the module: [Sec.t] is the type, [Sec.id s] a field.) *)
Module Sec.
Record t : Type := mk {
  id : string;
  number : option string;
  title : option string;
  level : nat;
  body : string;
  startIndex : option Z;
  endIndex : option Z
}.
End Sec.

Inductive Severity : Type := high | medium | low.

Inductive IssueCategory : Type :=
| legal_risk | financial | deliverables_scope | language_clarity | formatting_structure.

(** [interface Issue]. The issue type (one of sixteen string literals) and
    the category arrive unchecked from the language model; the type is kept
    as the string it is. *)
Module Issue.
Record t : Type := mk {
  id : string;
  type : string;
  severity : Severity;
  sectionId : string;
  description : string;
  oldTextSnippet : option string;
  newTextSnippet : option string;
  suggestedRevision : option string;
  category : IssueCategory
}.
End Issue.

Definition Severity_eqb (a b : Severity) : bool :=
  match a, b with
  | high, high | medium, medium | low, low => true
  | _, _ => false
  end.

(** A value of type [string | null] is truthy when it is a non-empty string. *)
Definition truthyStr (o : option string) : bool :=
  match o with
  | Some s => JsString.nonEmpty s
  | None => false
  end.

(** ** Token-set similarity ([src/utils/diffUtils.ts]) *)

Module DiffUtils.
Import JsString.

(** [s.toLowerCase().split(/\s+/).filter(Boolean)] *)
Definition words (s : string) : list string :=
  List.filter nonEmpty (split isSpace (toLowerCase s)).

(** [let matches = 0; for (const word of set1) if (set2.has(word)) matches++] *)
Definition countMatches (set1 set2 : gset string) : nat :=
  length (filter (fun w => w ∈ set2) (elements set1)).

(** [new Set([...set1, ...set2]).size] *)
Definition unionSize (set1 set2 : gset string) : nat :=
  size (list_to_set (C := gset string) (elements set1 ++ elements set2)).

(** [Math.round((matches / union) * 100)] *)
Definition percent (matches union : nat) : Z :=
  IEEE.Math_round
    (IEEE.fmul (IEEE.fdiv (inject_Z (Z.of_nat matches)) (inject_Z (Z.of_nat union))) 100).

Definition calculateSimilarity (str1 str2 : string) : Z :=
  if negb (nonEmpty str1) && negb (nonEmpty str2) then 100%Z
  else if negb (nonEmpty str1) || negb (nonEmpty str2) then 0%Z
  else
    let words1 := words str1 in
    let words2 := words str2 in
    if Nat.eqb (length words1) 0 && Nat.eqb (length words2) 0 then 100%Z
    else if Nat.eqb (length words1) 0 || Nat.eqb (length words2) 0 then 0%Z
    else
      let set1 : gset string := list_to_set words1 in
      let set2 : gset string := list_to_set words2 in
      let matches := countMatches set1 set2 in
      let union := unionSize set1 set2 in
      percent matches union.

End DiffUtils.

(** ** The HTML-aware parser ([src/services/docxParser.ts]) *)

Module DocxParser.
Import JsString Regex.

(** [\d+(?:\.\d+)*] *)
Definition dottedNumber : regex :=
  Seq (Plus digit) (Star (Seq (lit ".") (Plus digit))).

(** Words under the [i] flag, separated by [\s+]. *)
Definition phrase (ws_separated : list string) : regex :=
  seqs (flat_map (fun w => [Plus ws; liti w]) ws_separated).
Definition words_i (first : string) (others : list string) : regex :=
  Seq (liti first) (phrase others).

(** The source text of [SECTION_PATTERNS]. *)
Definition SECTION_PATTERNS_source : list string :=
  [ "/^(\d+(?:\.\d+)*)\.\s+(.+)$/";
    "/^(?:SECTION|Section)\s+(\d+(?:\.\d+)*)[:\.]?\s*(.*)$/i";
    "/^(?:ARTICLE|Article)\s+([IVXLCDM\d]+)[:\.]?\s*(.*)$/i" ].

Definition SECTION_PATTERNS : list regex :=
  [ seqs [Group 1 dottedNumber; lit "."; Plus ws; Group 2 (Plus dot); Eoi];
    seqs [Alt (liti "SECTION") (liti "Section"); Plus ws; Group 1 dottedNumber;
          Opt (Chr (oneOf ":.")); Star ws; Group 2 (Star dot); Eoi];
    seqs [Alt (liti "ARTICLE") (liti "Article"); Plus ws;
          Group 1 (Plus (Chr (fun c => oneOfi "IVXLCDM" c || isDigit c)));
          Opt (Chr (oneOf ":.")); Star ws; Group 2 (Star dot); Eoi] ].

(** The eighteen title patterns, all anchored and under the [i] flag:
    executive summary; scope of work; scope of services; deliverables;
    timeline or milestone(s); payment term(s), pricing or fee(s); term(s) and
    termination, or termination; confidentiality; intellectual property;
    liability or limitation of liability; indemnification; warranty or
    warranties; service level agreement or sla; acceptance criteria;
    definition(s); background, introduction or overview; assumptions,
    dependencies or exclusions; appendix, exhibit or schedule followed by
    optional white space and letters or digits. *)
Definition SECTION_TITLE_PATTERNS : list regex :=
  [ seqs [Group 1 (words_i "executive" ["summary"]); Eoi];
    seqs [Group 1 (words_i "scope" ["of"; "work"]); Eoi];
    seqs [Group 1 (words_i "scope" ["of"; "services"]); Eoi];
    seqs [Group 1 (liti "deliverables"); Eoi];
    seqs [Group 1 (Alt (liti "timeline") (Seq (liti "milestone") (Opt (liti "s")))); Eoi];
    seqs [Group 1 (alts [seqs [liti "payment"; Plus ws; liti "term"; Opt (liti "s")];
                         liti "pricing";
                         Seq (liti "fee") (Opt (liti "s"))]); Eoi];
    seqs [Group 1 (Alt (seqs [liti "term"; Opt (liti "s"); Plus ws; liti "and"; Plus ws;
                              liti "termination"])
                       (liti "termination")); Eoi];
    seqs [Group 1 (liti "confidentiality"); Eoi];
    seqs [Group 1 (words_i "intellectual" ["property"]); Eoi];
    seqs [Group 1 (Alt (liti "liability") (words_i "limitation" ["of"; "liability"])); Eoi];
    seqs [Group 1 (liti "indemnification"); Eoi];
    seqs [Group 1 (Seq (liti "warrant") (Alt (liti "y") (liti "ies"))); Eoi];
    seqs [Group 1 (Alt (words_i "service" ["level"; "agreement"]) (liti "sla")); Eoi];
    seqs [Group 1 (words_i "acceptance" ["criteria"]); Eoi];
    seqs [Group 1 (Seq (liti "definition") (Opt (liti "s"))); Eoi];
    seqs [Group 1 (alts [liti "background"; liti "introduction"; liti "overview"]); Eoi];
    seqs [Group 1 (alts [liti "assumptions"; liti "dependencies"; liti "exclusions"]); Eoi];
    seqs [Group 1 (alts [liti "appendix"; liti "exhibit"; liti "schedule"]); Star ws;
          Star (Chr (fun c => isLetter c || isDigit c)); Eoi] ].

(** [(number.match(/\./g) || []).length] *)
Definition dotCount (number : string) : nat :=
  length (List.filter (eqc ".") (chars number)).

(** [/^[IVXLCDM]+$/i.test(number)] *)
Definition isRoman (number : string) : bool :=
  nonEmpty number && forallb (oneOfi "IVXLCDM") (chars number).

Definition calculateSectionLevel (number : option string) : nat :=
  match number with
  | None => 1
  | Some n =>
      if negb (nonEmpty n) then 1
      else if Nat.ltb 0 (dotCount n) then dotCount n + 1
      else if isRoman n then 1
      else 1
  end.

(** [/[...]{3,}\s*\d+\s*$/.test(text) || /\t+\d+\s*$/.test(text)], where
    the class holds the full stop, the middle dot and the ellipsis; of the
    three only the full stop is an ASCII character. *)
Definition isTocEntry (text : string) : bool :=
  testSearch (seqs [AtLeast3 (Chr (oneOf ".")); Star ws; Plus digit; Star ws; Eoi]) text
  || testSearch (seqs [Plus (Chr (eqc TAB)); Plus digit; Star ws; Eoi]) text.

Record HeaderInfo : Type := { hNumber : option string; hTitle : string }.

Fixpoint firstMatch (ps : list regex) (s : string) : option captures :=
  match ps with
  | [] => None
  | p :: ps' =>
      match execAnchored p s with
      | Some c => Some c
      | None => firstMatch ps' s
      end
  end.

(** [match[2]?.trim() || dflt] *)
Definition trimmedGroup2 (caps : captures) : option string :=
  match group 2 caps with
  | Some t => if nonEmpty (trim t) then Some (trim t) else None
  | None => None
  end.

Definition detectSectionHeader (text : string) : option HeaderInfo :=
  let trimmed := trim text in
  if negb (nonEmpty trimmed) || Nat.ltb (len trimmed) 3 || Nat.ltb 150 (len trimmed)
  then None
  else if isTocEntry trimmed then None
  else
    match firstMatch SECTION_PATTERNS trimmed with
    | Some caps =>
        Some {| hNumber := group 1 caps;
                hTitle := default "Untitled" (trimmedGroup2 caps) |}
    | None =>
        if Nat.ltb (len trimmed) 60 then
          if existsb (fun p => testAnchored p trimmed) SECTION_TITLE_PATTERNS
          then Some {| hNumber := None; hTitle := trimmed |}
          else if String.eqb trimmed (toUpperCase trimmed)
                  && Nat.ltb 3 (len trimmed)
                  && testSearch (Chr isUpper) trimmed
          then Some {| hNumber := None; hTitle := trimmed |}
          else None
        else None
    end.

(** [/^table\s+of\s+contents$/i.test(t) || /^contents$/i.test(t)] *)
Definition isTocHeading (t : string) : bool :=
  testAnchored (seqs [words_i "table" ["of"; "contents"]; Eoi]) t
  || testAnchored (seqs [liti "contents"; Eoi]) t.

(** The variables of the loop of [extractSectionsFromHtml]; [fresh] counts
    the identifiers drawn from [uuidv4] so far. *)
Record Loop : Type := {
  sections : list Sec.t;
  currentSection : option Sec.t;
  currentBody : list string;
  tocSectionDetected : bool;
  fresh : nat
}.

(** [currentSection.body = currentBody.join("\n\n"); sections.push(currentSection)] *)
Definition close (cur : option Sec.t) (bodyParas : list string) (done : list Sec.t)
  : list Sec.t :=
  match cur with
  | Some c =>
      done ++ [Sec.mk (Sec.id c) (Sec.number c) (Sec.title c) (Sec.level c)
                 (join LFLF bodyParas) (Sec.startIndex c) (Sec.endIndex c)]
  | None => done
  end.

Definition step (uuidv4 : nat -> string) (st : Loop) (para : string) : Loop :=
  let trimmed := trim para in
  if negb (nonEmpty trimmed) then st
  else if isTocHeading trimmed then
    {| sections := sections st; currentSection := currentSection st;
       currentBody := currentBody st; tocSectionDetected := true; fresh := fresh st |}
  else if tocSectionDetected st && isTocEntry trimmed then st
  else
    let toc :=
      if tocSectionDetected st && negb (isTocEntry trimmed) && Nat.ltb 60 (len trimmed)
      then false else tocSectionDetected st in
    match detectSectionHeader trimmed with
    | Some headerInfo =>
        let saved := close (currentSection st) (currentBody st) (sections st) in
        {| sections := saved;
           currentSection :=
             Some (Sec.mk (uuidv4 (fresh st)) (hNumber headerInfo) (Some (hTitle headerInfo))
                     (calculateSectionLevel (hNumber headerInfo)) ""
                     (Some (Z.of_nat (length saved))) None);
           currentBody := [];
           tocSectionDetected := false;
           fresh := S (fresh st) |}
    | None =>
        match currentSection st with
        | Some _ =>
            {| sections := sections st; currentSection := currentSection st;
               currentBody := if negb toc then currentBody st ++ [trimmed] else currentBody st;
               tocSectionDetected := toc; fresh := fresh st |}
        | None =>
            {| sections := sections st;
               currentSection :=
                 Some (Sec.mk (uuidv4 (fresh st)) None (Some "Introduction") 1 "" (Some 0%Z) None);
               currentBody := [trimmed];
               tocSectionDetected := toc;
               fresh := S (fresh st) |}
        end
    end.

Definition start : Loop :=
  {| sections := []; currentSection := None; currentBody := [];
     tocSectionDetected := false; fresh := 0 |}.

(** The segmentation loop of [extractSectionsFromHtml] and its closing
    statement, over the array [paragraphs] (the text of the [p], [h1]-[h6]
    and [li] elements of the converted document, in order). [uuidv4 n] is
    the n-th identifier the generator returns. *)
Definition extractSectionsFromHtml (uuidv4 : nat -> string) (paragraphs : list string)
  : list Sec.t :=
  let st := fold_left (step uuidv4) paragraphs start in
  close (currentSection st) (currentBody st) (sections st).

(** The score [matchSections] gives a pair of sections: the body of its
    inner loop, each [score += n] in turn. *)
Definition score (newSection templateSection : Sec.t) : Q :=
  let score := 0%Q in
  let score :=
    match Sec.number newSection, Sec.number templateSection with
    | Some n, Some t =>
        if nonEmpty n && nonEmpty t then
          if String.eqb n t then IEEE.fadd score 100
          else if startsWith n t || startsWith t n then IEEE.fadd score 50
          else score
        else score
    | _, _ => score
    end in
  let score :=
    match Sec.title newSection, Sec.title templateSection with
    | Some n, Some t =>
        if nonEmpty n && nonEmpty t then
          let newTitle := toLowerCase n in
          let templateTitle := toLowerCase t in
          if String.eqb newTitle templateTitle then IEEE.fadd score 80
          else if includes newTitle templateTitle || includes templateTitle newTitle
          then IEEE.fadd score 40
          else score
        else score
    | _, _ => score
    end in
  let score :=
    if Nat.eqb (Sec.level newSection) (Sec.level templateSection)
    then IEEE.fadd score 10 else score in
  score.

(** The inner loop: the best template section so far and its score. *)
Definition consider (newSection : Sec.t) (best : option Sec.t * Q) (templateSection : Sec.t)
  : option Sec.t * Q :=
  let s := score newSection templateSection in
  if IEEE.gt s (snd best) then (Some templateSection, s) else best.

Definition bestMatch (templateSections : list Sec.t) (newSection : Sec.t)
  : option Sec.t * Q :=
  fold_left (consider newSection) templateSections (None, 0%Q).

(** [bestMatch?.id || null] *)
Definition idOrNull (best : option Sec.t) : option string :=
  match best with
  | Some t => if nonEmpty (Sec.id t) then Some (Sec.id t) else None
  | None => None
  end.

Definition matchSections (templateSections newSections : list Sec.t)
  : gmap string (option string) :=
  fold_left
    (fun matches newSection =>
       <[Sec.id newSection := idOrNull (fst (bestMatch templateSections newSection))]> matches)
    newSections ∅.

End DocxParser.

(** ** The plain-text parser (the earlier variant of [docxParser.ts]) *)

Module DocxParserText.
Import JsString Regex.

Definition dottedNumber : regex := DocxParser.dottedNumber.

(** The source text of [SECTION_PATTERNS]. *)
Definition SECTION_PATTERNS_source : list string :=
  [ "/^(\d+(?:\.\d+)*)\.\s+(.+)$/";
    "/^([IVXLCDM]+)\.\s+(.+)$/i";
    "/^([A-Z])\.\s+(.+)$/";
    "/^\(([a-z0-9ivx]+)\)\s+(.+)$/i";
    "/^(?:SECTION|Section)\s+(\d+(?:\.\d+)*)[:\.]?\s*(.*)$/i";
    "/^(?:ARTICLE|Article)\s+([IVXLCDM\d]+)[:\.]?\s*(.*)$/i" ].

Definition SECTION_PATTERNS : list regex :=
  [ seqs [Group 1 dottedNumber; lit "."; Plus ws; Group 2 (Plus dot); Eoi];
    seqs [Group 1 (Plus (Chr (oneOfi "IVXLCDM"))); lit "."; Plus ws; Group 2 (Plus dot); Eoi];
    seqs [Group 1 (Chr isUpper); lit "."; Plus ws; Group 2 (Plus dot); Eoi];
    seqs [lit "("; Group 1 (Plus (Chr (fun c => isLetter c || isDigit c))); lit ")";
          Plus ws; Group 2 (Plus dot); Eoi];
    seqs [Alt (liti "SECTION") (liti "Section"); Plus ws; Group 1 dottedNumber;
          Opt (Chr (oneOf ":.")); Star ws; Group 2 (Star dot); Eoi];
    seqs [Alt (liti "ARTICLE") (liti "Article"); Plus ws;
          Group 1 (Plus (Chr (fun c => oneOfi "IVXLCDM" c || isDigit c)));
          Opt (Chr (oneOf ":.")); Star ws; Group 2 (Star dot); Eoi] ].

Definition COMMON_SECTION_TITLES : list string :=
  [ "scope of work"; "scope of services"; "deliverables"; "timeline"; "milestones";
    "payment terms"; "pricing"; "fees"; "term and termination"; "termination";
    "confidentiality"; "intellectual property"; "liability"; "limitation of liability";
    "indemnification"; "warranty"; "warranties"; "service level agreement"; "sla";
    "acceptance criteria"; "change management"; "governance"; "definitions";
    "background"; "introduction"; "overview"; "assumptions"; "dependencies";
    "exclusions"; "appendix"; "exhibit"; "schedule" ].

(** [(number.match(/\./g) || []).length] *)
Definition dotCount (number : string) : nat :=
  length (List.filter (eqc ".") (chars number)).

(** [/^[IVXLCDM]+$/i.test(number)] *)
Definition isRoman (number : string) : bool :=
  nonEmpty number && forallb (oneOfi "IVXLCDM") (chars number).

(** [/^[A-Z]$/i.test(number)] *)
Definition isSingleLetter (number : string) : bool :=
  match chars number with
  | [c] => isLetter c
  | _ => false
  end.

(** [/^\([a-z0-9ivx]+\)$/i.test(number)] *)
Definition isParenthetical (number : string) : bool :=
  match chars number with
  | open :: rest =>
      eqc open "("
      && match rev rest with
         | close :: inner =>
             eqc close ")"
             && negb (Nat.eqb (length inner) 0)
             && forallb (fun c => isLetter c || isDigit c) inner
         | [] => false
         end
  | [] => false
  end.

Definition calculateSectionLevel (number : option string) : nat :=
  match number with
  | None => 1
  | Some n =>
      if negb (nonEmpty n) then 1
      else if Nat.ltb 0 (dotCount n) then dotCount n + 1
      else if isRoman n then 1
      else if isSingleLetter n then 2
      else if isParenthetical n then 3
      else 1
  end.

(** [match[2]?.trim() || null] *)
Definition trimmedGroup2 (caps : captures) : option string :=
  DocxParser.trimmedGroup2 caps.

(** [id] is the identifier [uuidv4()] returns if a section is built. *)
Definition parseParagraphAsSection (id : string) (text : string) (index : nat)
  : option Sec.t :=
  let trimmed := trim text in
  if negb (nonEmpty trimmed) || Nat.ltb (len trimmed) 3 then None
  else
    match DocxParser.firstMatch SECTION_PATTERNS trimmed with
    | Some caps =>
        let number := group 1 caps in
        let title := trimmedGroup2 caps in
        let level := calculateSectionLevel number in
        Some (Sec.mk id number title level trimmed (Some (Z.of_nat index)) None)
    | None =>
        let isLikelyTitle :=
          (String.eqb trimmed (toUpperCase trimmed) && Nat.ltb (len trimmed) 100)
          || existsb (fun t => includes (toLowerCase trimmed) t) COMMON_SECTION_TITLES in
        if isLikelyTitle && Nat.ltb (len trimmed) 150
        then Some (Sec.mk id None (Some trimmed) 1 trimmed (Some (Z.of_nat index)) None)
        else None
    end.

(** The variables of the loop of [extractSections]. *)
Record Loop : Type := {
  sections : list Sec.t;
  currentSection : option Sec.t;
  currentBody : list string;
  i : nat;
  fresh : nat
}.

(** [currentSection.body = currentBody.join("\n\n");
     currentSection.endIndex = last; sections.push(currentSection)] *)
Definition close (cur : option Sec.t) (bodyParas : list string) (last : Z)
  (done : list Sec.t) : list Sec.t :=
  match cur with
  | Some c =>
      done ++ [Sec.mk (Sec.id c) (Sec.number c) (Sec.title c) (Sec.level c)
                 (join LFLF bodyParas) (Sec.startIndex c) (Some last)]
  | None => done
  end.

Definition step (uuidv4 : nat -> string) (st : Loop) (paragraph : string) : Loop :=
  let para := trim paragraph in
  if negb (nonEmpty para)
  then {| sections := sections st; currentSection := currentSection st;
          currentBody := currentBody st; i := S (i st); fresh := fresh st |}
  else
    let isLikelyHeader := Nat.ltb (len para) 200 in
    let potentialSection :=
      if isLikelyHeader then parseParagraphAsSection (uuidv4 (fresh st)) para (i st)
      else None in
    match potentialSection with
    | Some sec =>
        {| sections := close (currentSection st) (currentBody st) (Z.of_nat (i st) - 1)
                         (sections st);
           currentSection := Some sec;
           currentBody := [];
           i := S (i st);
           fresh := S (fresh st) |}
    | None =>
        match currentSection st with
        | Some _ =>
            {| sections := sections st; currentSection := currentSection st;
               currentBody := currentBody st ++ [para];
               i := S (i st); fresh := fresh st |}
        | None =>
            {| sections := sections st;
               currentSection :=
                 Some (Sec.mk (uuidv4 (fresh st)) None (Some "Introduction") 1 ""
                         (Some (Z.of_nat (i st))) None);
               currentBody := [para];
               i := S (i st); fresh := S (fresh st) |}
        end
    end.

Definition start : Loop :=
  {| sections := []; currentSection := None; currentBody := []; i := 0; fresh := 0 |}.

(** [normalizedText.split(/\n+/).filter(p => p.trim())] *)
Definition paragraphsOf (text : string) : list string :=
  List.filter (fun p => nonEmpty (trim p))
    (split (eqc LF) (str (replaceCRLF (chars text)))).

Definition extractSections (uuidv4 : nat -> string) (text : string) : list Sec.t :=
  let paragraphs := paragraphsOf text in
  let st := fold_left (step uuidv4) paragraphs start in
  close (currentSection st) (currentBody st) (Z.of_nat (length paragraphs) - 1) (sections st).

End DocxParserText.

(** ** Grouping of issues by section (both components) *)

(** [for (const issue of allIssues) { const existing = map.get(issue.sectionId) || [];
     existing.push(issue); map.set(issue.sectionId, existing) }] *)
Definition groupIssues (allIssues : list Issue.t) : gmap string (list Issue.t) :=
  fold_left
    (fun (m : gmap string (list Issue.t)) issue =>
       <[Issue.sectionId issue := default [] (m !! Issue.sectionId issue) ++ [issue]]> m)
    allIssues ∅.

(** ** The comparison view ([src/components/ComparisonView.tsx]) *)

Module ComparisonView.
Import JsString.

Record SectionPair : Type := {
  templateSection : option Sec.t;
  draftSection : Sec.t;
  matchScore : Q;
  issues : list Issue.t
}.

(** The body of the inner loop of [sectionPairs], each [score += x] in turn. *)
Definition score (draftSection templateSection : Sec.t) : Q :=
  let score := 0%Q in
  let score :=
    match Sec.number draftSection, Sec.number templateSection with
    | Some d, Some t =>
        if nonEmpty d && nonEmpty t then
          if String.eqb d t then IEEE.fadd score 100
          else if startsWith d t || startsWith t d then IEEE.fadd score 50
          else score
        else score
    | _, _ => score
    end in
  let score :=
    match Sec.title draftSection, Sec.title templateSection with
    | Some d, Some t =>
        if nonEmpty d && nonEmpty t then
          let titleSimilarity := DiffUtils.calculateSimilarity d t in
          IEEE.fadd score (IEEE.fmul (inject_Z titleSimilarity) IEEE.lit_0_8)
        else score
    | _, _ => score
    end in
  let contentSimilarity :=
    DiffUtils.calculateSimilarity
      (substring0 500 (Sec.body draftSection)) (substring0 500 (Sec.body templateSection)) in
  let score := IEEE.fadd score (IEEE.fmul (inject_Z contentSimilarity) IEEE.lit_0_2) in
  let score :=
    if Nat.eqb (Sec.level draftSection) (Sec.level templateSection)
    then IEEE.fadd score 10 else score in
  score.

(** One turn of the inner loop; [best] is [(bestMatch, bestScore)]. *)
Definition consider (usedTemplateIds : gset string) (draftSection : Sec.t)
  (best : option Sec.t * Q) (templateSection : Sec.t) : option Sec.t * Q :=
  if bool_decide (Sec.id templateSection ∈ usedTemplateIds) then best
  else
    let s := score draftSection templateSection in
    if IEEE.gt s (snd best) then (Some templateSection, s) else best.

Definition bestCandidate (usedTemplateIds : gset string) (templateSections : list Sec.t)
  (draftSection : Sec.t) : option Sec.t * Q :=
  fold_left (consider usedTemplateIds draftSection) templateSections (None, 0%Q).

(** One turn of the outer loop; the state is [(pairs, usedTemplateIds)]. *)
Definition pairStep (templateSections : list Sec.t)
  (issuesBySectionId : gmap string (list Issue.t))
  (st : list SectionPair * gset string) (draftSection : Sec.t)
  : list SectionPair * gset string :=
  let '(pairs, usedTemplateIds) := st in
  let '(bestMatch, bestScore) := bestCandidate usedTemplateIds templateSections draftSection in
  let issues := default [] (issuesBySectionId !! Sec.id draftSection) in
  match bestMatch with
  | Some t =>
      if IEEE.ge bestScore 30
      then (pairs ++ [{| templateSection := Some t; draftSection := draftSection;
                         matchScore := bestScore; issues := issues |}],
            {[Sec.id t]} ∪ usedTemplateIds)
      else (pairs ++ [{| templateSection := None; draftSection := draftSection;
                         matchScore := 0; issues := issues |}],
            usedTemplateIds)
  | None =>
      (pairs ++ [{| templateSection := None; draftSection := draftSection;
                    matchScore := 0; issues := issues |}],
       usedTemplateIds)
  end.

(** [sectionPairs], a function of [templateSow.sections], [newSow.sections]
    and [analysis.allIssues]. *)
Definition sectionPairs (templateSections newSections : list Sec.t)
  (allIssues : list Issue.t) : list SectionPair :=
  fst (fold_left (pairStep templateSections (groupIssues allIssues)) newSections ([], ∅)).

(** The alignment a list of pairs stands for: draft id and matched template id. *)
Definition alignment (pairs : list SectionPair) : list (string * option string) :=
  map (fun p => (Sec.id (draftSection p), option_map Sec.id (templateSection p))) pairs.

End ComparisonView.

(** ** The review dashboard ([src/components/ReviewDashboard.tsx]) *)

Module ReviewDashboard.
Import JsString.

Inductive Status : Type := ok | warning | error | new.

Record SectionMatch : Type := {
  draftSection : Sec.t;
  templateSection : option Sec.t;
  issues : list Issue.t;
  status : Status;
  isResolved : bool
}.

Definition score (draftSection templateSection : Sec.t) : Q :=
  let score := 0%Q in
  let score :=
    match Sec.number draftSection, Sec.number templateSection with
    | Some d, Some t =>
        if nonEmpty d && nonEmpty t then
          if String.eqb d t then IEEE.fadd score 100 else score
        else score
    | _, _ => score
    end in
  let score :=
    match Sec.title draftSection, Sec.title templateSection with
    | Some d, Some t =>
        if nonEmpty d && nonEmpty t then
          let t1 := toLowerCase d in
          let t2 := toLowerCase t in
          if String.eqb t1 t2 then IEEE.fadd score 80
          else if includes t1 t2 || includes t2 t1 then IEEE.fadd score 40
          else score
        else score
    | _, _ => score
    end in
  score.

Definition consider (usedTemplateIds : gset string) (draftSection : Sec.t)
  (best : option Sec.t * Q) (templateSection : Sec.t) : option Sec.t * Q :=
  if bool_decide (Sec.id templateSection ∈ usedTemplateIds) then best
  else
    let s := score draftSection templateSection in
    if IEEE.gt s (snd best) then (Some templateSection, s) else best.

Definition bestCandidate (usedTemplateIds : gset string) (templateSections : list Sec.t)
  (draftSection : Sec.t) : option Sec.t * Q :=
  fold_left (consider usedTemplateIds draftSection) templateSections (None, 0%Q).

Definition statusOf (bestMatch : option Sec.t) (issues : list Issue.t) : Status :=
  let hasHighIssue := existsb (fun i => Severity_eqb (Issue.severity i) high) issues in
  let hasMediumIssue := existsb (fun i => Severity_eqb (Issue.severity i) medium) issues in
  match bestMatch with
  | None => new
  | Some _ =>
      if hasHighIssue then error
      else if hasMediumIssue || Nat.ltb 0 (length issues) then warning
      else ok
  end.

Definition matchStep (templateSections : list Sec.t)
  (issuesBySectionId : gmap string (list Issue.t)) (resolvedSections : gset string)
  (st : list SectionMatch * gset string) (draftSection : Sec.t)
  : list SectionMatch * gset string :=
  let '(matches, usedTemplateIds) := st in
  let '(bestMatch0, bestScore) := bestCandidate usedTemplateIds templateSections draftSection in
  let accepted :=
    match bestMatch0 with
    | Some _ => IEEE.ge bestScore 40
    | None => false
    end in
  let bestMatch := if accepted then bestMatch0 else None in
  let usedTemplateIds' :=
    match bestMatch with
    | Some t => {[Sec.id t]} ∪ usedTemplateIds
    | None => usedTemplateIds
    end in
  let issues := default [] (issuesBySectionId !! Sec.id draftSection) in
  (matches ++ [{| draftSection := draftSection; templateSection := bestMatch;
                  issues := issues; status := statusOf bestMatch issues;
                  isResolved := bool_decide (Sec.id draftSection ∈ resolvedSections) |}],
   usedTemplateIds').

(** [sectionMatches], a function of [draftSow.sections], [templateSow.sections],
    [analysis.allIssues] and the component state [resolvedSections]. *)
Definition sectionMatches (templateSections draftSections : list Sec.t)
  (allIssues : list Issue.t) (resolvedSections : gset string) : list SectionMatch :=
  fst (fold_left (matchStep templateSections (groupIssues allIssues) resolvedSections)
         draftSections ([], ∅)).

Definition alignment (matches : list SectionMatch) : list (string * option string) :=
  map (fun m => (Sec.id (draftSection m), option_map Sec.id (templateSection m))) matches.

End ReviewDashboard.

(** ** Rich formatting types ([src/types/index.ts]) *)

Inductive Alignment : Type := left | center | right | justify.

Record TextRunFormatting : Type := {
  bold : option bool;
  italic : option bool;
  underline : option bool;
  strike : option bool;
  fontSize : option Q;
  fontFamily : option string;
  color : option string;
  highlight : option string
}.

Record ParagraphFormatting : Type := {
  alignment : option Alignment;
  indentLeft : option Q;
  indentRight : option Q;
  indentFirstLine : option Q;
  spacingBefore : option Q;
  spacingAfter : option Q;
  lineSpacing : option Q;
  styleId : option string;
  styleName : option string;
  outlineLevel : option Q
}.

Record RichTextRun : Type := { runText : string; runFormatting : TextRunFormatting }.

Inductive ListType : Type := bullet | numbered.

Record RichParagraph : Type := {
  paraId : string;
  text : string;
  formatting : ParagraphFormatting;
  runs : list RichTextRun;
  isHeading : option bool;
  headingLevel : option Q;
  listLevel : option Q;
  listType : option ListType
}.

Record RichTableCell : Type := {
  content : list RichParagraph;
  colSpan : option Q;
  rowSpan : option Q;
  shading : option string
}.

Record RichTableRow : Type := {
  cells : list RichTableCell;
  height : option Q;
  isHeader : option bool
}.

Record RichTable : Type := {
  tableId : string;
  rows : list RichTableRow;
  columns : Q;
  style : option string
}.

(** [interface RichSection extends Section] *)
Record RichSection : Type := {
  section : Sec.t;
  paragraphs : option (list RichParagraph);
  tables : option (list RichTable)
}.

Inductive DifferenceType : Type :=
| dStyle | dFont | dAlignment | dSpacing | dIndent | dList | dTable | dHeading.

Inductive FixType : Type :=
| apply_template_style | apply_template_formatting | apply_template_font.

Record Fix : Type := {
  fixType : FixType;
  templateFormatting : ParagraphFormatting + TextRunFormatting
}.

Record Location : Type := {
  sectionId : string;
  paragraphIndex : option nat;
  textSnippet : option string
}.

(** [interface FormattingDifference], without its identifier (a fresh
    uuid). The field [fix] is [fix_], the name being reserved. *)
Record FormattingDifference : Type := {
  type : DifferenceType;
  description : string;
  templateValue : string;
  draftValue : string;
  severity : Severity;
  location : Location;
  fix_ : option Fix
}.

(** An object literal that sets one field and leaves the others undefined. *)
Definition noParagraphFormatting : ParagraphFormatting :=
  {| alignment := None; indentLeft := None; indentRight := None; indentFirstLine := None;
     spacingBefore := None; spacingAfter := None; lineSpacing := None; styleId := None;
     styleName := None; outlineLevel := None |}.

Definition noRunFormatting : TextRunFormatting :=
  {| bold := None; italic := None; underline := None; strike := None; fontSize := None;
     fontFamily := None; color := None; highlight := None |}.

Definition onlyAlignment (a : option Alignment) : ParagraphFormatting :=
  {| alignment := a; indentLeft := None; indentRight := None; indentFirstLine := None;
     spacingBefore := None; spacingAfter := None; lineSpacing := None; styleId := None;
     styleName := None; outlineLevel := None |}.

Definition onlyStyleId (s : option string) : ParagraphFormatting :=
  {| alignment := None; indentLeft := None; indentRight := None; indentFirstLine := None;
     spacingBefore := None; spacingAfter := None; lineSpacing := None; styleId := s;
     styleName := None; outlineLevel := None |}.

Definition onlySpacingAfter (x : option Q) : ParagraphFormatting :=
  {| alignment := None; indentLeft := None; indentRight := None; indentFirstLine := None;
     spacingBefore := None; spacingAfter := x; lineSpacing := None; styleId := None;
     styleName := None; outlineLevel := None |}.

Definition onlyIndentLeft (x : option Q) : ParagraphFormatting :=
  {| alignment := None; indentLeft := x; indentRight := None; indentFirstLine := None;
     spacingBefore := None; spacingAfter := None; lineSpacing := None; styleId := None;
     styleName := None; outlineLevel := None |}.

Definition onlyBold (b : option bool) : TextRunFormatting :=
  {| bold := b; italic := None; underline := None; strike := None; fontSize := None;
     fontFamily := None; color := None; highlight := None |}.

Definition onlyItalic (b : option bool) : TextRunFormatting :=
  {| bold := None; italic := b; underline := None; strike := None; fontSize := None;
     fontFamily := None; color := None; highlight := None |}.

Definition onlyFontSize (x : option Q) : TextRunFormatting :=
  {| bold := None; italic := None; underline := None; strike := None; fontSize := x;
     fontFamily := None; color := None; highlight := None |}.

Definition onlyFontFamily (s : option string) : TextRunFormatting :=
  {| bold := None; italic := None; underline := None; strike := None; fontSize := None;
     fontFamily := s; color := None; highlight := None |}.

(** ** The formatting differ ([src/services/formattingAnalyzer.ts]) *)

Module FormattingAnalyzer.
Import JsString.

(** [a !== b] at the types the differ compares. *)
Definition neqAlignment (a b : option Alignment) : bool :=
  match a, b with
  | None, None => false
  | Some left, Some left | Some center, Some center
  | Some right, Some right | Some justify, Some justify => false
  | _, _ => true
  end.

Definition neqString (a b : option string) : bool :=
  match a, b with
  | None, None => false
  | Some x, Some y => negb (String.eqb x y)
  | _, _ => true
  end.

Definition neqNumber (a b : option Q) : bool :=
  match a, b with
  | None, None => false
  | Some x, Some y => IEEE.neq x y
  | _, _ => true
  end.

Definition neqBool (a b : option bool) : bool :=
  match a, b with
  | None, None => false
  | Some x, Some y => negb (Bool.eqb x y)
  | _, _ => true
  end.

(** Truthiness of an optional number and of an optional boolean. *)
Definition truthyNumber (a : option Q) : bool :=
  match a with
  | Some x => IEEE.truthy x
  | None => false
  end.

Definition truthyBool (a : option bool) : bool :=
  match a with
  | Some b => b
  | None => false
  end.

(** The double quote. *)
Definition DQ : string := String (ascii_of_nat 34) EmptyString.

Definition alignmentName (a : Alignment) : string :=
  match a with
  | left => "left"
  | center => "center"
  | right => "right"
  | justify => "justify"
  end.

(** [alignment || 'left'] *)
Definition alignmentOrLeft (a : option Alignment) : string :=
  match a with
  | Some x => alignmentName x
  | None => "left"
  end.

(** [a || b] on strings that may be missing. *)
Definition orString (a b : option string) : option string :=
  if truthyStr a then a else b.

(** [a || "text"] *)
Definition orDefault (a : option string) (text : string) : string :=
  match a with
  | Some x => if nonEmpty x then x else text
  | None => text
  end.

(** [`${a}`] for a string that may be missing. *)
Definition interpolate (a : option string) : string :=
  match a with
  | Some x => x
  | None => "undefined"
  end.

Section Differ.

(** The conversion of a number to a string, [`${x}`], which is
    JavaScript's own. *)
Variable numberToString : Q -> string.

(** [`${x}`] for a number that may be missing. *)
Definition showNumber (x : option Q) : string :=
  match x with
  | Some q => numberToString q
  | None => "undefined"
  end.

(** [`${x || 0}`] and [`${x || 'default'}`] *)
Definition showNumberOrZero (x : option Q) : string :=
  if truthyNumber x then showNumber x else numberToString 0.

Definition showNumberOrDefault (x : option Q) : string :=
  if truthyNumber x then showNumber x else "default".

(** [`${xs.length}`] *)
Definition showCount (n : nat) : string := numberToString (inject_Z (Z.of_nat n)).

Definition paragraphLocation (draftSection : RichSection) (i : nat) (snippetOf : string)
  : Location :=
  {| sectionId := Sec.id (section draftSection);
     paragraphIndex := Some i;
     textSnippet := Some (substring0 50 snippetOf) |}.

(** The four comparisons of one pair of runs, in source order. *)
Definition compareRuns (draftSection : RichSection) (i : nat) (tRun dRun : RichTextRun)
  : list FormattingDifference :=
  let here := paragraphLocation draftSection i (runText dRun) in
  let tf := runFormatting tRun in
  let df := runFormatting dRun in
  (if neqBool (bold tf) (bold df) then
     [{| type := dFont;
         description :=
           "Bold formatting differs for " ++ DQ ++ substring0 30 (runText dRun) ++ "..." ++ DQ;
         templateValue := if truthyBool (bold tf) then "Bold" else "Normal";
         draftValue := if truthyBool (bold df) then "Bold" else "Normal";
         severity := medium; location := here;
         fix_ := Some {| fixType := apply_template_font;
                        templateFormatting := inr (onlyBold (bold tf)) |} |}]
   else [])
  ++ (if neqBool (italic tf) (italic df) then
        [{| type := dFont;
            description :=
              "Italic formatting differs for " ++ DQ ++ substring0 30 (runText dRun)
              ++ "..." ++ DQ;
            templateValue := if truthyBool (italic tf) then "Italic" else "Normal";
            draftValue := if truthyBool (italic df) then "Italic" else "Normal";
            severity := medium; location := here;
            fix_ := Some {| fixType := apply_template_font;
                           templateFormatting := inr (onlyItalic (italic tf)) |} |}]
      else [])
  ++ (if neqNumber (fontSize tf) (fontSize df) && truthyNumber (fontSize tf) then
        [{| type := dFont;
            description :=
              "Font size differs: " ++ showNumber (fontSize tf) ++ "pt in template vs "
              ++ showNumberOrDefault (fontSize df) ++ "pt in draft";
            templateValue := showNumber (fontSize tf) ++ "pt";
            draftValue := showNumberOrDefault (fontSize df) ++ "pt";
            severity := high; location := here;
            fix_ := Some {| fixType := apply_template_font;
                           templateFormatting := inr (onlyFontSize (fontSize tf)) |} |}]
      else [])
  ++ (if neqString (fontFamily tf) (fontFamily df) && truthyStr (fontFamily tf) then
        [{| type := dFont;
            description :=
              "Font family differs: " ++ DQ ++ interpolate (fontFamily tf) ++ DQ
              ++ " in template vs " ++ DQ ++ orDefault (fontFamily df) "default" ++ DQ
              ++ " in draft";
            (* [tRun.formatting.fontFamily], a string under this guard *)
            templateValue := interpolate (fontFamily tf);
            draftValue := orDefault (fontFamily df) "default";
            severity := high; location := here;
            fix_ := Some {| fixType := apply_template_font;
                           templateFormatting := inr (onlyFontFamily (fontFamily tf)) |} |}]
      else []).

(** The five paragraph-level comparisons of one pair of paragraphs. *)
Definition compareParagraphLevel (draftSection : RichSection) (i : nat)
  (tPara dPara : RichParagraph) : list FormattingDifference :=
  let here := paragraphLocation draftSection i (text dPara) in
  let tf := formatting tPara in
  let df := formatting dPara in
  (if neqAlignment (alignment tf) (alignment df) then
     [{| type := dAlignment;
         description :=
           "Paragraph alignment differs: " ++ DQ ++ alignmentOrLeft (alignment tf) ++ DQ
           ++ " in template vs " ++ DQ ++ alignmentOrLeft (alignment df) ++ DQ ++ " in draft";
         templateValue := alignmentOrLeft (alignment tf);
         draftValue := alignmentOrLeft (alignment df);
         severity := medium; location := here;
         fix_ := Some {| fixType := apply_template_formatting;
                        templateFormatting := inl (onlyAlignment (alignment tf)) |} |}]
   else [])
  ++ (if neqString (styleId tf) (styleId df) && truthyStr (styleId tf) then
        [{| type := dStyle;
            description :=
              "Paragraph style differs: " ++ DQ
              ++ interpolate (orString (styleName tf) (styleId tf)) ++ DQ
              ++ " in template vs " ++ DQ
              ++ orDefault (orString (styleName df) (styleId df)) "Normal" ++ DQ
              ++ " in draft";
            templateValue := orDefault (orString (styleName tf) (styleId tf)) "Normal";
            draftValue := orDefault (orString (styleName df) (styleId df)) "Normal";
            severity := high; location := here;
            fix_ := Some {| fixType := apply_template_style;
                           templateFormatting := inl tf |} |}]
      else [])
  ++ (if neqNumber (spacingAfter tf) (spacingAfter df) && truthyNumber (spacingAfter tf) then
        [{| type := dSpacing;
            description := "Paragraph spacing after differs";
            templateValue := showNumber (spacingAfter tf);
            draftValue := showNumberOrZero (spacingAfter df);
            severity := low; location := here;
            fix_ := Some {| fixType := apply_template_formatting;
                           templateFormatting := inl (onlySpacingAfter (spacingAfter tf)) |} |}]
      else [])
  ++ (if neqNumber (indentLeft tf) (indentLeft df) && truthyNumber (indentLeft tf) then
        [{| type := dIndent;
            description := "Left indentation differs";
            templateValue := showNumber (indentLeft tf);
            draftValue := showNumberOrZero (indentLeft df);
            severity := low; location := here;
            fix_ := Some {| fixType := apply_template_formatting;
                           templateFormatting := inl (onlyIndentLeft (indentLeft tf)) |} |}]
      else [])
  ++ (if (neqBool (isHeading tPara) (isHeading dPara)
          || neqNumber (headingLevel tPara) (headingLevel dPara))
         && truthyBool (isHeading tPara) then
        [{| type := dHeading;
            description :=
              "Heading level differs: Level " ++ showNumber (headingLevel tPara)
              ++ " in template vs "
              ++ (if truthyBool (isHeading dPara)
                  then "Level " ++ showNumber (headingLevel dPara)
                  else "not a heading")
              ++ " in draft";
            templateValue := "Heading " ++ showNumber (headingLevel tPara);
            draftValue :=
              if truthyBool (isHeading dPara)
              then "Heading " ++ showNumber (headingLevel dPara)
              else "Normal";
            severity := high; location := here;
            fix_ := Some {| fixType := apply_template_style;
                           templateFormatting := inl tf |} |}]
      else []).

(** The body of the loop over [i]: the paragraph-level comparisons, then the
    runs pairwise up to the shorter of the two run lists. *)
Definition compareParagraphs (draftSection : RichSection) (i : nat)
  (tPara dPara : RichParagraph) : list FormattingDifference :=
  compareParagraphLevel draftSection i tPara dPara
  ++ flat_map (fun td => compareRuns draftSection i (fst td) (snd td))
       (combine (runs tPara) (runs dPara)).

Definition compareTables (draftSection : RichSection) (tTables dTables : list RichTable)
  : list FormattingDifference :=
  if negb (Nat.eqb (length tTables) (length dTables)) then
    [{| type := dTable;
        description :=
          "Table count differs: " ++ showCount (length tTables) ++ " in template vs "
          ++ showCount (length dTables) ++ " in draft";
        templateValue := showCount (length tTables) ++ " tables";
        draftValue := showCount (length dTables) ++ " tables";
        severity := high;
        location := {| sectionId := Sec.id (section draftSection);
                       paragraphIndex := None; textSnippet := None |};
        fix_ := None |}]
  else [].

Fixpoint compareFrom (draftSection : RichSection) (i : nat)
  (templateParas draftParas : list RichParagraph) : list FormattingDifference :=
  match templateParas, draftParas with
  | tPara :: ts, dPara :: ds =>
      compareParagraphs draftSection i tPara dPara ++ compareFrom draftSection (S i) ts ds
  | _, _ => []
  end.

Definition compareSectionFormatting (templateSection : option RichSection)
  (draftSection : RichSection) : list FormattingDifference :=
  match templateSection with
  | None => []
  | Some t =>
      match paragraphs t, paragraphs draftSection with
      | Some templateParas, Some draftParas =>
          compareFrom draftSection 0 templateParas draftParas
          ++ match tables t, tables draftSection with
             | Some tTables, Some dTables => compareTables draftSection tTables dTables
             | _, _ => []
             end
      | _, _ => []
      end
  end.

End Differ.

End FormattingAnalyzer.

(** ** The per-section analyzer ([src/services/openaiAnalyzer.ts]) *)

Module OpenaiAnalyzer.
Import JsString.

Record Metadata : Type := {
  metaTitle : option string;
  vendor : option string;
  client : option string;
  effectiveDate : option string;
  totalValue : option string
}.

Record ParsedSOW : Type := {
  sowId : string;
  filename : string;
  uploadedAt : string;
  sections : list Sec.t;
  rawText : string;
  metadata : option Metadata
}.

Record SectionAnalysis : Type := {
  sectionId : string;
  matchedOldSectionId : option string;
  severityOverall : Severity;
  issues : list Issue.t;
  suggestedRevision : option string;
  notesForLegalReview : list string
}.

(** Statements that may throw: [inl message] is a thrown error. *)
Definition Exn (A : Type) : Type := (string + A)%type.
Definition ret {A : Type} (a : A) : Exn A := inr a.
Definition throw {A : Type} (message : string) : Exn A := inl message.
Definition bind {A B : Type} (c : Exn A) (k : A -> Exn B) : Exn B :=
  match c with
  | inl e => inl e
  | inr a => k a
  end.

Notation "'let*' x ':=' c 'in' k" := (bind c (fun x => k))
  (at level 10, x name, c at level 100, k at level 200, only parsing).

(** The section data sent to the model, bodies cut at 3000 characters. *)
Record SectionPayload : Type := {
  pId : string;
  pNumber : option string;
  pTitle : option string;
  pBody : string
}.

Record Request : Type := {
  project_name : string;
  company : string;
  template_section : option SectionPayload;
  new_section : SectionPayload
}.

(** One issue of a reply and a reply, as the response schema types them.
    [replyIssues] is [None] when the parsed object has no array under
    [issues], in which case [parsed.issues.map] throws a [TypeError]. *)
Record ReplyIssue : Type := {
  riType : string;
  riSeverity : Severity;
  riDescription : string;
  old_text_snippet : option string;
  new_text_snippet : option string;
  riSuggestedRevision : option string;
  riCategory : string
}.

Record Reply : Type := {
  severity_overall : Severity;
  replyIssues : option (list ReplyIssue);
  suggested_revision : option string;
  notes_for_legal_review : option (list string)
}.

(** The hosted language-model service and the two library calls around it:
    [getClient] throws when the endpoint or the key is not configured,
    [create] is the awaited completion request (it throws on a transport
    failure and otherwise yields [response.choices[0]?.message?.content]),
    and [parse] is [JSON.parse] (it throws on malformed text). *)
Record Service : Type := {
  getClient : Exn unit;
  create : Request -> Exn (option string);
  parse : string -> Exn Reply
}.

Definition mapIssueCategory (category : string) : IssueCategory :=
  if String.eqb category "legal_risk" then legal_risk
  else if String.eqb category "financial" then financial
  else if String.eqb category "deliverables_scope" then deliverables_scope
  else if String.eqb category "language_clarity" then language_clarity
  else if String.eqb category "formatting_structure" then formatting_structure
  else deliverables_scope.

Definition payloadOf (s : Sec.t) : SectionPayload :=
  {| pId := Sec.id s; pNumber := Sec.number s; pTitle := Sec.title s;
     pBody := substring0 3000 (Sec.body s) |}.

Record Context : Type := { projectName : option string; contextCompany : option string }.

Definition orDefault (o : option string) (dflt : string) : string :=
  match o with
  | Some s => if nonEmpty s then s else dflt
  | None => dflt
  end.

Definition requestOf (templateSection : option Sec.t) (newSection : Sec.t) (context : Context)
  : Request :=
  {| project_name := orDefault (projectName context) "SOW Project";
     company := orDefault (contextCompany context) "Company";
     template_section := option_map payloadOf templateSection;
     new_section := payloadOf newSection |}.

(** The [try] block of [analyzeSectionPair]; [uuidv4 k] names the k-th issue. *)
Definition tryAnalyze (svc : Service) (uuidv4 : nat -> string)
  (templateSection : option Sec.t) (newSection : Sec.t) (context : Context)
  : Exn SectionAnalysis :=
  let* _ := getClient svc in
  let* content := create svc (requestOf templateSection newSection context) in
  let* text :=
    match content with
    | Some c => if nonEmpty c then ret c else throw "No response content from Azure OpenAI"
    | None => throw "No response content from Azure OpenAI"
    end in
  let* parsed := parse svc text in
  let* replied :=
    match replyIssues parsed with
    | Some l => ret l
    | None => throw "TypeError"
    end in
  ret {| sectionId := Sec.id newSection;
         matchedOldSectionId := option_map Sec.id templateSection;
         severityOverall := severity_overall parsed;
         issues :=
           imap (fun k issue =>
                   Issue.mk (uuidv4 k) (riType issue) (riSeverity issue) (Sec.id newSection)
                     (riDescription issue) (old_text_snippet issue) (new_text_snippet issue)
                     (riSuggestedRevision issue) (mapIssueCategory (riCategory issue)))
             replied;
         suggestedRevision := suggested_revision parsed;
         notesForLegalReview := default [] (notes_for_legal_review parsed) |}.

(** The value returned from the [catch] block. *)
Definition minimalAnalysis (templateSection : option Sec.t) (newSection : Sec.t)
  : SectionAnalysis :=
  {| sectionId := Sec.id newSection;
     matchedOldSectionId := option_map Sec.id templateSection;
     severityOverall := low;
     issues := [];
     suggestedRevision := None;
     notesForLegalReview := [] |}.

Definition analyzeSectionPair (svc : Service) (uuidv4 : nat -> string)
  (templateSection : option Sec.t) (newSection : Sec.t) (context : Context)
  : SectionAnalysis :=
  match tryAnalyze svc uuidv4 templateSection newSection context with
  | inr analysis => analysis
  | inl _ => minimalAnalysis templateSection newSection
  end.

(** [newSow.sections.slice(i, i + batchSize)] for [i = 0, 3, 6, ...] *)
Fixpoint batches (l : list (nat * Sec.t)) : list (list (nat * Sec.t)) :=
  match l with
  | a :: b :: c :: rest => [a; b; c] :: batches rest
  | [] => []
  | _ => [l]
  end.

(** [templateSow.sections.find(s => s.id === matchedTemplateId) || null] *)
Definition findTemplate (templateSections : list Sec.t) (matched : option (option string))
  : option Sec.t :=
  match matched with
  | Some (Some tid) =>
      if nonEmpty tid then List.find (fun s => String.eqb (Sec.id s) tid) templateSections
      else None
  | _ => None
  end.

(** The section loop of [analyzeSOWs]: the sections in batches of three, the
    analyses of a batch appended in order. [uuidv4 n k] names the k-th issue
    of the n-th section. The result is [(sectionAnalyses, allIssues)]. *)
Definition analyzeSections (svc : Service) (uuidv4 : nat -> nat -> string)
  (templateSow newSow : ParsedSOW) : list SectionAnalysis * list Issue.t :=
  let sectionMatches := DocxParser.matchSections (sections templateSow) (sections newSow) in
  fold_left
    (fun (acc : list SectionAnalysis * list Issue.t) batch =>
       let batchResults :=
         map (fun ns : nat * Sec.t =>
                let newSection := snd ns in
                let templateSection :=
                  findTemplate (sections templateSow) (sectionMatches !! Sec.id newSection) in
                analyzeSectionPair svc (uuidv4 (fst ns)) templateSection newSection
                  {| projectName :=
                       match metadata newSow with
                       | Some m => metaTitle m
                       | None => None
                       end;
                     contextCompany := Some "Company" |})
           batch in
       (fst acc ++ batchResults, snd acc ++ flat_map issues batchResults))
    (batches (imap (fun n s => (n, s)) (sections newSow)))
    ([], []).

End OpenaiAnalyzer.

(** ** The comparison view: counts, missing sections and expansion state
       ([src/components/ComparisonView.tsx]) *)

Module ComparisonViewPanel.
Import JsString ComparisonView.

Record Stats : Type := { matched : nat; unmatched : nat; withIssues : nat; total : nat }.

(** [stats]: [p.templateSection] is truthy when it is not null. *)
Definition stats (sectionPairs : list SectionPair) : Stats :=
  {| matched := length (List.filter (fun p => Regex.isSome (templateSection p)) sectionPairs);
     unmatched :=
       length (List.filter (fun p => negb (Regex.isSome (templateSection p))) sectionPairs);
     withIssues := length (List.filter (fun p => Nat.ltb 0 (length (issues p))) sectionPairs);
     total := length sectionPairs |}.

(** [new Set(sectionPairs.filter(p => p.templateSection).map(p => p.templateSection!.id))] *)
Definition matchedTemplateIds (sectionPairs : list SectionPair) : gset string :=
  list_to_set (omap (fun p => option_map Sec.id (templateSection p)) sectionPairs).

(** [templateSow.sections.filter(s => !matchedTemplateIds.has(s.id))], the
    list shown as "Missing Sections from Draft". *)
Definition unmatchedTemplateSections (templateSections : list Sec.t)
  (sectionPairs : list SectionPair) : list Sec.t :=
  List.filter (fun s => negb (bool_decide (Sec.id s ∈ matchedTemplateIds sectionPairs)))
    templateSections.

(** The two state variables [expandedSections] and [expandAll]. *)
Record ViewState : Type := { expandedSections : gset string; expandAll : bool }.

(** [useState(new Set())] and [useState(true)] *)
Definition initial : ViewState := {| expandedSections := ∅; expandAll := true |}.

Definition toggleSection (sectionId : string) (st : ViewState) : ViewState :=
  {| expandedSections :=
       if bool_decide (sectionId ∈ expandedSections st)
       then expandedSections st ∖ {[sectionId]}
       else {[sectionId]} ∪ expandedSections st;
     expandAll := expandAll st |}.

Definition handleExpandAll (sectionPairs : list SectionPair) (st : ViewState) : ViewState :=
  {| expandedSections :=
       if expandAll st then ∅
       else list_to_set (map (fun p => Sec.id (draftSection p)) sectionPairs);
     expandAll := negb (expandAll st) |}.

Definition isSectionExpanded (st : ViewState) (sectionId : string) : bool :=
  if expandAll st && Nat.eqb (size (expandedSections st)) 0 then true
  else bool_decide (sectionId ∈ expandedSections st).

End ComparisonViewPanel.

(** ** The review dashboard: filters, counts and resolution state
       ([src/components/ReviewDashboard.tsx]) *)

Module ReviewDashboardPanel.
Import JsString ReviewDashboard.

(** The filter, one of ["all"], ["issues"] and ["resolved"]. *)
Inductive Filter : Type := all | issuesOnly | resolvedOnly.

Definition Status_eqb (a b : Status) : bool :=
  match a, b with
  | ok, ok | warning, warning | error, error | new, new => true
  | _, _ => false
  end.

Definition filteredMatches (sectionMatches : list SectionMatch) (filter : Filter)
  : list SectionMatch :=
  match filter with
  | issuesOnly =>
      List.filter (fun m => Nat.ltb 0 (length (issues m)) && negb (isResolved m)) sectionMatches
  | resolvedOnly => List.filter (fun m => isResolved m) sectionMatches
  | all => sectionMatches
  end.

Record Stats : Type := { total : nat; withIssues : nat; resolved : nat; highPriority : nat }.

Definition stats (sectionMatches : list SectionMatch) : Stats :=
  {| total := length sectionMatches;
     withIssues := length (List.filter (fun m => Nat.ltb 0 (length (issues m))) sectionMatches);
     resolved := length (List.filter (fun m => isResolved m) sectionMatches);
     highPriority :=
       length (List.filter (fun m => Status_eqb (status m) error && negb (isResolved m))
                 sectionMatches) |}.

(** The two state variables [expandedSections] and [resolvedSections]. *)
Record ViewState : Type := { expandedSections : gset string; resolvedSections : gset string }.

Definition toggleSection (sectionId : string) (st : ViewState) : ViewState :=
  {| expandedSections :=
       if bool_decide (sectionId ∈ expandedSections st)
       then expandedSections st ∖ {[sectionId]}
       else {[sectionId]} ∪ expandedSections st;
     resolvedSections := resolvedSections st |}.

Definition markResolved (sectionId : string) (st : ViewState) : ViewState :=
  {| expandedSections := expandedSections st ∖ {[sectionId]};
     resolvedSections := resolvedSections st ∪ {[sectionId]} |}.

End ReviewDashboardPanel.

(** ** The document-level analyzer ([analyzeGlobal] in
       [src/services/openaiAnalyzer.ts]) *)

Module OpenaiGlobal.
Import JsString OpenaiAnalyzer.

Record ValueChange : Type := {
  oldValue : option string;
  newValue : option string;
  percentChange : option Q
}.

(** [interface GlobalAnalysis]. The fields arrive unchecked from the
    language model; [scopeChange] and [summary] are kept as what they are,
    strings that may be missing. *)
Record GlobalAnalysis : Type := {
  scopeChange : option string;
  scopeChangeDescription : option string;
  totalValueChange : option ValueChange;
  timelineChanges : option (list string);
  criticalRedFlags : list string;
  summary : option string
}.

(** The parsed reply of the model. *)
Record GlobalReply : Type := {
  scope_change : option string;
  scope_change_description : option string;
  total_value_change : option ValueChange;
  timeline_changes : option (list string);
  critical_red_flags : option (list string);
  reply_summary : option string
}.

(** One side of the request: [section_count] and the summary of the
    sections, cut at 4000 characters. *)
Record DocumentPayload : Type := {
  dFilename : string;
  dMetadata : option Metadata;
  section_count : nat;
  dSummary : string
}.

Record GlobalRequest : Type := {
  template_document : DocumentPayload;
  new_document : DocumentPayload
}.

(** The service: as for a section, with the global request and reply.
    [parseGlobal] is [JSON.parse] followed by the first property access on
    its result: it throws on malformed text and on a parsed [null]. *)
Record GlobalService : Type := {
  getGlobalClient : Exn unit;
  createGlobal : GlobalRequest -> Exn (option string);
  parseGlobal : string -> Exn GlobalReply
}.

(** [`${s.number || ""} ${s.title || ""}: ${s.body.substring(0, 200)}...`] *)
Definition sectionLine (s : Sec.t) : string :=
  orDefault (Sec.number s) "" ++ " " ++ orDefault (Sec.title s) "" ++ ": "
  ++ substring0 200 (Sec.body s) ++ "...".

Definition documentPayload (sow : ParsedSOW) : DocumentPayload :=
  {| dFilename := filename sow;
     dMetadata := metadata sow;
     section_count := length (sections sow);
     dSummary := substring0 4000 (join (String LF EmptyString) (map sectionLine (sections sow))) |}.

Definition globalRequest (templateSow newSow : ParsedSOW) : GlobalRequest :=
  {| template_document := documentPayload templateSow;
     new_document := documentPayload newSow |}.

(** The [try] block. *)
Definition tryAnalyzeGlobal (svc : GlobalService) (templateSow newSow : ParsedSOW)
  : Exn GlobalAnalysis :=
  let* _ := getGlobalClient svc in
  let* content := createGlobal svc (globalRequest templateSow newSow) in
  let* text :=
    match content with
    | Some c => if nonEmpty c then ret c else throw "No response content from Azure OpenAI"
    | None => throw "No response content from Azure OpenAI"
    end in
  let* parsed := parseGlobal svc text in
  ret {| scopeChange := scope_change parsed;
         scopeChangeDescription := scope_change_description parsed;
         totalValueChange := total_value_change parsed;
         timelineChanges := timeline_changes parsed;
         criticalRedFlags := default [] (critical_red_flags parsed);
         summary := reply_summary parsed |}.

Definition RATE_LIMIT_SUMMARY : string :=
  "Global analysis skipped due to API rate limiting. Please wait a moment and try again.".
Definition TIMEOUT_SUMMARY : string :=
  "Global analysis timed out. The documents may be too large for analysis.".
Definition AUTH_SUMMARY : string :=
  "Global analysis failed due to authentication issues. Please check API credentials.".

Definition isRateLimit (errorMessage : string) : bool :=
  includes errorMessage "429" || includes (toLowerCase errorMessage) "rate".
Definition isTimeout (errorMessage : string) : bool :=
  includes (toLowerCase errorMessage) "timeout" || includes errorMessage "ETIMEDOUT".
Definition isAuth (errorMessage : string) : bool :=
  includes errorMessage "401" || includes errorMessage "403"
  || includes (toLowerCase errorMessage) "auth".

(** The summary computed in the [catch] block from the message of the
    error. *)
Definition failureSummary (errorMessage : string) : string :=
  if isRateLimit errorMessage then RATE_LIMIT_SUMMARY
  else if isTimeout errorMessage then TIMEOUT_SUMMARY
  else if isAuth errorMessage then AUTH_SUMMARY
  else "Global analysis encountered an error: " ++ substring0 100 errorMessage.

Definition analyzeGlobal (svc : GlobalService) (templateSow newSow : ParsedSOW)
  : GlobalAnalysis :=
  match tryAnalyzeGlobal svc templateSow newSow with
  | inr analysis => analysis
  | inl errorMessage =>
      {| scopeChange := Some "unchanged";
         scopeChangeDescription := None;
         totalValueChange := None;
         timelineChanges := None;
         criticalRedFlags := [];
         summary := Some (failureSummary errorMessage) |}
  end.

End OpenaiGlobal.

(** ** The export route ([src/app/api/export/route.ts]) *)

Module ExportRoute.
Import JsString.

Inductive HeadingLevel : Type := HEADING_1 | HEADING_2 | HEADING_3.

(** The options [sectionToDocxParagraphs] passes to [new Paragraph], with
    those of the one [TextRun] of the paragraph. *)
Record Paragraph : Type := {
  heading : option HeadingLevel;
  text : string;
  bold : bool;
  spacingAfter : option nat
}.

(** [s.split("\n\n")] on characters: the separator is looked for from left
    to right, and the search resumes after each occurrence. [acc] holds the
    characters of the piece under way, last one first. *)
Fixpoint splitLFLF (acc : list ascii) (l : list ascii) : list (list ascii) :=
  match l with
  | [] => [rev acc]
  | a :: t =>
      match t with
      | b :: l' =>
          if eqc a LF && eqc b LF then rev acc :: splitLFLF [] l'
          else splitLFLF (a :: acc) t
      | [] => [rev (a :: acc)]
      end
  end.

Definition split_LFLF (s : string) : list string := map str (splitLFLF [] (chars s)).

(** A string that may be missing is truthy when it is there and not empty. *)
Definition truthy (o : option string) : bool :=
  match o with
  | Some s => nonEmpty s
  | None => false
  end.

(** [section.level === 1 ? HEADING_1 : section.level === 2 ? HEADING_2 : HEADING_3] *)
Definition headingLevel (section : Sec.t) : HeadingLevel :=
  match Sec.level section with
  | 1 => HEADING_1
  | 2 => HEADING_2
  | _ => HEADING_3
  end.

(** [`${section.number ? section.number + ". " : ""}${section.title || ""}`] *)
Definition headingText (section : Sec.t) : string :=
  (if truthy (Sec.number section) then default "" (Sec.number section) ++ ". " else "")
  ++ (if truthy (Sec.title section) then default "" (Sec.title section) else "").

(** The loop over [body.split("\n\n")]. *)
Definition bodyParagraphs (body : string) : list Paragraph :=
  map (fun para => {| heading := None; text := trim para; bold := false;
                      spacingAfter := Some 200 |})
    (List.filter (fun para => nonEmpty (trim para)) (split_LFLF body)).

(** [editedBody] is [None] when the argument is left out. *)
Definition sectionToDocxParagraphs (section : Sec.t) (editedBody : option string)
  : list Paragraph :=
  let body := if truthy editedBody then default "" editedBody else Sec.body section in
  let headingParagraphs :=
    if truthy (Sec.title section) || truthy (Sec.number section)
    then [{| heading := Some (headingLevel section); text := headingText section;
             bold := true; spacingAfter := None |}]
    else [] in
  headingParagraphs ++ bodyParagraphs body.

End ExportRoute.

(* ===================================================================== *)
(** * Part II.  Specification-side definitions and example data           *)
(* ===================================================================== *)

(** ** Similarity: the exact percentage and the example strings *)

Module SimilaritySpec.
Import JsString DiffUtils.

(** The token set of a string: [new Set(words)]. *)
Definition tokens (s : string) : gset string := list_to_set (words s).

(** The percentage the specification names, computed without intermediate
    rounding: the integer nearest to [100 * m / u], a tie going up. *)
Definition exactPercent (m u : nat) : Z :=
  Qfloor (100 * inject_Z (Z.of_nat m) / inject_Z (Z.of_nat u) + (1 # 2))%Q.

(** Forty distinct tokens, and the first twenty-three of them. *)
Definition fortyTokens : string :=
  "t01 t02 t03 t04 t05 t06 t07 t08 t09 t10 t11 t12 t13 t14 t15 t16 t17 t18 t19 t20 t21 t22 t23 t24 t25 t26 t27 t28 t29 t30 t31 t32 t33 t34 t35 t36 t37 t38 t39 t40".
Definition twentyThreeTokens : string :=
  "t01 t02 t03 t04 t05 t06 t07 t08 t09 t10 t11 t12 t13 t14 t15 t16 t17 t18 t19 t20 t21 t22 t23".

End SimilaritySpec.

(** ** Alignment: the greedy alignment of the specification *)

Module AlignerSpec.

(** The alignment the specification describes: each draft section, in
    document order, takes the best-scoring template section not yet
    claimed, provided its score reaches the floor. An entry is the draft
    section, its match and the recorded score. *)
Definition considerWith (score : Sec.t -> Sec.t -> Q) (used : gset string) (d : Sec.t)
  (best : option Sec.t * Q) (t : Sec.t) : option Sec.t * Q :=
  if bool_decide (Sec.id t ∈ used) then best
  else
    let s := score d t in
    if IEEE.gt s (snd best) then (Some t, s) else best.

Definition bestWith (score : Sec.t -> Sec.t -> Q) (used : gset string) (T : list Sec.t)
  (d : Sec.t) : option Sec.t * Q :=
  fold_left (considerWith score used d) T (None, 0%Q).

Abbreviation entry := (Sec.t * option Sec.t * Q)%type.

Fixpoint align (score : Sec.t -> Sec.t -> Q) (floor : Q) (T : list Sec.t)
  (used : gset string) (ds : list Sec.t) : list entry :=
  match ds with
  | [] => []
  | d :: ds' =>
      match bestWith score used T d with
      | (Some t, bs) =>
          if IEEE.ge bs floor
          then (d, Some t, bs) :: align score floor T ({[Sec.id t]} ∪ used) ds'
          else (d, None, 0%Q) :: align score floor T used ds'
      | (None, _) => (d, None, 0%Q) :: align score floor T used ds'
      end
  end.

(** The template identifiers claimed by a list of entries. *)
Definition claimed (es : list entry) : gset string :=
  list_to_set (omap (fun e : entry => Sec.id <$> snd (fst e)) es).

(** What the inner loop has found after a list of template sections. *)
Definition bestOf (score : Sec.t -> Sec.t -> Q) (used : gset string) (d : Sec.t)
  (T : list Sec.t) (best : option Sec.t * Q) : Prop :=
  match fst best with
  | None =>
      snd best = 0%Q
      /\ forall t, t ∈ T -> Sec.id t ∉ used -> (score d t <= 0)%Q
  | Some t =>
      (t ∈ T) /\ (Sec.id t ∉ used) /\ snd best = score d t /\ (0 < snd best)%Q
      /\ forall t', t' ∈ T -> Sec.id t' ∉ used -> (score d t' <= snd best)%Q
  end.


Definition pairEntry (p : ComparisonView.SectionPair) : entry :=
  (ComparisonView.draftSection p, ComparisonView.templateSection p,
   ComparisonView.matchScore p).

Definition matchEntry (m : ReviewDashboard.SectionMatch) : Sec.t * option Sec.t :=
  (ReviewDashboard.draftSection m, ReviewDashboard.templateSection m).

(** The template identifiers claimed by a list of pairs, or of matches. *)
Definition claimedPairs (ps : list ComparisonView.SectionPair) : gset string :=
  claimed (map pairEntry ps).

Definition claimedMatches (ms : list ReviewDashboard.SectionMatch) : gset string :=
  list_to_set (omap (fun m => Sec.id <$> ReviewDashboard.templateSection m) ms).

Definition T1 : Sec.t :=
  Sec.mk "t1" (Some "1") (Some "Scope of Work") 1
    "The vendor shall deliver the system" None None.
Definition T2 : Sec.t :=
  Sec.mk "t2" (Some "2") (Some "Payment Terms") 1
    "Payment is due within thirty days" None None.
Definition D1 : Sec.t :=
  Sec.mk "d1" (Some "1") (Some "Scope of Work") 1
    "The vendor shall deliver the platform" None None.
Definition D2 : Sec.t :=
  Sec.mk "d2" (Some "1") (Some "Scope of Work") 1
    "The vendor shall deliver the system and the manuals" None None.
Definition D3 : Sec.t :=
  Sec.mk "d3" None (Some "Random Notes") 2 "misc" None None.



End AlignerSpec.

(** ** Segmentation: partitions and non-header paragraphs *)

Module SegmenterSpec.
Import JsString.

(** A list of bodies is a partition of a list of paragraphs when the
    bodies are the joins of consecutive groups that concatenate to it. *)
Definition partitions (bodies : list string) (paragraphs : list string) : Prop :=
  exists groups : list (list string),
    bodies = map (join LFLF) groups /\ concat groups = paragraphs.

(** *** The plain-text variant *)
(** The loop of [extractSections] starts a section at a paragraph when
    [isLikelyHeader] holds and [parseParagraphAsSection] returns a section. *)
Definition isHeaderText (para : string) : bool :=
  Nat.ltb (len para) 200
  && Regex.isSome (DocxParserText.parseParagraphAsSection "" para 0).

(** The non-header paragraphs of a paragraph list, trimmed. *)
Definition bodyParagraphsText (paragraphs : list string) : list string :=
  List.filter (fun t => nonEmpty t && negb (isHeaderText t)) (map trim paragraphs).

(** *** The HTML-aware variant *)
(** The non-header paragraphs of a paragraph list, trimmed. *)
Definition bodyParagraphsHtml (paragraphs : list string) : list string :=
  List.filter (fun t => nonEmpty t && negb (Regex.isSome (DocxParser.detectSectionHeader t)))
    (map trim paragraphs).

(** The paragraphs that the loop of [extractSectionsFromHtml] lets into a
    body, given the suppression flag and whether a section is open: a
    non-header paragraph is left out when it is the table-of-contents
    heading, when it is shaped like a table-of-contents entry while
    suppression is on, and when suppression is still on and a section is
    open. *)
Fixpoint keptParagraphs (toc hasSection : bool) (paragraphs : list string) : list string :=
  match paragraphs with
  | [] => []
  | p :: ps =>
      let t := trim p in
      if negb (nonEmpty t) then keptParagraphs toc hasSection ps
      else if DocxParser.isTocHeading t then keptParagraphs true hasSection ps
      else if toc && DocxParser.isTocEntry t then keptParagraphs toc hasSection ps
      else
        let toc' :=
          if toc && negb (DocxParser.isTocEntry t) && Nat.ltb 60 (len t) then false else toc in
        match DocxParser.detectSectionHeader t with
        | Some _ => keptParagraphs false true ps
        | None =>
            if hasSection && toc' then keptParagraphs toc' true ps
            else t :: keptParagraphs toc' true ps
        end
  end.

(** The identifiers drawn in the examples. *)
Definition exampleUuid (n : nat) : string :=
  "section-" ++ String (ascii_of_nat (48 + n)) EmptyString.

(** A document whose first section holds a table of contents. *)
Definition tocDocument : list string :=
  ["1. Scope"; "Table of Contents"; "Executive Summary.....6"; "body text"].

Definition plainDocument : list string :=
  ["Hello there"; "1. Scope"; "a b"; "c d"; "2. Two"].

End SegmenterSpec.

(** ** Section levels: the numbering tokens and the level in words *)

Module LevelSpec.
Import JsString.

(** The numbering tokens: what the first capture group of each of the
    [SECTION_PATTERNS] can hold. *)
(** [\d+(?:\.\d+)*]: digits, in groups separated by single full stops. *)
Fixpoint dottedChars (needDigit : bool) (l : list ascii) : bool :=
  match l with
  | [] => negb needDigit
  | c :: l' =>
      if isDigit c then dottedChars false l'
      else if eqc c "." && negb needDigit then dottedChars true l'
      else false
  end.
Definition isDottedNumber (tok : string) : bool := dottedChars true (chars tok).

(** [[IVXLCDM\d]+] under the [i] flag. *)
Definition isArticleToken (tok : string) : bool :=
  nonEmpty tok && forallb (fun c => Regex.oneOfi "IVXLCDM" c || isDigit c) (chars tok).

(** [[A-Z]] *)
Definition isUpperLetter (tok : string) : bool :=
  match chars tok with
  | [c] => isUpper c
  | _ => false
  end.

(** [[a-z0-9ivx]+] under the [i] flag. *)
Definition isAlphanumeric (tok : string) : bool :=
  nonEmpty tok && forallb (fun c => isLetter c || isDigit c) (chars tok).

(** The tokens of the plain-text parser (six patterns) and of the
    HTML-aware parser (three patterns). *)
Definition tokenOfText (tok : string) : bool :=
  isDottedNumber tok || DocxParserText.isRoman tok || isUpperLetter tok
  || isAlphanumeric tok || isArticleToken tok.

Definition tokenOfHtml (tok : string) : bool :=
  isDottedNumber tok || isArticleToken tok.

(** The level as the specification words it: the number of full stops plus
    one for a dotted numeric token, 1 for a roman numeral, 2 for a single
    letter, 3 for a parenthesized token, 1 otherwise. *)
Definition levelSpec (tok : string) : nat :=
  if isDottedNumber tok && Nat.ltb 0 (DocxParserText.dotCount tok)
  then DocxParserText.dotCount tok + 1
  else if DocxParserText.isRoman tok then 1
  else if DocxParserText.isSingleLetter tok then 2
  else if DocxParserText.isParenthetical tok then 3
  else 1.

End LevelSpec.

(** ** Formatting differences: what a fix holds *)

Module DifferSpec.
Import JsString FormattingAnalyzer.

(** The attributes the differ compares. *)
Inductive Attribute : Type :=
| aAlignment | aStyle | aSpacingAfter | aIndentLeft | aHeading
| aBold | aItalic | aFontSize | aFontFamily | aTableCount.

(** The compared attribute of a difference, as its description names it. *)
Definition attributeOf (d : FormattingDifference) : option Attribute :=
  let says := startsWith (description d) in
  if says "Paragraph alignment differs" then Some aAlignment
  else if says "Paragraph style differs" then Some aStyle
  else if says "Paragraph spacing after differs" then Some aSpacingAfter
  else if says "Left indentation differs" then Some aIndentLeft
  else if says "Heading level differs" then Some aHeading
  else if says "Bold formatting differs" then Some aBold
  else if says "Italic formatting differs" then Some aItalic
  else if says "Font size differs" then Some aFontSize
  else if says "Font family differs" then Some aFontFamily
  else if says "Table count differs" then Some aTableCount
  else None.

(** The type, the severity and the kind of fix that go with an attribute. *)
Definition typeOf (a : Attribute) : DifferenceType :=
  match a with
  | aAlignment => dAlignment
  | aStyle => dStyle
  | aSpacingAfter => dSpacing
  | aIndentLeft => dIndent
  | aHeading => dHeading
  | aBold | aItalic | aFontSize | aFontFamily => dFont
  | aTableCount => dTable
  end.

Definition severityOf (a : Attribute) : Severity :=
  match a with
  | aAlignment | aBold | aItalic => medium
  | aStyle | aHeading | aFontSize | aFontFamily | aTableCount => high
  | aSpacingAfter | aIndentLeft => low
  end.

Definition fixTypeOf (a : Attribute) : option FixType :=
  match a with
  | aAlignment | aSpacingAfter | aIndentLeft => Some apply_template_formatting
  | aStyle | aHeading => Some apply_template_style
  | aBold | aItalic | aFontSize | aFontFamily => Some apply_template_font
  | aTableCount => None
  end.

(** Two numbers that may be missing are different. *)
Definition differentNumber (x y : option Q) : Prop :=
  match x, y with
  | Some p, Some q => ~ (p == q)%Q
  | None, None => False
  | _, _ => True
  end.

(** A number, or a string, that is set: there, and not zero, or not empty. *)
Definition setNumber (x : option Q) : Prop := exists q, x = Some q /\ ~ (q == 0)%Q.
Definition setString (x : option string) : Prop := exists t, x = Some t /\ t <> "".

(** [tRun] and [dRun] are the runs at one position of the two paragraphs,
    and the difference quotes the text of [dRun]. *)
Definition comparedRuns (tPara dPara : RichParagraph) (d : FormattingDifference)
  (tRun dRun : RichTextRun) : Prop :=
  exists j, nth_error (runs tPara) j = Some tRun /\ nth_error (runs dPara) j = Some dRun
            /\ textSnippet (location d) = Some (substring0 50 (runText dRun)).

(** The compared values of an attribute differ between the two paragraphs,
    or between their runs [tRun] and [dRun]. *)
Definition differsOn (a : Attribute) (tPara dPara : RichParagraph)
  (tRun dRun : RichTextRun) : Prop :=
  match a with
  | aAlignment => alignment (formatting tPara) <> alignment (formatting dPara)
  | aStyle => styleId (formatting tPara) <> styleId (formatting dPara)
  | aSpacingAfter =>
      differentNumber (spacingAfter (formatting tPara)) (spacingAfter (formatting dPara))
  | aIndentLeft =>
      differentNumber (indentLeft (formatting tPara)) (indentLeft (formatting dPara))
  | aHeading =>
      isHeading tPara <> isHeading dPara
      \/ differentNumber (headingLevel tPara) (headingLevel dPara)
  | aBold => bold (runFormatting tRun) <> bold (runFormatting dRun)
  | aItalic => italic (runFormatting tRun) <> italic (runFormatting dRun)
  | aFontSize =>
      differentNumber (fontSize (runFormatting tRun)) (fontSize (runFormatting dRun))
  | aFontFamily => fontFamily (runFormatting tRun) <> fontFamily (runFormatting dRun)
  | aTableCount => False
  end.

(** The template-side value of an attribute, as a fix holds it: the one
    compared attribute of the template paragraph or of the template run,
    and nothing else; or, for a style or a heading difference, the whole
    formatting record of the template paragraph. *)
Definition templateSide (a : Attribute) (tPara : RichParagraph) (tRun : RichTextRun)
  : option (ParagraphFormatting + TextRunFormatting) :=
  match a with
  | aAlignment => Some (inl (onlyAlignment (alignment (formatting tPara))))
  | aSpacingAfter => Some (inl (onlySpacingAfter (spacingAfter (formatting tPara))))
  | aIndentLeft => Some (inl (onlyIndentLeft (indentLeft (formatting tPara))))
  | aStyle | aHeading => Some (inl (formatting tPara))
  | aBold => Some (inr (onlyBold (bold (runFormatting tRun))))
  | aItalic => Some (inr (onlyItalic (italic (runFormatting tRun))))
  | aFontSize => Some (inr (onlyFontSize (fontSize (runFormatting tRun))))
  | aFontFamily => Some (inr (onlyFontFamily (fontFamily (runFormatting tRun))))
  | aTableCount => None
  end.

(** What the template must set for a difference on an attribute to be
    reported: nothing for alignment, bold and italic, which are compared as
    they are. *)
Definition templateSets (a : Attribute) (tPara : RichParagraph) (tRun : RichTextRun)
  : Prop :=
  match a with
  | aAlignment | aBold | aItalic => True
  | aStyle => setString (styleId (formatting tPara))
  | aSpacingAfter => setNumber (spacingAfter (formatting tPara))
  | aIndentLeft => setNumber (indentLeft (formatting tPara))
  | aHeading => isHeading tPara = Some true
  | aFontSize => setNumber (fontSize (runFormatting tRun))
  | aFontFamily => setString (fontFamily (runFormatting tRun))
  | aTableCount => False
  end.

(** An attribute of the runs. *)
Definition ofRuns (a : Attribute) : bool :=
  match a with
  | aBold | aItalic | aFontSize | aFontFamily => true
  | _ => false
  end.

(** A difference [d] was found on attribute [a] between the template
    paragraph [tPara] and the draft paragraph [dPara]: the compared values
    differ, the template sets what it must, and the fix is the template-side
    value. For an attribute of the runs this holds of two runs at one
    position, the draft one being the run that [d] quotes. *)
Definition foundOn (a : Attribute) (tPara dPara : RichParagraph)
  (d : FormattingDifference) : Prop :=
  exists tRun dRun,
    (ofRuns a = true -> comparedRuns tPara dPara d tRun dRun)
    /\ differsOn a tPara dPara tRun dRun
    /\ templateSets a tPara tRun
    /\ option_map templateFormatting (fix_ d) = templateSide a tPara tRun.

(** What holds of a difference reported at paragraph [i]. *)
Definition reportedAt (draftSection : RichSection) (i : nat) (tPara dPara : RichParagraph)
  (d : FormattingDifference) : Prop :=
  sectionId (location d) = Sec.id (section draftSection)
  /\ paragraphIndex (location d) = Some i
  /\ exists a, attributeOf d = Some a /\ a <> aTableCount
               /\ type d = typeOf a /\ severity d = severityOf a
               /\ option_map fixType (fix_ d) = fixTypeOf a
               /\ foundOn a tPara dPara d.

(** A run to stand where no run matters. *)
Definition noRun : RichTextRun := {| runText := ""; runFormatting := noRunFormatting |}.

(** The one difference that is not found at a paragraph. *)
Definition tableDifference (draftSection : RichSection) (d : FormattingDifference) : Prop :=
  attributeOf d = Some aTableCount /\ type d = dTable /\ severity d = high
  /\ fix_ d = None
  /\ location d = {| sectionId := Sec.id (section draftSection);
                     paragraphIndex := None; textSnippet := None |}.

(** The conversion of an integer to a string, in decimal. *)
Definition showInteger (q : Q) : string := NilZero.string_of_int (Z.to_int (Qfloor q)).

(** A run that sets [bold] and [fontSize] only. *)
Definition runWith (txt : string) (b : bool) (size : Q) : RichTextRun :=
  {| runText := txt;
     runFormatting :=
       {| bold := Some b; italic := None; underline := None; strike := None;
          fontSize := Some size; fontFamily := None; color := None; highlight := None |} |}.

(** A paragraph with the given formatting and runs that is not a heading. *)
Definition paragraphWith (txt : string) (pf : ParagraphFormatting) (rs : list RichTextRun)
  : RichParagraph :=
  {| paraId := "p"; text := txt; formatting := pf; runs := rs; isHeading := None;
     headingLevel := None; listLevel := None; listType := None |}.

Definition sectionWith (sid : string) (ps : option (list RichParagraph)) : RichSection :=
  {| section := Sec.mk sid (Some "1") (Some "Scope") 1 "" None None;
     paragraphs := ps; tables := Some [] |}.

(** A template paragraph in style [Heading1], centred, and a draft paragraph
    in style [Normal], centred. *)
Definition styledFormatting (sty : string) : ParagraphFormatting :=
  {| alignment := Some center; indentLeft := None; indentRight := None;
     indentFirstLine := None; spacingBefore := None; spacingAfter := None;
     lineSpacing := None; styleId := Some sty; styleName := None; outlineLevel := None |}.

Definition templateStyled : RichSection :=
  sectionWith "t1" (Some [paragraphWith "Scope" (styledFormatting "Heading1") []]).
Definition draftStyled : RichSection :=
  sectionWith "d1" (Some [paragraphWith "Scope" (styledFormatting "Normal") []]).

End DifferSpec.

(** ** Analyzer: the failures of a call *)

Module AnalyzerSpec.
Import JsString OpenaiAnalyzer.

(** The ways the [try] block fails: the client is not configured, the
    request fails in transport, the response has no content, the content
    does not parse, or the parsed object has no list of issues. *)
Inductive Failure (svc : Service) (request : Request) : Prop :=
| NotConfigured (e : string) : getClient svc = inl e -> Failure svc request
| TransportFailure (e : string) :
    getClient svc = inr tt -> create svc request = inl e -> Failure svc request
| NoContent (c : option string) :
    getClient svc = inr tt -> create svc request = inr c -> truthyStr c = false ->
    Failure svc request
| ParseFailure (c e : string) :
    getClient svc = inr tt -> create svc request = inr (Some c) -> nonEmpty c = true ->
    parse svc c = inl e -> Failure svc request
| NoIssueList (c : string) (r : Reply) :
    getClient svc = inr tt -> create svc request = inr (Some c) -> nonEmpty c = true ->
    parse svc c = inr r -> replyIssues r = None -> Failure svc request.

(** A service whose requests all fail in transport. *)
Definition downService : Service :=
  {| getClient := inr tt;
     create := fun _ => inl "ETIMEDOUT";
     parse := fun _ => inl "SyntaxError" |}.

(** A service that answers every request with text that does not parse. *)
Definition garbledService : Service :=
  {| getClient := inr tt;
     create := fun _ => inr (Some "not json");
     parse := fun _ => inl "SyntaxError" |}.

Definition sow (name : string) (ss : list Sec.t) : ParsedSOW :=
  {| sowId := name; filename := name; uploadedAt := ""; sections := ss; rawText := "";
     metadata := None |}.

End AnalyzerSpec.

(** ** Regular expressions: what a successful run stands for *)

Module RegexSpec.
Import JsString Regex.

(** [Matches r pre rest caps caps']: the expression [r] matches the text
    [pre] when [rest] follows it, and turns the captures [caps] into
    [caps']. An iteration of [Star] consumes at least one character. *)
Inductive Matches : regex -> list ascii -> list ascii -> captures -> captures -> Prop :=
| MEps rest c : Matches Eps [] rest c c
| MChr p a rest c : p a = true -> Matches (Chr p) [a] rest c c
| MSeq r1 r2 p1 p2 rest c0 c1 c2 :
    Matches r1 p1 (p2 ++ rest) c0 c1 -> Matches r2 p2 rest c1 c2 ->
    Matches (Seq r1 r2) (p1 ++ p2) rest c0 c2
| MAltL r1 r2 pre rest c c' : Matches r1 pre rest c c' -> Matches (Alt r1 r2) pre rest c c'
| MAltR r1 r2 pre rest c c' : Matches r2 pre rest c c' -> Matches (Alt r1 r2) pre rest c c'
| MStarO r rest c : Matches (Star r) [] rest c c
| MStarS r p1 p2 rest c0 c1 c2 :
    p1 <> [] -> Matches r p1 (p2 ++ rest) c0 c1 -> Matches (Star r) p2 rest c1 c2 ->
    Matches (Star r) (p1 ++ p2) rest c0 c2
| MGroup n r pre rest c c' :
    Matches r pre rest c c' -> Matches (Group n r) pre rest c ((n, pre) :: c')
| MEoi c : Matches Eoi [] [] c c.

(** An expression without capturing groups. *)
Fixpoint groupless (r : regex) : bool :=
  match r with
  | Eps | Chr _ | Eoi => true
  | Seq r1 r2 | Alt r1 r2 => groupless r1 && groupless r2
  | Star r' => groupless r'
  | Group _ _ => false
  end.

End RegexSpec.

(** ** Sections: identifiers, index ranges and well-formed headers *)

Module SectionSpec.
Import JsString LevelSpec.

(** The index ranges [startIndex .. endIndex] of a list of sections tile
    the interval from [lo] up to, not including, [hi]: each range is not
    empty and starts where the previous one ended. *)
Fixpoint tiled (lo hi : Z) (R : list Sec.t) : Prop :=
  match R with
  | [] => lo = hi
  | s :: R' =>
      exists b, Sec.startIndex s = Some lo /\ Sec.endIndex s = Some b
                /\ (lo <= b)%Z /\ tiled (b + 1) hi R'
  end.

(** What the header fields of a section of the plain-text parser satisfy. *)
Definition wellFormedText (s : Sec.t) : Prop :=
  (forall n, Sec.number s = Some n -> tokenOfText n = true)
  /\ Sec.level s = DocxParserText.calculateSectionLevel (Sec.number s)
  /\ (forall t, Sec.title s = Some t -> nonEmpty t = true).

(** What the header fields of a section of the HTML-aware parser satisfy. *)
Definition wellFormedHtml (s : Sec.t) : Prop :=
  (forall n, Sec.number s = Some n -> tokenOfHtml n = true)
  /\ Sec.level s = DocxParser.calculateSectionLevel (Sec.number s)
  /\ (exists t, Sec.title s = Some t /\ nonEmpty t = true).

(** An identifier generator that never repeats itself. *)
Definition distinctUuid (n : nat) : string := str (repeat "x"%char (S n)).

(** The identifier of the section under way, if there is one. *)
Definition openId (cur : option Sec.t) : list string :=
  match cur with
  | Some c => [Sec.id c]
  | None => []
  end.

(** The invariant of the plain-text loop. With [a] the start of the open
    section, the closed sections tile the paragraphs before [a]; the
    identifiers drawn so far are those of the closed sections followed by
    that of the open one; and every header is well formed. *)
Definition textInv (uuidv4 : nat -> string) (st : DocxParserText.Loop) : Prop :=
  map Sec.id (DocxParserText.sections st) ++ openId (DocxParserText.currentSection st)
  = map uuidv4 (seq 0 (DocxParserText.fresh st))
  /\ Forall wellFormedText (DocxParserText.sections st)
  /\ match DocxParserText.currentSection st with
     | Some c =>
         wellFormedText c
         /\ exists a, Sec.startIndex c = Some (Z.of_nat a) /\ a < DocxParserText.i st
                      /\ tiled 0 (Z.of_nat a) (DocxParserText.sections st)
     | None => DocxParserText.sections st = [] /\ DocxParserText.i st = 0
     end.

(** The invariant of the HTML-aware loop. *)
Definition htmlInv (uuidv4 : nat -> string) (st : DocxParser.Loop) : Prop :=
  map Sec.id (DocxParser.sections st) ++ openId (DocxParser.currentSection st)
  = map uuidv4 (seq 0 (DocxParser.fresh st))
  /\ Forall wellFormedHtml (DocxParser.sections st)
  /\ (forall k s, DocxParser.sections st !! k = Some s ->
        Sec.startIndex s = Some (Z.of_nat k) /\ Sec.endIndex s = None)
  /\ match DocxParser.currentSection st with
     | Some c =>
         wellFormedHtml c
         /\ Sec.startIndex c = Some (Z.of_nat (length (DocxParser.sections st)))
         /\ Sec.endIndex c = None
     | None => DocxParser.sections st = []
     end.

End SectionSpec.

(** ** Matching: the first best candidate *)

Module MatcherSpec.
Import AlignerSpec.

(** [t], at position [i] of [T], is the first best candidate for [d] among
    the template sections whose identifier is not in [u]: its score is
    positive, no such section scores higher, and every such section before
    it scores lower. *)
Definition firstBest (score : Sec.t -> Sec.t -> Q) (T : list Sec.t) (u : gset string)
  (d t : Sec.t) (i : nat) : Prop :=
  T !! i = Some t /\ (Sec.id t ∉ u) /\ (0 < score d t)%Q
  /\ (forall t', t' ∈ T -> Sec.id t' ∉ u -> (score d t' <= score d t)%Q)
  /\ (forall j t', j < i -> T !! j = Some t' -> Sec.id t' ∉ u -> (score d t' < score d t)%Q).

(** Template sections for the examples: two sections that share nothing
    with the draft section but the level. *)
Definition TA : Sec.t := Sec.mk "ta" (Some "7") (Some "Governance") 1 "" None None.
Definition TB : Sec.t := Sec.mk "tb" (Some "8") (Some "Warranty") 1 "" None None.
Definition DA : Sec.t := Sec.mk "da" (Some "1") (Some "Scope") 1 "" None None.
Definition DB : Sec.t := Sec.mk "db" None None 2 "" None None.

(** The template sections of the matched entries. *)
Definition matchedOf (es : list entry) : list Sec.t := omap (fun e : entry => snd (fst e)) es.

End MatcherSpec.

(** ** Formatting differences: shape and provenance *)

Module DifferShape.
Import JsString FormattingAnalyzer.

(** A section with its paragraph list replaced. *)
Definition withParagraphs (s : RichSection) (ps : list RichParagraph) : RichSection :=
  {| section := section s; paragraphs := Some ps; tables := tables s |}.

(** A template paragraph that sets nothing but its alignment, with one run
    that sets nothing, and a draft paragraph in style [Normal], spaced and
    indented, with one run in 14 point Arial. *)
Definition bareParagraph : RichParagraph :=
  {| paraId := "t"; text := "Scope"; formatting := onlyAlignment (Some left);
     runs := [{| runText := "Scope"; runFormatting := noRunFormatting |}];
     isHeading := None; headingLevel := None; listLevel := None; listType := None |}.

Definition dressedParagraph : RichParagraph :=
  {| paraId := "d"; text := "Scope";
     formatting :=
       {| alignment := Some left; indentLeft := Some 720%Q; indentRight := None;
          indentFirstLine := None; spacingBefore := None; spacingAfter := Some 200%Q;
          lineSpacing := None; styleId := Some "Normal"; styleName := None;
          outlineLevel := None |};
     runs := [{| runText := "Scope";
                 runFormatting :=
                   {| bold := None; italic := None; underline := None; strike := None;
                      fontSize := Some 14%Q; fontFamily := Some "Arial"; color := None;
                      highlight := None |} |}];
     isHeading := Some true; headingLevel := Some 1%Q; listLevel := None; listType := None |}.

Definition sectionOf (sid : string) (ps : list RichParagraph) : RichSection :=
  {| section := Sec.mk sid (Some "1") (Some "Scope") 1 "" None None;
     paragraphs := Some ps; tables := Some [] |}.

End DifferShape.

(** ** Analyzer: failures of the document-level call *)

Module GlobalSpec.
Import JsString OpenaiAnalyzer OpenaiGlobal.

(** The document-level call fails with the message [e]. *)
Inductive GlobalFailure (svc : GlobalService) (request : GlobalRequest) (e : string) : Prop :=
| GNotConfigured : getGlobalClient svc = inl e -> GlobalFailure svc request e
| GTransport :
    getGlobalClient svc = inr tt -> createGlobal svc request = inl e ->
    GlobalFailure svc request e
| GNoContent (c : option string) :
    getGlobalClient svc = inr tt -> createGlobal svc request = inr c ->
    truthyStr c = false -> e = "No response content from Azure OpenAI" ->
    GlobalFailure svc request e
| GParse (c : string) :
    getGlobalClient svc = inr tt -> createGlobal svc request = inr (Some c) ->
    nonEmpty c = true -> parseGlobal svc c = inl e -> GlobalFailure svc request e.

(** A service whose requests fail with the given message. *)
Definition failingWith (e : string) : GlobalService :=
  {| getGlobalClient := inr tt;
     createGlobal := fun _ => inl e;
     parseGlobal := fun _ => inl "SyntaxError" |}.

(** A service that reports one issue of high severity for every section. *)
Definition reportingService : Service :=
  {| getClient := inr tt;
     create := fun _ => inr (Some "{}");
     parse := fun _ =>
       inr {| severity_overall := high;
              replyIssues :=
                Some [{| riType := "vague_language"; riSeverity := high;
                         riDescription := "unclear"; old_text_snippet := None;
                         new_text_snippet := None; riSuggestedRevision := None;
                         riCategory := "language_clarity" |}];
              suggested_revision := None;
              notes_for_legal_review := None |} |}.

(** The analysis of one draft section, as the section loop computes it. *)
Definition analysisOf (svc : Service) (uuidv4 : nat -> nat -> string)
  (templateSow newSow : ParsedSOW) (ns : nat * Sec.t) : SectionAnalysis :=
  analyzeSectionPair svc (uuidv4 (fst ns))
    (findTemplate (sections templateSow)
       (DocxParser.matchSections (sections templateSow) (sections newSow) !! Sec.id (snd ns)))
    (snd ns)
    {| projectName := match metadata newSow with
                      | Some m => metaTitle m
                      | None => None
                      end;
       contextCompany := Some "Company" |}.

End GlobalSpec.

(** ** Exported documents *)

Module ExportSpec.
Import JsString ExportRoute.

(** The texts of the paragraphs of an exported document that are not
    headings, in order. *)
Definition bodyTexts (ps : list Paragraph) : list string :=
  map text (List.filter (fun p => negb (Regex.isSome (heading p))) ps).

(** The headings of an exported document, in order. *)
Definition headings (ps : list Paragraph) : list Paragraph :=
  List.filter (fun p => Regex.isSome (heading p)) ps.

(** A string of white space only, and not empty. *)
Definition blank (s : string) : bool := nonEmpty s && forallb isSpace (chars s).

Definition noLF (l : list ascii) : bool := forallb (fun c => negb (eqc c LF)) l.

(** What a paragraph must satisfy to come back from an exported body. *)
Definition plainParagraph (p : string) : Prop :=
  noLF (chars p) = true /\ trim p = p /\ nonEmpty p = true.

(** A list is clean when it does not start with white space. *)
Definition clean (l : list ascii) : Prop :=
  match l with
  | [] => True
  | c :: _ => isSpace c = false
  end.

Definition exampleSection : Sec.t :=
  Sec.mk "s1" (Some "1") (Some "Scope") 1 ("First paragraph" ++ LFLF ++ "Second one")
    (Some 0%Z) (Some 2%Z).

End ExportSpec.

(* ===================================================================== *)
(** * Part III.  Properties                                               *)
(* ===================================================================== *)

(** ** Binary64 rounding *)

Module IEEEFacts.
Import IEEE.
Local Open Scope Q_scope.

Lemma pow2_pos e : 0 < pow2 e.
Proof. apply Qpower_0_lt. reflexivity. Qed.

Lemma pow2_plus a b : pow2 (a + b) == pow2 a * pow2 b.
Proof. apply Qpower_plus. discriminate. Qed.

Lemma pow2_le a b : (a <= b)%Z -> pow2 a <= pow2 b.
Proof. intros H. apply Qpower_le_compat_l; [exact H | discriminate]. Qed.

Lemma pow2_lt_inv a b : pow2 a < pow2 b -> (a < b)%Z.
Proof.
  intros H. destruct (Z_lt_le_dec a b) as [Hl | Hl]; [exact Hl |].
  apply pow2_le in Hl. lra.
Qed.

Lemma pow2_inject n : (0 <= n)%Z -> inject_Z (2 ^ n) == pow2 n.
Proof. intros H. unfold pow2. rewrite Zpower_Qpower by exact H. reflexivity. Qed.

Lemma inject_Z_log2 n :
  (0 < n)%Z -> pow2 (Z.log2 n) <= inject_Z n /\ inject_Z n < pow2 (Z.log2 n + 1).
Proof.
  intros Hn. destruct (Z.log2_spec n Hn) as [H1 H2].
  pose proof (Z.log2_nonneg n) as H0.
  rewrite <- !pow2_inject by lia.
  split; [rewrite <- Zle_Qle | rewrite <- Zlt_Qlt]; [exact H1 | exact H2].
Qed.

(** [binade] is the integer part of the binary logarithm. *)
Lemma binade_spec x :
  0 < x -> pow2 (binade x) <= x /\ x < pow2 (binade x + 1).
Proof.
  destruct x as [a b]. intros Hx.
  assert (Ha : (0 < a)%Z).
  { unfold Qlt in Hx. simpl in Hx. lia. }
  unfold binade. cbn [Qnum Qden].
  set (la := Z.log2 a). set (lb := Z.log2 (Z.pos b)).
  destruct (inject_Z_log2 a Ha) as [A1 A2]. fold la in A1, A2.
  destruct (inject_Z_log2 (Z.pos b) eq_refl) as [B1 B2]. fold lb in B1, B2.
  pose proof (Qmake_Qdiv a b) as Hdiv.
  assert (HB : 0 < inject_Z (Z.pos b)) by reflexivity.
  assert (Hup : a # b < pow2 (la - lb + 1)).
  { rewrite Hdiv. apply Qlt_shift_div_r; [exact HB |].
    assert (E : pow2 (la + 1) == pow2 (la - lb + 1) * pow2 lb).
    { rewrite <- pow2_plus. f_equiv. lia. }
    pose proof (pow2_pos (la - lb + 1)). nra. }
  assert (Hlo : pow2 (la - lb - 1) <= a # b).
  { rewrite Hdiv. apply Qle_shift_div_l; [exact HB |].
    assert (E : pow2 la == pow2 (la - lb - 1) * pow2 (lb + 1)).
    { rewrite <- pow2_plus. f_equiv. lia. }
    pose proof (pow2_pos (la - lb - 1)). nra. }
  destruct (Qle_bool (pow2 (la - lb)) (a # b)) eqn:Hc.
  - apply Qle_bool_iff in Hc. split; [exact Hc | exact Hup].
  - split; [exact Hlo |].
    replace (la - lb - 1 + 1)%Z with (la - lb)%Z by lia.
    apply Qnot_le_lt. intros Hle. apply Qle_bool_iff in Hle. congruence.
Qed.

Lemma binade_unique x e :
  0 < x -> pow2 e <= x -> x < pow2 (e + 1) -> binade x = e.
Proof.
  intros Hx H1 H2. destruct (binade_spec x Hx) as [S1 S2].
  assert (L1 : (e < binade x + 1)%Z) by (apply pow2_lt_inv; lra).
  assert (L2 : (binade x < e + 1)%Z) by (apply pow2_lt_inv; lra).
  lia.
Qed.

Lemma binade_comp x y : 0 < x -> x == y -> binade x = binade y.
Proof.
  intros Hx E. symmetry. destruct (binade_spec x Hx) as [S1 S2].
  apply binade_unique; rewrite <- E; assumption.
Qed.

Lemma rne_comp x y : x == y -> rne x = rne y.
Proof.
  intros E. unfold rne. rewrite (Qfloor_comp _ _ E).
  assert (E' : x - inject_Z (Qfloor y) == y - inject_Z (Qfloor y)) by (rewrite E; reflexivity).
  rewrite (Qcompare_comp _ _ E' _ _ (Qeq_refl _)). reflexivity.
Qed.

Lemma rne_cases t :
  rne t = Qfloor t \/ (rne t = (Qfloor t + 1)%Z /\ inject_Z (Qfloor t) < t).
Proof.
  unfold rne. destruct (Qcompare_spec (t - inject_Z (Qfloor t)) (1 # 2)) as [E | L | G].
  - destruct (Z.even (Qfloor t)); [left; reflexivity | right; split; [reflexivity | lra]].
  - left; reflexivity.
  - right; split; [reflexivity | lra].
Qed.

Lemma rne_le_int t M : t <= inject_Z M -> (rne t <= M)%Z.
Proof.
  intros H. pose proof (Qfloor_le t) as F.
  assert (FM : (Qfloor t <= M)%Z) by (rewrite Zle_Qle; lra).
  destruct (rne_cases t) as [-> | [-> L]]; [exact FM |].
  assert (LM : (Qfloor t < M)%Z) by (rewrite Zlt_Qlt; lra).
  lia.
Qed.

Lemma rne_ge_int t M : inject_Z M <= t -> (M <= rne t)%Z.
Proof.
  intros H. pose proof (Qlt_floor t) as F.
  assert (FM : (M < Qfloor t + 1)%Z) by (rewrite Zlt_Qlt; lra).
  destruct (rne_cases t) as [-> | [-> L]]; lia.
Qed.

Lemma round_pos_comp x y : 0 < x -> x == y -> round_pos x = round_pos y.
Proof.
  intros Hx E. unfold round_pos. rewrite <- (binade_comp x y Hx E).
  apply Qred_complete.
  rewrite (rne_comp (x * pow2 (52 - binade x)) (y * pow2 (52 - binade x))).
  - reflexivity.
  - apply Qmult_comp; [exact E | reflexivity].
Qed.

Lemma round_pos_nonneg x : 0 < x -> 0 <= round_pos x.
Proof.
  intros Hx. unfold round_pos. rewrite Qred_correct.
  pose proof (pow2_pos (52 - binade x)). pose proof (pow2_pos (binade x - 52)).
  assert (R : (0 <= rne (x * pow2 (52 - binade x)))%Z).
  { apply rne_ge_int. change (inject_Z 0) with 0. nra. }
  rewrite Zle_Qle in R. change (inject_Z 0) with 0 in R. nra.
Qed.

(** Rounding never crosses a binary64 value [M * 2^E] that lies above. *)
Lemma round_pos_le x M E :
  0 < x -> (2 ^ 52 <= M < 2 ^ 53)%Z -> x <= inject_Z M * pow2 E ->
  round_pos x <= inject_Z M * pow2 E.
Proof.
  intros Hx [M1 M2] Hle. unfold round_pos. rewrite Qred_correct.
  destruct (binade_spec x Hx) as [S1 S2]. set (e := binade x) in *.
  pose proof (pow2_pos E) as PE. pose proof (pow2_pos (52 - e)) as P1.
  pose proof (pow2_pos (e - 52)) as P2.
  assert (I1 : pow2 52 <= inject_Z M).
  { rewrite <- pow2_inject by lia. rewrite <- Zle_Qle. exact M1. }
  assert (I2 : inject_Z M < pow2 53).
  { rewrite <- pow2_inject by lia. rewrite <- Zlt_Qlt. exact M2. }
  assert (Elt : (e < E + 53)%Z).
  { apply pow2_lt_inv. rewrite (pow2_plus E 53).
    apply Qle_lt_trans with x; [exact S1 |].
    apply Qle_lt_trans with (inject_Z M * pow2 E); [exact Hle | nra]. }
  destruct (Z.eq_dec e (E + 52)%Z) as [He | He].
  - assert (T : x * pow2 (52 - e) <= inject_Z M).
    { assert (EE : pow2 E * pow2 (52 - e) == 1).
      { rewrite <- pow2_plus. replace (E + (52 - e))%Z with 0%Z by lia. reflexivity. }
      assert (x * pow2 (52 - e) <= inject_Z M * pow2 E * pow2 (52 - e)) by nra.
      assert (inject_Z M * pow2 E * pow2 (52 - e) == inject_Z M).
      { rewrite <- Qmult_assoc, EE. ring. }
      lra. }
    apply rne_le_int in T. rewrite Zle_Qle in T.
    replace (e - 52)%Z with E by lia. nra.
  - assert (T : x * pow2 (52 - e) <= inject_Z (2 ^ 53)).
    { rewrite pow2_inject by lia.
      assert (EE : pow2 (e + 1) * pow2 (52 - e) == pow2 53).
      { rewrite <- pow2_plus. f_equiv. lia. }
      nra. }
    apply rne_le_int in T. rewrite Zle_Qle in T. rewrite pow2_inject in T by lia.
    assert (EE : pow2 53 * pow2 (e - 52) == pow2 (e + 1)).
    { rewrite <- pow2_plus. f_equiv. lia. }
    assert (LL : pow2 (e + 1) <= pow2 (E + 52)) by (apply pow2_le; lia).
    rewrite (pow2_plus E 52) in LL.
    set (r := inject_Z (rne (x * pow2 (52 - e)))) in *.
    assert (r * pow2 (e - 52) <= pow2 53 * pow2 (e - 52)) by nra.
    nra.
Qed.

Lemma round53_bounds x M E :
  0 <= x -> (2 ^ 52 <= M < 2 ^ 53)%Z -> x <= inject_Z M * pow2 E ->
  0 <= round53 x /\ round53 x <= inject_Z M * pow2 E.
Proof.
  intros Hx HM Hle. unfold round53. destruct x as [a b]. cbn [Qnum].
  destruct a as [| p | p].
  - split; [lra |]. pose proof (pow2_pos E).
    assert (0 < inject_Z M).
    { replace 0 with (inject_Z 0) by reflexivity. rewrite <- Zlt_Qlt. lia. }
    nra.
  - assert (Hp : 0 < Z.pos p # b) by reflexivity.
    split; [apply round_pos_nonneg | apply round_pos_le]; assumption.
  - exfalso. unfold Qle in Hx. simpl in Hx. lia.
Qed.

Lemma round53_comp x y : x == y -> round53 x = round53 y.
Proof.
  intros E. unfold round53. destruct x as [a b], y as [c d]. cbn [Qnum].
  unfold Qeq in E. cbn [Qnum Qden] in E.
  destruct a as [| p | p], c as [| q | q]; try reflexivity; try (exfalso; lia).
  - apply round_pos_comp; [reflexivity | exact E].
  - f_equal. apply round_pos_comp; [reflexivity |].
    unfold Qeq. cbn. lia.
Qed.

(** A quotient of naturals [m <= u] rounds into [0, 1], and its product
    with 100 into [0, 100]. *)
Lemma fdiv_unit_interval (m u : nat) :
  (m <= u)%nat -> (0 < u)%nat ->
  0 <= fdiv (inject_Z (Z.of_nat m)) (inject_Z (Z.of_nat u)) <= 1.
Proof.
  intros Hmu Hu. unfold fdiv.
  set (x := inject_Z (Z.of_nat m) / inject_Z (Z.of_nat u)).
  assert (U : 0 < inject_Z (Z.of_nat u)).
  { replace 0 with (inject_Z 0) by reflexivity. rewrite <- Zlt_Qlt. lia. }
  assert (X0 : 0 <= x).
  { unfold x. apply Qle_shift_div_l; [exact U |].
    replace (0 * inject_Z (Z.of_nat u)) with (inject_Z 0 * inject_Z (Z.of_nat u)) by reflexivity.
    rewrite <- inject_Z_mult, <- Zle_Qle. lia. }
  assert (X1 : x <= 1).
  { unfold x. apply Qle_shift_div_r; [exact U |].
    rewrite Qmult_1_l, <- Zle_Qle. lia. }
  assert (E : inject_Z (2 ^ 52) * pow2 (-52) == 1) by reflexivity.
  destruct (round53_bounds x (2 ^ 52) (-52) X0) as [B0 B1].
  - lia.
  - lra.
  - split; [exact B0 | lra].
Qed.

Lemma fmul_100_bounds q : 0 <= q <= 1 -> 0 <= fmul q 100 <= 100.
Proof.
  intros [Q0 Q1]. unfold fmul.
  assert (E : inject_Z (100 * 2 ^ 46) * pow2 (-46) == 100) by reflexivity.
  destruct (round53_bounds (q * 100) (100 * 2 ^ 46) (-46)) as [B0 B1].
  - nra.
  - lia.
  - lra.
  - split; [exact B0 | lra].
Qed.

Lemma Math_round_bounds p : 0 <= p <= 100 -> (0 <= Math_round p <= 100)%Z.
Proof.
  intros [P0 P1]. unfold Math_round. split.
  - change 0%Z with (Qfloor (1 # 2)). apply Qfloor_resp_le. lra.
  - change 100%Z with (Qfloor (100 + (1 # 2))). apply Qfloor_resp_le. lra.
Qed.

Lemma fdiv_self (u : nat) :
  (0 < u)%nat -> fdiv (inject_Z (Z.of_nat u)) (inject_Z (Z.of_nat u)) = 1.
Proof.
  intros Hu. unfold fdiv.
  assert (U : ~ inject_Z (Z.of_nat u) == 0).
  { intros E. unfold Qeq in E. simpl in E. lia. }
  rewrite (round53_comp _ 1); [reflexivity |].
  field. exact U.
Qed.

End IEEEFacts.

(** The rounding model agrees with the hardware arithmetic on every ratio
    [m / u] and product [(m / u) * 100] with [m <= 40] and [1 <= u <= 40]. *)
Lemma binary64_ratio_agrees :
  forallb Binary64Check.check_ratio (Binary64Check.grid 40) = true.
Proof. vm_compute. reflexivity. Qed.

(** ... and on every score [50 + a * 0.8 + b * 0.2 + 10] with [a <= 30] and
    [1 <= b <= 30]. *)
Lemma binary64_score_agrees :
  forallb Binary64Check.check_score (Binary64Check.grid 30) = true.
Proof. vm_compute. reflexivity. Qed.

(** ** Token-set similarity *)

Module SimilarityFacts.
Import JsString DiffUtils SimilaritySpec.

Lemma countMatches_size (A B : gset string) : countMatches A B = size (A ∩ B).
Proof.
  unfold countMatches, size, set_size. simpl.
  apply Permutation_length, NoDup_Permutation.
  - apply NoDup_filter, NoDup_elements.
  - apply NoDup_elements.
  - intros x. rewrite list_elem_of_filter, !elem_of_elements. set_solver.
Qed.

Lemma unionSize_size (A B : gset string) : unionSize A B = size (A ∪ B).
Proof.
  unfold unionSize. rewrite list_to_set_app_L, !list_to_set_elements_L. reflexivity.
Qed.

Lemma tokens_nonempty (s : string) :
  Nat.eqb (length (words s)) 0 = false -> 0 < size (tokens s).
Proof.
  intros H. apply Nat.eqb_neq in H.
  destruct (words s) as [| w l] eqn:E; [contradiction |].
  assert (Hw : w ∈ tokens s).
  { unfold tokens. rewrite E. set_solver. }
  destruct (size (tokens s)) eqn:Es; [| lia].
  apply size_empty_inv in Es. set_solver.
Qed.

Lemma percent_range (m u : nat) : m <= u -> 0 < u -> (0 <= percent m u <= 100)%Z.
Proof.
  intros Hmu Hu. unfold percent.
  apply IEEEFacts.Math_round_bounds, IEEEFacts.fmul_100_bounds, IEEEFacts.fdiv_unit_interval;
    assumption.
Qed.

Lemma percent_full (u : nat) : 0 < u -> percent u u = 100%Z.
Proof.
  intros Hu. unfold percent. rewrite IEEEFacts.fdiv_self by exact Hu. reflexivity.
Qed.

(** What [calculateSimilarity] returns once both strings have tokens. *)
Lemma calculateSimilarity_tokens (a b : string) :
  Nat.eqb (length (words a)) 0 = false ->
  Nat.eqb (length (words b)) 0 = false ->
  calculateSimilarity a b
  = percent (size (tokens a ∩ tokens b)) (size (tokens a ∪ tokens b)).
Proof.
  intros Ha Hb. unfold calculateSimilarity.
  assert (Na : nonEmpty a = true).
  { destruct a; [discriminate Ha | reflexivity]. }
  assert (Nb : nonEmpty b = true).
  { destruct b; [discriminate Hb | reflexivity]. }
  rewrite Na, Nb, Ha, Hb. simpl.
  rewrite countMatches_size, unionSize_size. reflexivity.
Qed.

Lemma calculateSimilarity_range (a b : string) :
  (0 <= calculateSimilarity a b <= 100)%Z.
Proof.
  destruct (Nat.eqb (length (words a)) 0) eqn:Ha, (Nat.eqb (length (words b)) 0) eqn:Hb.
  1-3: unfold calculateSimilarity; rewrite Ha, Hb;
    destruct (nonEmpty a), (nonEmpty b); simpl; lia.
  rewrite calculateSimilarity_tokens by assumption.
  apply percent_range.
  - apply subseteq_size. set_solver.
  - pose proof (tokens_nonempty a Ha) as P.
    assert (size (tokens a) <= size (tokens a ∪ tokens b)) by (apply subseteq_size; set_solver).
    lia.
Qed.

Lemma calculateSimilarity_refl (s : string) : calculateSimilarity s s = 100%Z.
Proof.
  destruct (Nat.eqb (length (words s)) 0) eqn:Hs.
  - unfold calculateSimilarity. rewrite Hs. destruct (nonEmpty s); reflexivity.
  - rewrite calculateSimilarity_tokens by assumption.
    replace (tokens s ∩ tokens s) with (tokens s) by set_solver.
    replace (tokens s ∪ tokens s) with (tokens s) by set_solver.
    apply percent_full, tokens_nonempty, Hs.
Qed.

Lemma calculateSimilarity_sym (a b : string) :
  calculateSimilarity a b = calculateSimilarity b a.
Proof.
  destruct (Nat.eqb (length (words a)) 0) eqn:Ha, (Nat.eqb (length (words b)) 0) eqn:Hb.
  1-3: unfold calculateSimilarity; rewrite Ha, Hb;
    destruct (nonEmpty a), (nonEmpty b); reflexivity.
  rewrite !calculateSimilarity_tokens by assumption.
  f_equal; f_equal; set_solver.
Qed.

End SimilarityFacts.

(** ** The greedy alignment *)

Module AlignerFacts.
Import AlignerSpec.

Lemma gt_true (x y : Q) : IEEE.gt x y = true -> (y < x)%Q.
Proof.
  unfold IEEE.gt. intros H. apply negb_true_iff in H.
  apply Qnot_le_lt. intros L. apply Qle_bool_iff in L. congruence.
Qed.

Lemma gt_false (x y : Q) : IEEE.gt x y = false -> (x <= y)%Q.
Proof.
  unfold IEEE.gt. intros H. apply negb_false_iff in H. apply Qle_bool_iff, H.
Qed.

Lemma bestWith_spec score used d T : bestOf score used d T (bestWith score used T d).
Proof.
  unfold bestWith. induction T as [| t T IH] using rev_ind.
  - simpl. split; [reflexivity |]. intros t Ht. inversion Ht.
  - rewrite fold_left_app. simpl.
    destruct (fold_left (considerWith score used d) T (None, 0%Q)) as [bm bs] eqn:E.
    unfold considerWith. case_bool_decide as Hused.
    + (* already claimed: skipped *)
      unfold bestOf in *. simpl in *. destruct bm as [b |].
      * destruct IH as (I1 & I2 & I3 & I4 & I5). repeat split; try assumption.
        { apply elem_of_app. left. exact I1. }
        intros t' Ht' Hn. apply elem_of_app in Ht' as [Ht' | Ht'].
        { apply I5; assumption. }
        apply list_elem_of_singleton in Ht'. subst t'. contradiction.
      * destruct IH as (I1 & I2). split; [exact I1 |].
        intros t' Ht' Hn. apply elem_of_app in Ht' as [Ht' | Ht'].
        { apply I2; assumption. }
        apply list_elem_of_singleton in Ht'. subst t'. contradiction.
    + simpl. destruct (IEEE.gt (score d t) bs) eqn:G.
      * apply gt_true in G. unfold bestOf in *. simpl in *.
        assert (P : (0 < score d t)%Q).
        { destruct bm; [destruct IH as (_ & _ & _ & I4 & _); lra |].
          destruct IH as (I1 & _). rewrite I1 in G. exact G. }
        repeat split; try assumption.
        { apply elem_of_app. right. apply list_elem_of_singleton. reflexivity. }
        intros t' Ht' Hn. apply elem_of_app in Ht' as [Ht' | Ht'].
        { destruct bm.
          - destruct IH as (_ & _ & _ & _ & I5). specialize (I5 t' Ht' Hn). lra.
          - destruct IH as (I1 & I2). specialize (I2 t' Ht' Hn). lra. }
        apply list_elem_of_singleton in Ht'. subst t'. lra.
      * apply gt_false in G. unfold bestOf in *. simpl in *. destruct bm as [b |].
        { destruct IH as (I1 & I2 & I3 & I4 & I5). repeat split; try assumption.
          { apply elem_of_app. left. exact I1. }
          intros t' Ht' Hn. apply elem_of_app in Ht' as [Ht' | Ht'].
          { apply I5; assumption. }
          apply list_elem_of_singleton in Ht'. subst t'. exact G. }
        destruct IH as (I1 & I2). split; [exact I1 |].
        intros t' Ht' Hn. apply elem_of_app in Ht' as [Ht' | Ht'].
        { apply I2; assumption. }
        apply list_elem_of_singleton in Ht'. subst t'. rewrite I1 in G. exact G.
Qed.

(** A matched template section was not claimed before. *)
Lemma align_fresh score floor T used ds e t :
  e ∈ align score floor T used ds -> snd (fst e) = Some t -> Sec.id t ∉ used.
Proof.
  revert used. induction ds as [| d ds IH]; intros used He Ht; simpl in He.
  - inversion He.
  - pose proof (bestWith_spec score used d T) as B.
    destruct (bestWith score used T d) as [[b |] bs]; unfold bestOf in B; simpl in B.
    + destruct (IEEE.ge bs floor).
      * apply elem_of_cons in He as [-> | He].
        { simpl in Ht. injection Ht as <-. apply B. }
        specialize (IH _ He Ht). set_solver.
      * apply elem_of_cons in He as [-> | He]; [discriminate Ht |]. eapply IH; eassumption.
    + apply elem_of_cons in He as [-> | He]; [discriminate Ht |]. eapply IH; eassumption.
Qed.

(** Entries at different positions never hold the same template identifier. *)
Lemma align_distinct score floor T used ds i j e1 e2 t1 t2 :
  align score floor T used ds !! i = Some e1 ->
  align score floor T used ds !! j = Some e2 ->
  i <> j -> snd (fst e1) = Some t1 -> snd (fst e2) = Some t2 ->
  Sec.id t1 <> Sec.id t2.
Proof.
  revert used i j. induction ds as [| d ds IH]; intros used i j H1 H2 Hij Ht1 Ht2.
  - simpl in H1. inversion H1.
  - simpl in H1, H2.
    assert (Later : forall used' rest k e t (t0 : Sec.t),
               rest = align score floor T ({[Sec.id t0]} ∪ used') ds ->
               rest !! k = Some e -> snd (fst e) = Some t -> Sec.id t <> Sec.id t0).
    { intros used' rest k e t t0 -> Hk Ht E.
      apply list_elem_of_lookup_2 in Hk.
      pose proof (align_fresh _ _ _ _ _ _ _ Hk Ht) as F. set_solver. }
    destruct (bestWith score used T d) as [[b |] bs].
    + destruct (IEEE.ge bs floor).
      * destruct i as [| i], j as [| j]; simpl in H1, H2.
        { contradiction. }
        { injection H1 as <-. simpl in Ht1. injection Ht1 as <-.
          intros E. symmetry in E. revert E. eapply Later; [reflexivity | exact H2 | exact Ht2]. }
        { injection H2 as <-. simpl in Ht2. injection Ht2 as <-.
          eapply Later; [reflexivity | exact H1 | exact Ht1]. }
        { eapply IH; [exact H1 | exact H2 | lia | exact Ht1 | exact Ht2]. }
      * destruct i as [| i], j as [| j]; simpl in H1, H2.
        { contradiction. }
        { injection H1 as <-. discriminate Ht1. }
        { injection H2 as <-. discriminate Ht2. }
        { eapply IH; [exact H1 | exact H2 | lia | exact Ht1 | exact Ht2]. }
    + destruct i as [| i], j as [| j]; simpl in H1, H2.
      { contradiction. }
      { injection H1 as <-. discriminate Ht1. }
      { injection H2 as <-. discriminate Ht2. }
      { eapply IH; [exact H1 | exact H2 | lia | exact Ht1 | exact Ht2]. }
Qed.

Lemma claimed_cons (e : entry) (es : list entry) :
  claimed (e :: es)
  = match snd (fst e) with
    | Some t => {[Sec.id t]} ∪ claimed es
    | None => claimed es
    end.
Proof. unfold claimed. simpl. destruct (snd (fst e)); reflexivity. Qed.


End AlignerFacts.

(** ** The two component aligners are the greedy alignment *)

Module ComponentFacts.
Import AlignerSpec AlignerFacts.

Lemma pairs_fold T byId ds acc used :
  map pairEntry (fst (fold_left (ComparisonView.pairStep T byId) ds (acc, used)))
  = map pairEntry acc ++ align ComparisonView.score 30 T used ds.
Proof.
  revert acc used. induction ds as [| d ds IH]; intros acc used; simpl.
  - rewrite app_nil_r. reflexivity.
  - unfold ComparisonView.bestCandidate.
    change (fold_left (ComparisonView.consider used d) T (None, 0%Q))
      with (bestWith ComparisonView.score used T d).
    destruct (bestWith ComparisonView.score used T d) as [[b |] bs].
    + destruct (IEEE.ge bs 30); rewrite IH, map_app, <- app_assoc; reflexivity.
    + rewrite IH, map_app, <- app_assoc. reflexivity.
Qed.

Lemma sectionPairs_align T D allIssues :
  map pairEntry (ComparisonView.sectionPairs T D allIssues)
  = align ComparisonView.score 30 T ∅ D.
Proof. unfold ComparisonView.sectionPairs. rewrite pairs_fold. reflexivity. Qed.

Lemma matches_fold T byId resolved ds acc used :
  map matchEntry (fst (fold_left (ReviewDashboard.matchStep T byId resolved) ds (acc, used)))
  = map matchEntry acc ++ map fst (align ReviewDashboard.score 40 T used ds).
Proof.
  revert acc used. induction ds as [| d ds IH]; intros acc used; simpl.
  - rewrite app_nil_r. reflexivity.
  - unfold ReviewDashboard.bestCandidate.
    change (fold_left (ReviewDashboard.consider used d) T (None, 0%Q))
      with (bestWith ReviewDashboard.score used T d).
    destruct (bestWith ReviewDashboard.score used T d) as [[b |] bs].
    + destruct (IEEE.ge bs 40); rewrite IH, map_app, <- app_assoc; reflexivity.
    + rewrite IH, map_app, <- app_assoc. reflexivity.
Qed.

Lemma sectionMatches_align T D allIssues resolved :
  map matchEntry (ReviewDashboard.sectionMatches T D allIssues resolved)
  = map fst (align ReviewDashboard.score 40 T ∅ D).
Proof. unfold ReviewDashboard.sectionMatches. rewrite matches_fold. reflexivity. Qed.

Lemma alignment_pairs ps :
  ComparisonView.alignment ps
  = map (fun e : entry => (Sec.id (fst (fst e)), Sec.id <$> snd (fst e))) (map pairEntry ps).
Proof. unfold ComparisonView.alignment. rewrite map_map. reflexivity. Qed.

Lemma alignment_matches ms :
  ReviewDashboard.alignment ms
  = map (fun e : Sec.t * option Sec.t => (Sec.id (fst e), Sec.id <$> snd e)) (map matchEntry ms).
Proof. unfold ReviewDashboard.alignment. rewrite map_map. reflexivity. Qed.

(** Pairs at different positions never hold the same template identifier. *)
Lemma sectionPairs_distinct T D allIssues i j p q t1 t2 :
  ComparisonView.sectionPairs T D allIssues !! i = Some p ->
  ComparisonView.sectionPairs T D allIssues !! j = Some q ->
  i <> j ->
  ComparisonView.templateSection p = Some t1 ->
  ComparisonView.templateSection q = Some t2 ->
  Sec.id t1 <> Sec.id t2.
Proof.
  intros Hi Hj Hij H1 H2.
  eapply (align_distinct ComparisonView.score 30 T ∅ D i j (pairEntry p) (pairEntry q)).
  - rewrite <- (sectionPairs_align T D allIssues), list_lookup_fmap, Hi. reflexivity.
  - rewrite <- (sectionPairs_align T D allIssues), list_lookup_fmap, Hj. reflexivity.
  - exact Hij.
  - exact H1.
  - exact H2.
Qed.

Lemma sectionMatches_distinct T D allIssues resolved i j p q t1 t2 :
  ReviewDashboard.sectionMatches T D allIssues resolved !! i = Some p ->
  ReviewDashboard.sectionMatches T D allIssues resolved !! j = Some q ->
  i <> j ->
  ReviewDashboard.templateSection p = Some t1 ->
  ReviewDashboard.templateSection q = Some t2 ->
  Sec.id t1 <> Sec.id t2.
Proof.
  intros Hi Hj Hij H1 H2.
  assert (L : forall k m, ReviewDashboard.sectionMatches T D allIssues resolved !! k = Some m ->
              exists e, align ReviewDashboard.score 40 T ∅ D !! k = Some e
                        /\ fst e = matchEntry m).
  { intros k m Hk.
    assert (E : map fst (align ReviewDashboard.score 40 T ∅ D) !! k = Some (matchEntry m)).
    { rewrite <- (sectionMatches_align T D allIssues resolved), list_lookup_fmap, Hk.
      reflexivity. }
    rewrite list_lookup_fmap in E. apply fmap_Some in E as (e & A & E).
    exists e. split; [exact A | symmetry; exact E]. }
  destruct (L _ _ Hi) as (e1 & A1 & E1). destruct (L _ _ Hj) as (e2 & A2 & E2).
  eapply (align_distinct _ _ _ _ _ _ _ _ _ _ _ A1 A2 Hij).
  - rewrite E1. exact H1.
  - rewrite E2. exact H2.
Qed.

End ComponentFacts.

(** ** The segmenters *)

Module SegmenterFacts.
Import JsString SegmenterSpec.

#[local] Arguments DocxParserText.parseParagraphAsSection : simpl never.
#[local] Arguments DocxParser.detectSectionHeader : simpl never.
#[local] Arguments DocxParser.isTocEntry : simpl never.
#[local] Arguments DocxParser.isTocHeading : simpl never.
#[local] Arguments trim : simpl never.
#[local] Arguments nonEmpty : simpl never.
#[local] Arguments len : simpl never.
#[local] Arguments join : simpl never.

Lemma parse_isSome id para index :
  Regex.isSome (DocxParserText.parseParagraphAsSection id para index)
  = Regex.isSome (DocxParserText.parseParagraphAsSection "" para 0).
Proof.
  unfold DocxParserText.parseParagraphAsSection.
  destruct (negb (nonEmpty (trim para)) || Nat.ltb (len (trim para)) 3); [reflexivity |].
  destruct (DocxParser.firstMatch DocxParserText.SECTION_PATTERNS (trim para)); [reflexivity |].
  match goal with |- context [if ?c then _ else _] => destruct c end; reflexivity.
Qed.

(** One turn of the loop: the bodies closed so far stay joins of groups,
    and the groups followed by the open body grow by the paragraph exactly
    when it is a non-header paragraph. *)
Lemma text_step uuidv4 st p gs :
  map Sec.body (DocxParserText.sections st) = map (join LFLF) gs ->
  (DocxParserText.currentSection st = None -> DocxParserText.currentBody st = []) ->
  exists gs',
    map Sec.body (DocxParserText.sections (DocxParserText.step uuidv4 st p))
    = map (join LFLF) gs'
    /\ (DocxParserText.currentSection (DocxParserText.step uuidv4 st p) = None ->
        DocxParserText.currentBody (DocxParserText.step uuidv4 st p) = [])
    /\ concat gs' ++ DocxParserText.currentBody (DocxParserText.step uuidv4 st p)
       = concat gs ++ DocxParserText.currentBody st ++ bodyParagraphsText [p].
Proof.
  intros Hb Hnone. unfold DocxParserText.step, bodyParagraphsText, isHeaderText. simpl.
  destruct (nonEmpty (trim p)) eqn:Ne; simpl.
  2:{ exists gs. rewrite app_nil_r. repeat split; assumption. }
  pose proof (parse_isSome (uuidv4 (DocxParserText.fresh st)) (trim p) (DocxParserText.i st))
    as Hs.
  destruct (Nat.ltb (len (trim p)) 200) eqn:Hl; simpl.
  - destruct (DocxParserText.parseParagraphAsSection (uuidv4 (DocxParserText.fresh st))
                (trim p) (DocxParserText.i st)) as [sec |] eqn:Ep;
      simpl in Hs; rewrite <- Hs; simpl.
    + destruct (DocxParserText.currentSection st) as [c |] eqn:Ec; simpl.
      * exists (gs ++ [DocxParserText.currentBody st]).
        rewrite !map_app, Hb, concat_app. simpl. rewrite !app_nil_r.
        repeat split; try discriminate; try assumption.
      * exists gs. rewrite (Hnone eq_refl), !app_nil_r. repeat split; try discriminate; try assumption.
    + destruct (DocxParserText.currentSection st) as [c |] eqn:Ec; simpl.
      * exists gs. repeat split; try discriminate; try assumption.
      * exists gs. rewrite (Hnone eq_refl). repeat split; try discriminate; try assumption.
  - destruct (DocxParserText.currentSection st) as [c |] eqn:Ec; simpl.
    + exists gs. repeat split; try discriminate; try assumption.
    + exists gs. rewrite (Hnone eq_refl). repeat split; try discriminate; try assumption.
Qed.

Lemma bodyParagraphsText_cons p ps :
  bodyParagraphsText (p :: ps) = bodyParagraphsText [p] ++ bodyParagraphsText ps.
Proof.
  unfold bodyParagraphsText. simpl.
  destruct (nonEmpty (trim p) && negb (isHeaderText (trim p))); reflexivity.
Qed.

Lemma text_loop uuidv4 ps st gs :
  map Sec.body (DocxParserText.sections st) = map (join LFLF) gs ->
  (DocxParserText.currentSection st = None -> DocxParserText.currentBody st = []) ->
  exists gs',
    map Sec.body (DocxParserText.sections (fold_left (DocxParserText.step uuidv4) ps st))
    = map (join LFLF) gs'
    /\ (DocxParserText.currentSection (fold_left (DocxParserText.step uuidv4) ps st) = None ->
        DocxParserText.currentBody (fold_left (DocxParserText.step uuidv4) ps st) = [])
    /\ concat gs' ++ DocxParserText.currentBody (fold_left (DocxParserText.step uuidv4) ps st)
       = concat gs ++ DocxParserText.currentBody st ++ bodyParagraphsText ps.
Proof.
  revert st gs. induction ps as [| p ps IH]; intros st gs Hb Hnone.
  - exists gs. simpl. unfold bodyParagraphsText. simpl. rewrite app_nil_r.
    repeat split; assumption.
  - simpl fold_left.
    destruct (text_step uuidv4 st p gs Hb Hnone) as (g1 & B1 & N1 & C1).
    destruct (IH _ g1 B1 N1) as (g2 & B2 & N2 & C2).
    exists g2. repeat split; [exact B2 | exact N2 |].
    rewrite (bodyParagraphsText_cons p ps), C2, app_assoc, C1, <- !app_assoc. reflexivity.
Qed.

Lemma text_close cur bodyParas last done gs :
  map Sec.body done = map (join LFLF) gs ->
  (cur = None -> bodyParas = []) ->
  partitions (map Sec.body (DocxParserText.close cur bodyParas last done))
    (concat gs ++ bodyParas).
Proof.
  intros Hb Hnone. unfold partitions. destruct cur as [c |]; simpl.
  - exists (gs ++ [bodyParas]). rewrite !map_app, Hb, concat_app. simpl.
    rewrite app_nil_r. split; reflexivity.
  - exists gs. rewrite (Hnone eq_refl), app_nil_r. split; [exact Hb | reflexivity].
Qed.

Lemma extractSections_partition uuidv4 text :
  partitions (map Sec.body (DocxParserText.extractSections uuidv4 text))
    (bodyParagraphsText (DocxParserText.paragraphsOf text)).
Proof.
  unfold DocxParserText.extractSections.
  destruct (text_loop uuidv4 (DocxParserText.paragraphsOf text) DocxParserText.start []
              eq_refl (fun _ => eq_refl)) as (gs & B & N & C).
  simpl in C. rewrite <- C. apply text_close; assumption.
Qed.

Lemma html_step uuidv4 st p gs :
  map Sec.body (DocxParser.sections st) = map (join LFLF) gs ->
  (DocxParser.currentSection st = None -> DocxParser.currentBody st = []) ->
  exists gs',
    map Sec.body (DocxParser.sections (DocxParser.step uuidv4 st p)) = map (join LFLF) gs'
    /\ (DocxParser.currentSection (DocxParser.step uuidv4 st p) = None ->
        DocxParser.currentBody (DocxParser.step uuidv4 st p) = [])
    /\ forall ps,
         concat gs' ++ DocxParser.currentBody (DocxParser.step uuidv4 st p)
         ++ keptParagraphs (DocxParser.tocSectionDetected (DocxParser.step uuidv4 st p))
              (Regex.isSome (DocxParser.currentSection (DocxParser.step uuidv4 st p))) ps
         = concat gs ++ DocxParser.currentBody st
           ++ keptParagraphs (DocxParser.tocSectionDetected st)
                (Regex.isSome (DocxParser.currentSection st)) (p :: ps).
Proof.
  intros Hb Hnone. unfold DocxParser.step. cbn [keptParagraphs].
  destruct (nonEmpty (trim p)) eqn:Ne; cbn [negb].
  2:{ exists gs. repeat split; assumption. }
  destruct (DocxParser.isTocHeading (trim p)) eqn:Th.
  { exists gs. cbn. repeat split; assumption. }
  destruct (DocxParser.tocSectionDetected st && DocxParser.isTocEntry (trim p)) eqn:Te.
  { exists gs. repeat split; assumption. }
  set (toc' := if DocxParser.tocSectionDetected st && negb (DocxParser.isTocEntry (trim p))
                    && Nat.ltb 60 (len (trim p))
               then false else DocxParser.tocSectionDetected st).
  destruct (DocxParser.detectSectionHeader (trim p)) as [h |] eqn:Eh.
  - destruct (DocxParser.currentSection st) as [c |] eqn:Ec; cbn.
    + exists (gs ++ [DocxParser.currentBody st]).
      rewrite !map_app, Hb, concat_app. cbn. rewrite !app_nil_r.
      repeat split; try discriminate. intros ps. rewrite <- app_assoc. reflexivity.
    + exists gs. rewrite (Hnone eq_refl). repeat split; try discriminate; try assumption.
  - destruct (DocxParser.currentSection st) as [c |] eqn:Ec; cbn.
    + exists gs. destruct toc'; cbn.
      * repeat split; try discriminate; try assumption.
      * repeat split; try discriminate; try assumption.
        intros ps. rewrite <- !app_assoc. reflexivity.
    + exists gs. rewrite (Hnone eq_refl). repeat split; try discriminate; try assumption.
Qed.

Lemma html_loop uuidv4 ps st gs :
  map Sec.body (DocxParser.sections st) = map (join LFLF) gs ->
  (DocxParser.currentSection st = None -> DocxParser.currentBody st = []) ->
  exists gs',
    map Sec.body (DocxParser.sections (fold_left (DocxParser.step uuidv4) ps st))
    = map (join LFLF) gs'
    /\ (DocxParser.currentSection (fold_left (DocxParser.step uuidv4) ps st) = None ->
        DocxParser.currentBody (fold_left (DocxParser.step uuidv4) ps st) = [])
    /\ concat gs' ++ DocxParser.currentBody (fold_left (DocxParser.step uuidv4) ps st)
       = concat gs ++ DocxParser.currentBody st
         ++ keptParagraphs (DocxParser.tocSectionDetected st)
              (Regex.isSome (DocxParser.currentSection st)) ps.
Proof.
  revert st gs. induction ps as [| p ps IH]; intros st gs Hb Hnone.
  - exists gs. cbn. rewrite app_nil_r. repeat split; assumption.
  - cbn [fold_left].
    destruct (html_step uuidv4 st p gs Hb Hnone) as (g1 & B1 & N1 & C1).
    destruct (IH _ g1 B1 N1) as (g2 & B2 & N2 & C2).
    exists g2. repeat split; [exact B2 | exact N2 |].
    rewrite C2. apply C1.
Qed.

Lemma html_close cur bodyParas done gs :
  map Sec.body done = map (join LFLF) gs ->
  (cur = None -> bodyParas = []) ->
  partitions (map Sec.body (DocxParser.close cur bodyParas done)) (concat gs ++ bodyParas).
Proof.
  intros Hb Hnone. unfold partitions. destruct cur as [c |]; cbn.
  - exists (gs ++ [bodyParas]). rewrite !map_app, Hb, concat_app. cbn.
    rewrite app_nil_r. split; reflexivity.
  - exists gs. rewrite (Hnone eq_refl), app_nil_r. split; [exact Hb | reflexivity].
Qed.

Lemma extractSectionsFromHtml_partition uuidv4 paragraphs :
  partitions (map Sec.body (DocxParser.extractSectionsFromHtml uuidv4 paragraphs))
    (keptParagraphs false false paragraphs).
Proof.
  unfold DocxParser.extractSectionsFromHtml.
  destruct (html_loop uuidv4 paragraphs DocxParser.start [] eq_refl (fun _ => eq_refl))
    as (gs & B & N & C).
  cbn in C. rewrite <- C. apply html_close; assumption.
Qed.

(** Without a table-of-contents heading nothing is suppressed. *)
Lemma keptParagraphs_no_toc hasSection paragraphs :
  forallb (fun p => negb (DocxParser.isTocHeading (trim p))) paragraphs = true ->
  keptParagraphs false hasSection paragraphs = bodyParagraphsHtml paragraphs.
Proof.
  revert hasSection. induction paragraphs as [| p ps IH]; intros hasSection H.
  - reflexivity.
  - cbn [forallb] in H. apply andb_true_iff in H as [Hp Hps]. apply negb_true_iff in Hp.
    unfold bodyParagraphsHtml. cbn [keptParagraphs map List.filter]. rewrite Hp.
    fold (bodyParagraphsHtml ps).
    destruct (nonEmpty (trim p)); cbn [negb andb]; [| apply IH, Hps].
    destruct (DocxParser.detectSectionHeader (trim p)); cbn.
    + apply IH, Hps.
    + rewrite andb_false_r. f_equal. apply IH, Hps.
Qed.

End SegmenterFacts.

(** ** Section levels *)

Module LevelFacts.
Import JsString LevelSpec.

Lemma no_dot_in (P : ascii -> bool) (l : list ascii) :
  P "."%char = false -> forallb P l = true -> List.filter (eqc ".") l = [].
Proof.
  intros HP. induction l as [| c l IH]; intros H; [reflexivity |].
  cbn [forallb] in H. apply andb_true_iff in H as [Hc Hl]. cbn [List.filter].
  destruct (eqc "." c) eqn:E.
  - apply Ascii.eqb_eq in E. subst c. congruence.
  - apply IH, Hl.
Qed.

Lemma roman_no_dot tok : DocxParserText.isRoman tok = true -> DocxParserText.dotCount tok = 0.
Proof.
  unfold DocxParserText.isRoman, DocxParserText.dotCount. intros H.
  apply andb_true_iff in H as [_ H]. rewrite (no_dot_in _ _ eq_refl H). reflexivity.
Qed.

Lemma article_no_dot tok : isArticleToken tok = true -> DocxParserText.dotCount tok = 0.
Proof.
  unfold isArticleToken, DocxParserText.dotCount. intros H.
  apply andb_true_iff in H as [_ H]. rewrite (no_dot_in _ _ eq_refl H). reflexivity.
Qed.

Lemma alphanumeric_no_dot tok : isAlphanumeric tok = true -> DocxParserText.dotCount tok = 0.
Proof.
  unfold isAlphanumeric, DocxParserText.dotCount. intros H.
  apply andb_true_iff in H as [_ H]. rewrite (no_dot_in _ _ eq_refl H). reflexivity.
Qed.

Lemma upper_no_dot tok : isUpperLetter tok = true -> DocxParserText.dotCount tok = 0.
Proof.
  unfold isUpperLetter, DocxParserText.dotCount. intros H.
  destruct (chars tok) as [| c [| c' l]]; try discriminate H.
  rewrite (no_dot_in isUpper [c] eq_refl); [reflexivity |]. cbn. rewrite H. reflexivity.
Qed.

Lemma dotted_first_char b l : dottedChars b l = true -> b = true -> 
  match l with c :: _ => isDigit c = true | [] => False end.
Proof.
  intros H ->. destruct l as [| c l]; cbn in H; [discriminate H |].
  destruct (isDigit c); [reflexivity |]. rewrite andb_false_r in H. discriminate H.
Qed.

Lemma chars_nonEmpty tok : nonEmpty tok = negb (match chars tok with [] => true | _ => false end).
Proof. destruct tok; reflexivity. Qed.

(** With no full stop, a token of the HTML-aware parser that is not a roman
    numeral is neither a single letter nor parenthesized. *)
Lemma html_token_classes tok :
  tokenOfHtml tok = true -> DocxParserText.isRoman tok = false ->
  DocxParserText.isSingleLetter tok = false /\ DocxParserText.isParenthetical tok = false.
Proof.
  unfold tokenOfHtml, isDottedNumber, isArticleToken, DocxParserText.isRoman,
    DocxParserText.isSingleLetter, DocxParserText.isParenthetical.
  rewrite chars_nonEmpty. intros H R.
  destruct (chars tok) as [| c l]; [split; reflexivity |]. cbn [negb andb] in *.
  apply orb_true_iff in H as [H | H].
  - pose proof (dotted_first_char _ _ H eq_refl) as D. cbn in D.
    split.
    + destruct l; [| reflexivity].
      unfold isDigit, isLetter, isUpper, isLower in *.
      destruct (Nat.leb 48 (code c)) eqn:A, (Nat.leb (code c) 57) eqn:B; try discriminate D.
      apply Nat.leb_le in A, B.
      destruct (Nat.leb 65 (code c)) eqn:A1; [apply Nat.leb_le in A1; lia |].
      destruct (Nat.leb 97 (code c)) eqn:A2; [apply Nat.leb_le in A2; lia |]. reflexivity.
    + destruct (eqc c "(") eqn:E; [| reflexivity].
      apply Ascii.eqb_eq in E. subst c. discriminate D.
  - cbn [forallb] in H, R. apply andb_true_iff in H as [Hc Hl]. split.
    + destruct l; [| reflexivity]. cbn [forallb] in R. rewrite andb_true_r in R.
      rewrite R in Hc. cbn in Hc.
      unfold isDigit, isLetter, isUpper, isLower in *.
      destruct (Nat.leb 48 (code c)) eqn:A, (Nat.leb (code c) 57) eqn:B; try discriminate Hc.
      apply Nat.leb_le in A, B.
      destruct (Nat.leb 65 (code c)) eqn:A1; [apply Nat.leb_le in A1; lia |].
      destruct (Nat.leb 97 (code c)) eqn:A2; [apply Nat.leb_le in A2; lia |]. reflexivity.
    + destruct (eqc c "(") eqn:E; [| reflexivity].
      apply Ascii.eqb_eq in E. subst c. discriminate Hc.
Qed.

(** A token with a full stop is a dotted number, in either parser. *)
Lemma dotted_when_dots tok :
  tokenOfText tok = true -> 0 < DocxParserText.dotCount tok -> isDottedNumber tok = true.
Proof.
  unfold tokenOfText. intros H D.
  destruct (isDottedNumber tok); [reflexivity |]. cbn in H.
  repeat (apply orb_true_iff in H as [H | H]).
  - apply roman_no_dot in H. lia.
  - apply upper_no_dot in H. lia.
  - apply alphanumeric_no_dot in H. lia.
  - apply article_no_dot in H. lia.
Qed.

Lemma tokenOfHtml_text tok : tokenOfHtml tok = true -> tokenOfText tok = true.
Proof.
  unfold tokenOfHtml, tokenOfText. intros H. apply orb_true_iff in H as [-> | ->].
  - reflexivity.
  - rewrite !orb_true_r. reflexivity.
Qed.

Lemma level_text_spec tok :
  tokenOfText tok = true -> DocxParserText.calculateSectionLevel (Some tok) = levelSpec tok.
Proof.
  intros H. unfold DocxParserText.calculateSectionLevel, levelSpec.
  destruct (Nat.ltb 0 (DocxParserText.dotCount tok)) eqn:D.
  - apply Nat.ltb_lt in D. rewrite (dotted_when_dots tok H D). cbn.
    destruct (nonEmpty tok) eqn:N; [reflexivity |].
    destruct tok; [cbn in D; lia | discriminate N].
  - rewrite andb_false_r. destruct (nonEmpty tok) eqn:N; [reflexivity |].
    destruct tok; [reflexivity | discriminate N].
Qed.

Lemma level_html_spec tok :
  tokenOfHtml tok = true -> DocxParser.calculateSectionLevel (Some tok) = levelSpec tok.
Proof.
  intros H. unfold DocxParser.calculateSectionLevel, levelSpec.
  change (DocxParser.dotCount tok) with (DocxParserText.dotCount tok).
  change (DocxParser.isRoman tok) with (DocxParserText.isRoman tok).
  destruct (Nat.ltb 0 (DocxParserText.dotCount tok)) eqn:D.
  - apply Nat.ltb_lt in D. rewrite (dotted_when_dots tok (tokenOfHtml_text tok H) D). cbn.
    destruct (nonEmpty tok) eqn:N; [reflexivity |].
    destruct tok; [cbn in D; lia | discriminate N].
  - rewrite andb_false_r. destruct (DocxParserText.isRoman tok) eqn:R.
    + destruct (nonEmpty tok); reflexivity.
    + destruct (html_token_classes tok H R) as [-> ->]. destruct (nonEmpty tok); reflexivity.
Qed.

End LevelFacts.

(** ** The formatting differ *)

Module DifferFacts.
Import JsString FormattingAnalyzer DifferSpec.

Ltac pick_difference H :=
  repeat (apply in_app_or in H as [H | H]);
  match type of H with
  | In _ (if ?c then _ else _) => destruct c; [destruct H as [H | []] | destruct H]
  end.

Lemma neqBool_true (x y : option bool) : neqBool x y = true -> x <> y.
Proof. destruct x as [[|] |], y as [[|] |]; cbn; congruence. Qed.

Lemma neqAlignment_true (x y : option Alignment) : neqAlignment x y = true -> x <> y.
Proof. destruct x as [[| | |] |], y as [[| | |] |]; cbn; congruence. Qed.

Lemma neqString_true (x y : option string) : neqString x y = true -> x <> y.
Proof.
  destruct x as [a |], y as [b |]; cbn; try congruence.
  intros H E. injection E as ->. rewrite String.eqb_refl in H. discriminate H.
Qed.

Lemma neqNumber_true (x y : option Q) : neqNumber x y = true -> differentNumber x y.
Proof.
  destruct x as [p |], y as [q |]; cbn; try easy.
  unfold IEEE.neq. intros H E. apply Qeq_bool_iff in E. rewrite E in H. discriminate H.
Qed.

Lemma truthyNumber_set (x : option Q) : truthyNumber x = true -> setNumber x.
Proof.
  destruct x as [q |]; cbn; [| discriminate]. unfold IEEE.truthy. intros H.
  exists q. split; [reflexivity |]. intros E. apply Qeq_bool_iff in E.
  rewrite E in H. discriminate H.
Qed.

Lemma truthyStr_set (x : option string) : truthyStr x = true -> setString x.
Proof.
  destruct x as [t |]; cbn; [| discriminate]. intros H. exists t.
  split; [reflexivity |]. intros ->. discriminate H.
Qed.

Lemma truthyBool_set (x : option bool) : truthyBool x = true -> x = Some true.
Proof. destruct x as [[|] |]; cbn; congruence. Qed.

Ltac split_guard C :=
  repeat match type of C with
         | (_ && _)%bool = true => let A := fresh "G" in apply andb_true_iff in C as [A C]
         end.

Lemma compareParagraphLevel_reported show draftSection i tPara dPara d :
  In d (compareParagraphLevel show draftSection i tPara dPara) ->
  reportedAt draftSection i tPara dPara d.
Proof.
  unfold compareParagraphLevel. intros H.
  repeat (apply in_app_or in H as [H | H]);
    match type of H with
    | In _ (if ?c then _ else _) => destruct c eqn:C; [destruct H as [H | []] | destruct H]
    end; subst d; (split; [reflexivity |]); (split; [reflexivity |]).
  - exists aAlignment. repeat (split; [first [reflexivity | discriminate] |]).
    exists noRun, noRun. split; [discriminate |].
    split; [exact (neqAlignment_true _ _ C) |]. split; [exact I | reflexivity].
  - apply andb_true_iff in C as [C1 C2].
    exists aStyle. repeat (split; [first [reflexivity | discriminate] |]).
    exists noRun, noRun. split; [discriminate |].
    split; [exact (neqString_true _ _ C1) |].
    split; [exact (truthyStr_set _ C2) | reflexivity].
  - apply andb_true_iff in C as [C1 C2].
    exists aSpacingAfter. repeat (split; [first [reflexivity | discriminate] |]).
    exists noRun, noRun. split; [discriminate |].
    split; [exact (neqNumber_true _ _ C1) |].
    split; [exact (truthyNumber_set _ C2) | reflexivity].
  - apply andb_true_iff in C as [C1 C2].
    exists aIndentLeft. repeat (split; [first [reflexivity | discriminate] |]).
    exists noRun, noRun. split; [discriminate |].
    split; [exact (neqNumber_true _ _ C1) |].
    split; [exact (truthyNumber_set _ C2) | reflexivity].
  - apply andb_true_iff in C as [C1 C2].
    exists aHeading. repeat (split; [first [reflexivity | discriminate] |]).
    exists noRun, noRun. split; [discriminate |]. split.
    + apply orb_true_iff in C1 as [C1 | C1];
        [left; exact (neqBool_true _ _ C1) | right; exact (neqNumber_true _ _ C1)].
    + split; [exact (truthyBool_set _ C2) | reflexivity].
Qed.

(** What holds of a difference found between two runs. *)
Lemma compareRuns_reported show draftSection i tRun dRun d :
  In d (compareRuns show draftSection i tRun dRun) ->
  sectionId (location d) = Sec.id (section draftSection)
  /\ paragraphIndex (location d) = Some i
  /\ textSnippet (location d) = Some (substring0 50 (runText dRun))
  /\ exists a, attributeOf d = Some a /\ ofRuns a = true
               /\ type d = typeOf a /\ severity d = severityOf a
               /\ option_map fixType (fix_ d) = fixTypeOf a
               /\ (forall tPara dPara,
                     differsOn a tPara dPara tRun dRun /\ templateSets a tPara tRun
                     /\ option_map templateFormatting (fix_ d) = templateSide a tPara tRun).
Proof.
  unfold compareRuns. intros H.
  repeat (apply in_app_or in H as [H | H]);
    match type of H with
    | In _ (if ?c then _ else _) => destruct c eqn:C; [destruct H as [H | []] | destruct H]
    end; subst d; do 3 (split; [reflexivity |]).
  - exists aBold. repeat (split; [reflexivity |]). intros tPara dPara.
    split; [exact (neqBool_true _ _ C) |]. split; [exact I | reflexivity].
  - exists aItalic. repeat (split; [reflexivity |]). intros tPara dPara.
    split; [exact (neqBool_true _ _ C) |]. split; [exact I | reflexivity].
  - apply andb_true_iff in C as [C1 C2].
    exists aFontSize. repeat (split; [reflexivity |]). intros tPara dPara.
    split; [exact (neqNumber_true _ _ C1) |].
    split; [exact (truthyNumber_set _ C2) | reflexivity].
  - apply andb_true_iff in C as [C1 C2].
    exists aFontFamily. repeat (split; [reflexivity |]). intros tPara dPara.
    split; [exact (neqString_true _ _ C1) |].
    split; [exact (truthyStr_set _ C2) | reflexivity].
Qed.

Lemma in_combine_nth {A B : Type} (l1 : list A) (l2 : list B) (x : A) (y : B) :
  In (x, y) (combine l1 l2) ->
  exists j, nth_error l1 j = Some x /\ nth_error l2 j = Some y.
Proof.
  revert l2. induction l1 as [| a l1 IH]; intros l2 H; [destruct H |].
  destruct l2 as [| b l2]; [destruct H |]. destruct H as [E | H].
  - injection E as -> ->. exists 0. split; reflexivity.
  - destruct (IH _ H) as (j & H1 & H2). exists (S j). split; assumption.
Qed.

Lemma compareParagraphs_reported show draftSection i tPara dPara d :
  In d (compareParagraphs show draftSection i tPara dPara) ->
  reportedAt draftSection i tPara dPara d.
Proof.
  unfold compareParagraphs. intros H. apply in_app_or in H as [H | H].
  - eapply compareParagraphLevel_reported, H.
  - apply in_flat_map in H as ([tRun dRun] & Hin & H). cbn [fst snd] in H.
    destruct (compareRuns_reported _ _ _ _ _ _ H) as (S1 & S2 & S3 & a & A & R & Ty & Sv & Fx & F).
    destruct (in_combine_nth _ _ _ _ Hin) as (j & J1 & J2).
    split; [exact S1 |]. split; [exact S2 |]. exists a.
    split; [exact A |]. split; [intros ->; discriminate R |].
    split; [exact Ty |]. split; [exact Sv |]. split; [exact Fx |].
    exists tRun, dRun. split; [intros _; exists j; repeat split; assumption |].
    apply F.
Qed.

Lemma compareFrom_reported show draftSection i templateParas draftParas d :
  In d (compareFrom show draftSection i templateParas draftParas) ->
  exists k tPara dPara,
    nth_error templateParas k = Some tPara /\ nth_error draftParas k = Some dPara
    /\ reportedAt draftSection (i + k) tPara dPara d.
Proof.
  revert i draftParas. induction templateParas as [| tPara ts IH]; intros i draftParas H.
  - destruct H.
  - destruct draftParas as [| dPara ds]; [destruct H |]. cbn [compareFrom] in H.
    apply in_app_or in H as [H | H].
    + exists 0, tPara, dPara. rewrite Nat.add_0_r.
      split; [reflexivity |]. split; [reflexivity |].
      eapply compareParagraphs_reported, H.
    + destruct (IH _ _ H) as (k & tp & dp & N1 & N2 & R).
      exists (S k), tp, dp. split; [exact N1 |]. split; [exact N2 |].
      replace (i + S k) with (S i + k) by lia. exact R.
Qed.

Lemma compareSectionFormatting_reported show templateSection draftSection d :
  In d (compareSectionFormatting show (Some templateSection) draftSection) ->
  exists templateParas draftParas,
    paragraphs templateSection = Some templateParas
    /\ paragraphs draftSection = Some draftParas
    /\ ((exists i tPara dPara,
           nth_error templateParas i = Some tPara /\ nth_error draftParas i = Some dPara
           /\ reportedAt draftSection i tPara dPara d)
        \/ tableDifference draftSection d).
Proof.
  unfold compareSectionFormatting. intros H.
  destruct (paragraphs templateSection) as [tps |]; [| destruct H].
  destruct (paragraphs draftSection) as [dps |]; [| destruct H].
  exists tps, dps. split; [reflexivity |]. split; [reflexivity |].
  apply in_app_or in H as [H | H].
  - left. destruct (compareFrom_reported _ _ _ _ _ _ H) as (k & tp & dp & N1 & N2 & R).
    exists k, tp, dp. split; [exact N1 |]. split; [exact N2 | exact R].
  - right. destruct (tables templateSection), (tables draftSection); try destruct H.
    unfold compareTables in H.
    destruct (negb (Nat.eqb (length l) (length l0))); [| destruct H].
    destruct H as [<- | []]. repeat split.
Qed.

Lemma neq_refl (q : Q) : IEEE.neq q q = false.
Proof. unfold IEEE.neq. rewrite (proj2 (Qeq_bool_iff q q) (Qeq_refl q)). reflexivity. Qed.

Lemma neqNumber_refl (x : option Q) : neqNumber x x = false.
Proof. destruct x as [q |]; [apply neq_refl | reflexivity]. Qed.

Lemma neqString_refl (x : option string) : neqString x x = false.
Proof. destruct x as [s |]; [| reflexivity]. cbn. rewrite String.eqb_refl. reflexivity. Qed.

Lemma neqBool_refl (x : option bool) : neqBool x x = false.
Proof. destruct x as [[|] |]; reflexivity. Qed.

Lemma neqAlignment_refl (x : option Alignment) : neqAlignment x x = false.
Proof. destruct x as [[| | |] |]; reflexivity. Qed.

End DifferFacts.

(** ** The per-section analyzer *)

Module AnalyzerFacts.
Import JsString OpenaiAnalyzer AnalyzerSpec.

Lemma failure_throws svc uuidv4 templateSection newSection context :
  Failure svc (requestOf templateSection newSection context) ->
  exists e, tryAnalyze svc uuidv4 templateSection newSection context = inl e.
Proof.
  intros F. unfold tryAnalyze.
  destruct F as [e H | e H1 H2 | c H1 H2 H3 | c e H1 H2 H3 H4 | c r H1 H2 H3 H4 H5].
  - rewrite H. eexists. reflexivity.
  - rewrite H1. cbn. rewrite H2. eexists. reflexivity.
  - rewrite H1. cbn. rewrite H2. cbn. destruct c as [c |]; cbn in H3.
    + rewrite H3. eexists. reflexivity.
    + eexists. reflexivity.
  - rewrite H1. cbn. rewrite H2. cbn. rewrite H3. cbn. rewrite H4. eexists. reflexivity.
  - rewrite H1. cbn. rewrite H2. cbn. rewrite H3. cbn. rewrite H4. cbn. rewrite H5.
    eexists. reflexivity.
Qed.

Lemma analyzeSectionPair_sectionId svc uuidv4 templateSection newSection context :
  sectionId (analyzeSectionPair svc uuidv4 templateSection newSection context)
  = Sec.id newSection.
Proof.
  unfold analyzeSectionPair.
  destruct (tryAnalyze svc uuidv4 templateSection newSection context) as [e | a] eqn:E;
    [reflexivity |].
  unfold tryAnalyze, bind in E.
  destruct (getClient svc); [discriminate E |].
  destruct (create svc _) as [| c]; [discriminate E |].
  destruct c as [c |]; [| discriminate E].
  destruct (nonEmpty c); [| discriminate E]. cbn in E.
  destruct (parse svc c) as [| r]; [discriminate E |].
  destruct (replyIssues r); [| discriminate E].
  injection E as <-. reflexivity.
Qed.

Lemma batches_concat (l : list (nat * Sec.t)) : concat (batches l) = l.
Proof.
  assert (G : forall n (k : list (nat * Sec.t)), length k <= n -> concat (batches k) = k).
  { induction n as [| n IH]; intros k Hk.
    - destruct k; [reflexivity | cbn in Hk; lia].
    - destruct k as [| a [| b [| c k]]]; try reflexivity.
      cbn [batches concat]. rewrite IH; [reflexivity | cbn in Hk; lia]. }
  apply (G (length l)). lia.
Qed.

Lemma analyses_fold (g : nat * Sec.t -> SectionAnalysis)
  (bs : list (list (nat * Sec.t))) (acc : list SectionAnalysis) (acc' : list Issue.t) :
  fst (fold_left
         (fun (a : list SectionAnalysis * list Issue.t) batch =>
            (fst a ++ map g batch, snd a ++ flat_map issues (map g batch)))
         bs (acc, acc'))
  = acc ++ map g (concat bs).
Proof.
  revert acc acc'. induction bs as [| b bs IH]; intros acc acc'; cbn.
  - rewrite app_nil_r. reflexivity.
  - rewrite IH. cbn. rewrite map_app, app_assoc. reflexivity.
Qed.

End AnalyzerFacts.

(** ** Claims on the similarity measure *)

Module SimilarityClaims.
Import JsString DiffUtils SimilaritySpec SimilarityFacts.

Lemma tokens_empty_words (s : string) : tokens s = ∅ <-> words s = [].
Proof.
  unfold tokens. split.
  - intros H. destruct (words s) as [| w l]; [reflexivity |].
    assert (w ∈ (∅ : gset string)) by (rewrite <- H; set_solver). set_solver.
  - intros ->. reflexivity.
Qed.

Lemma words_length_eqb (s : string) : Nat.eqb (length (words s)) 0 = false <-> words s <> [].
Proof.
  destruct (words s); simpl; split; intros H; congruence.
Qed.

Lemma percent_zero (u : nat) : percent 0 u = 0%Z.
Proof. unfold percent, IEEE.fdiv, IEEE.fmul. destruct u; reflexivity. Qed.

(** C5, as amended. The similarity is always within 0 and 100; it is 100
    for a string against itself and for two empty strings; it is 0 for an
    empty string against a non-empty one; and, [A] and [B] being the sets of
    lower-cased white-space-separated tokens of the two strings, it is
    [Math.round((|A ∩ B| / |A ∪ B|) * 100)] evaluated in double precision when
    the union is not empty; when neither string has a token it is 100, unless
    exactly one of the two is the empty string, which gives 0. (The double
    product can fall just below a half-way value that the exact quotient
    hits: see [similarity_not_exact_rounding].) *)
Theorem similarity_bounds (a b : string) :
  (0 <= calculateSimilarity a b <= 100)%Z
  /\ calculateSimilarity a a = 100%Z
  /\ calculateSimilarity "" "" = 100%Z
  /\ (a <> "" -> calculateSimilarity "" a = 0%Z /\ calculateSimilarity a "" = 0%Z)
  /\ (tokens a ∪ tokens b <> ∅ ->
      calculateSimilarity a b
      = IEEE.Math_round
          (IEEE.fmul
             (IEEE.fdiv (inject_Z (Z.of_nat (size (tokens a ∩ tokens b))))
                (inject_Z (Z.of_nat (size (tokens a ∪ tokens b)))))
             100))
  /\ (tokens a ∪ tokens b = ∅ ->
      calculateSimilarity a b = if Bool.eqb (nonEmpty a) (nonEmpty b) then 100%Z else 0%Z).
Proof.
  split; [apply calculateSimilarity_range |].
  split; [apply calculateSimilarity_refl |].
  split; [reflexivity |].
  split.
  { intros Ha. unfold calculateSimilarity. destruct a; [contradiction | split; reflexivity]. }
  split.
  - intros Hne.
    destruct (Nat.eqb (length (words a)) 0) eqn:Ha, (Nat.eqb (length (words b)) 0) eqn:Hb.
    + exfalso. apply Hne.
      apply Nat.eqb_eq, length_zero_iff_nil, tokens_empty_words in Ha.
      apply Nat.eqb_eq, length_zero_iff_nil, tokens_empty_words in Hb.
      rewrite Ha, Hb. set_solver.
    + apply Nat.eqb_eq, length_zero_iff_nil, tokens_empty_words in Ha.
      rewrite Ha. replace (∅ ∩ tokens b) with (∅ : gset string) by set_solver.
      change (IEEE.Math_round _) with (percent 0 (size (∅ ∪ tokens b))).
      rewrite percent_zero. unfold calculateSimilarity. rewrite Hb.
      assert (Nb : nonEmpty b = true) by (destruct b; [discriminate Hb | reflexivity]).
      apply tokens_empty_words in Ha. rewrite Ha, Nb. simpl.
      destruct (nonEmpty a); reflexivity.
    + apply Nat.eqb_eq, length_zero_iff_nil, tokens_empty_words in Hb.
      rewrite Hb. replace (tokens a ∩ ∅) with (∅ : gset string) by set_solver.
      change (IEEE.Math_round _) with (percent 0 (size (tokens a ∪ ∅))).
      rewrite percent_zero. unfold calculateSimilarity. rewrite Ha.
      assert (Na : nonEmpty a = true) by (destruct a; [discriminate Ha | reflexivity]).
      apply tokens_empty_words in Hb. rewrite Hb, Na. simpl.
      destruct (nonEmpty b); reflexivity.
    + rewrite calculateSimilarity_tokens by assumption. reflexivity.
  - intros He.
    assert (Ea : tokens a = ∅) by set_solver. assert (Eb : tokens b = ∅) by set_solver.
    apply tokens_empty_words in Ea. apply tokens_empty_words in Eb.
    unfold calculateSimilarity. rewrite Ea, Eb. simpl.
    destruct (nonEmpty a), (nonEmpty b); reflexivity.
Qed.

(** Two titles sharing two of four tokens are 50 similar. *)
Lemma similarity_bounds_witness :
  ("Payment Terms" <> ""
   /\ tokens "Payment Terms" ∪ tokens "payment terms and conditions" <> ∅)
  /\ calculateSimilarity "" "Payment Terms" = 0%Z
  /\ calculateSimilarity "Payment Terms" "payment terms and conditions" = 50%Z.
Proof.
  assert (H1 : "Payment Terms" <> "") by discriminate.
  assert (H2 : tokens "Payment Terms" ∪ tokens "payment terms and conditions" <> ∅).
  { intros E. assert (M : "payment" ∈ (∅ : gset string)).
    { rewrite <- E. apply elem_of_union_l. unfold tokens.
      apply elem_of_list_to_set. vm_compute. apply list_elem_of_here. }
    apply elem_of_empty in M. exact M. }
  split; [split; [exact H1 | exact H2] |].
  destruct (similarity_bounds "Payment Terms" "payment terms and conditions")
    as (_ & _ & _ & Z & F & _).
  split; [exact (proj1 (Z H1)) |].
  rewrite (F H2). vm_compute. reflexivity.
Defined.

(** C5, the claim as stated fails on the formula: for 23 shared tokens out
    of 40 the quotient 23/40 is the double 0.57499999999999996 and its product
    with 100 the double 57.49999999999999, which [Math.round] takes to 57,
    whereas the integer nearest to 100 * 23 / 40 = 57.5 is 58. *)
Lemma similarity_not_exact_rounding :
  size (tokens fortyTokens ∩ tokens twentyThreeTokens) = 23
  /\ size (tokens fortyTokens ∪ tokens twentyThreeTokens) = 40
  /\ calculateSimilarity fortyTokens twentyThreeTokens = 57%Z
  /\ exactPercent 23 40 = 58%Z.
Proof. repeat split; vm_compute; reflexivity. Qed.

(** The hardware agrees: [(23 / 40) * 100] is below 57.5 in binary64. *)
Lemma binary64_23_40 :
  PrimFloat.ltb
    (PrimFloat.mul
       (PrimFloat.div (Binary64Check.float_of_Z 23) (Binary64Check.float_of_Z 40))
       (Binary64Check.float_of_Z 100))
    (PrimFloat.div (Binary64Check.float_of_Z 115) (Binary64Check.float_of_Z 2))
  = true.
Proof. vm_compute. reflexivity. Qed.

(** C9. The similarity is symmetric in its two arguments. *)
Theorem similarity_symmetric (a b : string) :
  calculateSimilarity a b = calculateSimilarity b a.
Proof. apply calculateSimilarity_sym. Qed.

End SimilarityClaims.

(** ** Claims on the section aligner *)

Module AlignerClaims.
Import AlignerSpec AlignerFacts ComponentFacts.

Lemma alignment_elem_pairs ps d t :
  (d, Some t) ∈ ComparisonView.alignment ps ->
  exists i p t', ps !! i = Some p /\ Sec.id (ComparisonView.draftSection p) = d
                 /\ ComparisonView.templateSection p = Some t' /\ Sec.id t' = t.
Proof.
  unfold ComparisonView.alignment. intros H.
  apply list_elem_of_fmap in H as (p & E & Hp). apply list_elem_of_lookup in Hp as (i & Hi).
  injection E as E1 E2. destruct (ComparisonView.templateSection p) as [t' |] eqn:Et;
    [| discriminate E2].
  simpl in E2. injection E2 as E2. exists i, p, t'. repeat split; congruence.
Qed.

Lemma alignment_elem_matches ms d t :
  (d, Some t) ∈ ReviewDashboard.alignment ms ->
  exists i m t', ms !! i = Some m /\ Sec.id (ReviewDashboard.draftSection m) = d
                 /\ ReviewDashboard.templateSection m = Some t' /\ Sec.id t' = t.
Proof.
  unfold ReviewDashboard.alignment. intros H.
  apply list_elem_of_fmap in H as (p & E & Hp). apply list_elem_of_lookup in Hp as (i & Hi).
  injection E as E1 E2. destruct (ReviewDashboard.templateSection p) as [t' |] eqn:Et;
    [| discriminate E2].
  simpl in E2. injection E2 as E2. exists i, p, t'. repeat split; congruence.
Qed.

(** C1, as amended. In the comparison view ([sectionPairs]) and in the
    review dashboard ([sectionMatches]) the draft-to-template map is
    injective on its non-null values: two draft identifiers mapped to the same
    template identifier are the same identifier. (The third variant,
    [matchSections], keeps no record of claimed template sections and is
    not injective: see [matchSections_not_injective].) *)
Theorem alignment_injective (T D : list Sec.t) (allIssues : list Issue.t)
  (resolvedSections : gset string) (d1 d2 t : string) :
  ((d1, Some t) ∈ ComparisonView.alignment (ComparisonView.sectionPairs T D allIssues) ->
   (d2, Some t) ∈ ComparisonView.alignment (ComparisonView.sectionPairs T D allIssues) ->
   d1 = d2)
  /\ ((d1, Some t)
        ∈ ReviewDashboard.alignment (ReviewDashboard.sectionMatches T D allIssues resolvedSections) ->
      (d2, Some t)
        ∈ ReviewDashboard.alignment (ReviewDashboard.sectionMatches T D allIssues resolvedSections) ->
      d1 = d2).
Proof.
  split; intros H1 H2.
  - apply alignment_elem_pairs in H1 as (i & p & t1 & Hi & Hd1 & Ht1 & E1).
    apply alignment_elem_pairs in H2 as (j & q & t2 & Hj & Hd2 & Ht2 & E2).
    destruct (Nat.eq_dec i j) as [-> | Hij]; [congruence |].
    exfalso. apply (sectionPairs_distinct _ _ _ _ _ _ _ _ _ Hi Hj Hij Ht1 Ht2). congruence.
  - apply alignment_elem_matches in H1 as (i & p & t1 & Hi & Hd1 & Ht1 & E1).
    apply alignment_elem_matches in H2 as (j & q & t2 & Hj & Hd2 & Ht2 & E2).
    destruct (Nat.eq_dec i j) as [-> | Hij]; [congruence |].
    exfalso. apply (sectionMatches_distinct _ _ _ _ _ _ _ _ _ _ Hi Hj Hij Ht1 Ht2). congruence.
Qed.

(** Two drafts compete for [t1]: the first takes it, the second is left
    unmatched, in both components. *)
Lemma alignment_injective_witness :
  ComparisonView.alignment (ComparisonView.sectionPairs [T1; T2] [D1; D2; D3] [])
  = [("d1", Some "t1"); ("d2", None); ("d3", None)]
  /\ ReviewDashboard.alignment (ReviewDashboard.sectionMatches [T1; T2] [D1; D2; D3] [] ∅)
     = [("d1", Some "t1"); ("d2", None); ("d3", None)]
  /\ "d1" = "d1".
Proof.
  assert (E1 : ComparisonView.alignment (ComparisonView.sectionPairs [T1; T2] [D1; D2; D3] [])
               = [("d1", Some "t1"); ("d2", None); ("d3", None)]) by (vm_compute; reflexivity).
  assert (E2 : ReviewDashboard.alignment (ReviewDashboard.sectionMatches [T1; T2] [D1; D2; D3] [] ∅)
               = [("d1", Some "t1"); ("d2", None); ("d3", None)]) by (vm_compute; reflexivity).
  split; [exact E1 |]. split; [exact E2 |].
  apply (proj1 (alignment_injective [T1; T2] [D1; D2; D3] [] ∅ "d1" "d1" "t1"));
    rewrite E1; apply list_elem_of_here.
Defined.

(** C1, the claim as stated fails for [matchSections]: both draft sections
    carry the number [1] and both are mapped to the template section [t1]. *)
Lemma matchSections_not_injective :
  DocxParser.matchSections [T1; T2] [D1; D2] !! "d1" = Some (Some "t1")
  /\ DocxParser.matchSections [T1; T2] [D1; D2] !! "d2" = Some (Some "t1")
  /\ "d1" <> "d2".
Proof. split; [| split]; [vm_compute; reflexivity | vm_compute; reflexivity | discriminate]. Qed.





(** C8. The alignment is a function of the two section lists alone: whatever
    the issues attached to the sections and whatever the set of sections
    marked as resolved, two runs on the same template and draft sections
    yield the same draft-to-template map. *)
Theorem alignment_deterministic (T D : list Sec.t) (allIssues allIssues' : list Issue.t)
  (resolvedSections resolvedSections' : gset string) :
  ComparisonView.alignment (ComparisonView.sectionPairs T D allIssues)
  = ComparisonView.alignment (ComparisonView.sectionPairs T D allIssues')
  /\ ReviewDashboard.alignment (ReviewDashboard.sectionMatches T D allIssues resolvedSections)
     = ReviewDashboard.alignment (ReviewDashboard.sectionMatches T D allIssues' resolvedSections').
Proof.
  split.
  - rewrite !alignment_pairs, !sectionPairs_align. reflexivity.
  - rewrite !alignment_matches, !sectionMatches_align. reflexivity.
Qed.

End AlignerClaims.

(** ** Claims on the segmenters *)

Module SegmenterClaims.
Import JsString SegmenterSpec SegmenterFacts.

(** C3, as amended. The bodies of the sections of the plain-text segmenter
    partition, in order, the non-header paragraphs of the text. The bodies of
    the sections of the HTML-aware segmenter partition, in order, the
    paragraphs that table-of-contents suppression lets through
    ([keptParagraphs]); when no paragraph is a table-of-contents heading
    these are all the non-header paragraphs. *)
Theorem segmenter_partition (uuidv4 : nat -> string) (text : string)
  (paragraphs : list string) :
  partitions (map Sec.body (DocxParserText.extractSections uuidv4 text))
    (bodyParagraphsText (DocxParserText.paragraphsOf text))
  /\ partitions (map Sec.body (DocxParser.extractSectionsFromHtml uuidv4 paragraphs))
       (keptParagraphs false false paragraphs)
  /\ (forallb (fun p => negb (DocxParser.isTocHeading (trim p))) paragraphs = true ->
      partitions (map Sec.body (DocxParser.extractSectionsFromHtml uuidv4 paragraphs))
        (bodyParagraphsHtml paragraphs)).
Proof.
  split; [apply extractSections_partition |].
  split; [apply extractSectionsFromHtml_partition |].
  intros H. rewrite <- (keptParagraphs_no_toc false paragraphs H).
  apply extractSectionsFromHtml_partition.
Qed.

(** A document without a table of contents: an introduction, a section with
    two body paragraphs and an empty section. *)
Lemma segmenter_partition_witness :
  forallb (fun p => negb (DocxParser.isTocHeading (trim p))) plainDocument = true
  /\ bodyParagraphsHtml plainDocument = ["Hello there"; "a b"; "c d"]
  /\ partitions (map Sec.body (DocxParser.extractSectionsFromHtml exampleUuid plainDocument))
       (bodyParagraphsHtml plainDocument).
Proof.
  assert (H : forallb (fun p => negb (DocxParser.isTocHeading (trim p))) plainDocument = true)
    by (vm_compute; reflexivity).
  split; [exact H |]. split; [vm_compute; reflexivity |].
  exact (proj2 (proj2 (segmenter_partition exampleUuid "" plainDocument)) H).
Defined.

(** C3, the claim as stated fails for the HTML-aware segmenter: after the
    heading [Table of Contents] the entry and the body paragraph that follow
    are left out, the only section has an empty body, and no grouping of the
    three non-header paragraphs gives the bodies. *)
Lemma html_segmenter_drops_paragraphs :
  map Sec.body (DocxParser.extractSectionsFromHtml exampleUuid tocDocument) = [""]
  /\ bodyParagraphsHtml tocDocument
     = ["Table of Contents"; "Executive Summary.....6"; "body text"]
  /\ ~ partitions (map Sec.body (DocxParser.extractSectionsFromHtml exampleUuid tocDocument))
         (bodyParagraphsHtml tocDocument).
Proof.
  assert (E1 : map Sec.body (DocxParser.extractSectionsFromHtml exampleUuid tocDocument) = [""])
    by (vm_compute; reflexivity).
  assert (E2 : bodyParagraphsHtml tocDocument
               = ["Table of Contents"; "Executive Summary.....6"; "body text"])
    by (vm_compute; reflexivity).
  split; [exact E1 |]. split; [exact E2 |].
  rewrite E1, E2. intros (gs & G1 & G2).
  destruct gs as [| g [| g' gs]]; try discriminate G1.
  cbn in G2. rewrite app_nil_r in G2. subst g.
  vm_compute in G1. discriminate G1.
Qed.

End SegmenterClaims.

(** ** Claim on the section level *)

Module LevelClaims.
Import JsString LevelSpec LevelFacts.

(** The part of the level rule that holds of every string: a token with
    n >= 1 full stops has level n + 1, and a roman numeral has level 1, in
    both parsers. *)
Lemma level_of_dots_and_roman (tok : string) :
  (1 <= DocxParserText.dotCount tok ->
   DocxParserText.calculateSectionLevel (Some tok) = DocxParserText.dotCount tok + 1
   /\ DocxParser.calculateSectionLevel (Some tok) = DocxParserText.dotCount tok + 1)
  /\ (DocxParserText.isRoman tok = true ->
      DocxParserText.calculateSectionLevel (Some tok) = 1
      /\ DocxParser.calculateSectionLevel (Some tok) = 1).
Proof.
  split.
  - intros D. unfold DocxParserText.calculateSectionLevel, DocxParser.calculateSectionLevel.
    change (DocxParser.dotCount tok) with (DocxParserText.dotCount tok).
    assert (N : nonEmpty tok = true) by (destruct tok; [cbn in D; lia | reflexivity]).
    assert (L : Nat.ltb 0 (DocxParserText.dotCount tok) = true) by (apply Nat.ltb_lt; lia).
    rewrite N, L. split; reflexivity.
  - intros R. unfold DocxParserText.calculateSectionLevel, DocxParser.calculateSectionLevel.
    change (DocxParser.dotCount tok) with (DocxParserText.dotCount tok).
    change (DocxParser.isRoman tok) with (DocxParserText.isRoman tok).
    rewrite R, (roman_no_dot tok R). cbn.
    destruct (nonEmpty tok); split; reflexivity.
Qed.

(** C4. The rule for parenthesized tokens is never applied.
    [calculateSectionLevel] gives level 3 to a token in parentheses, as its
    comment says it should, but the pattern for parenthesized headings
    captures the token without its parentheses. So the text [(a) Scope] is
    parsed into one section with number [a] and level 2, the level of a
    single letter, where the rule asks for level 3; likewise the headings
    [(1) Scope] and [(iv) Scope] get the numbers [1] and [iv] and level 1,
    and the HTML-aware parser does not take [(a) Scope] for a header at
    all. *)
Theorem parenthesized_level_unreached :
  DocxParserText.calculateSectionLevel (Some "(a)") = 3
  /\ map (fun s => (Sec.number s, Sec.title s, Sec.level s))
       (DocxParserText.extractSections (fun _ => "id") "(a) Scope")
     = [(Some "a", Some "Scope", 2)]
  /\ option_map (fun s => (Sec.number s, Sec.level s))
       (DocxParserText.parseParagraphAsSection "id" "(1) Scope" 0)
     = Some (Some "1", 1)
  /\ option_map (fun s => (Sec.number s, Sec.level s))
       (DocxParserText.parseParagraphAsSection "id" "(iv) Scope" 0)
     = Some (Some "iv", 1)
  /\ DocxParser.detectSectionHeader "(a) Scope" = None.
Proof. repeat split; vm_compute; reflexivity. Qed.

End LevelClaims.

(** ** Claims on the formatting differ *)

Module DifferClaims.
Import JsString FormattingAnalyzer DifferSpec DifferFacts.

(** C6, as amended. Every difference that carries a fix was found at the
    paragraph index it records, on the attribute its description names,
    where the compared values differ, and the fix holds template-side values
    only: for an alignment, spacing or indent difference exactly the
    compared attribute of the template paragraph and nothing else; for a
    bold, italic, font-size or font-family difference exactly that attribute
    of the template run at the position of the draft run the difference
    quotes, and nothing else; and for a style or heading difference the
    whole formatting record of the template paragraph. In particular a
    template run with bold set and size [s] against a draft run with bold
    unset and the same size, in paragraphs of equal formatting, gives
    exactly one difference: a font difference of medium severity whose fix
    sets bold and nothing else. *)
Theorem fix_from_template (numberToString : Q -> string)
  (templateSection draftSection : RichSection)
  (d : FormattingDifference) (f : Fix) (txt : string) (pf : ParagraphFormatting) (s : Q) :
  (In d (compareSectionFormatting numberToString (Some templateSection) draftSection) ->
   fix_ d = Some f ->
   exists i tPara dPara templateParas draftParas a tRun dRun,
     paragraphs templateSection = Some templateParas
     /\ paragraphs draftSection = Some draftParas
     /\ paragraphIndex (location d) = Some i
     /\ nth_error templateParas i = Some tPara
     /\ nth_error draftParas i = Some dPara
     /\ attributeOf d = Some a
     /\ (ofRuns a = true -> comparedRuns tPara dPara d tRun dRun)
     /\ differsOn a tPara dPara tRun dRun
     /\ templateSide a tPara tRun = Some (templateFormatting f))
  /\ compareSectionFormatting numberToString
       (Some (sectionWith "t" (Some [paragraphWith txt pf [runWith txt true s]])))
       (sectionWith "d" (Some [paragraphWith txt pf [runWith txt false s]]))
     = [{| type := dFont;
           description :=
             "Bold formatting differs for " ++ DQ ++ substring0 30 txt ++ "..." ++ DQ;
           templateValue := "Bold"; draftValue := "Normal";
           severity := medium;
           location := {| sectionId := "d"; paragraphIndex := Some 0;
                          textSnippet := Some (substring0 50 txt) |};
           fix_ := Some {| fixType := apply_template_font;
                           templateFormatting := inr (onlyBold (Some true)) |} |}].
Proof.
  split.
  - intros H Hf.
    destruct (compareSectionFormatting_reported _ _ _ _ H)
      as (tps & dps & Pt & Pd & [(i & tp & dp & N1 & N2 & R) | T]).
    + destruct R as (_ & L & a & A & _ & _ & _ & _ & tRun & dRun & C & D & _ & F).
      exists i, tp, dp, tps, dps, a, tRun, dRun.
      rewrite Hf in F. cbn in F.
      repeat (split; [assumption |]). symmetry. exact F.
    + destruct T as (_ & _ & _ & N & _). rewrite N in Hf. discriminate Hf.
  - unfold compareSectionFormatting, sectionWith, paragraphWith, runWith. cbn.
    unfold compareParagraphs, compareParagraphLevel, compareRuns. cbn.
    rewrite neqAlignment_refl, !neqString_refl, !neqNumber_refl, neq_refl. reflexivity.
Qed.

(** Scenario 5 of the specification: size 11 on both sides. *)
Lemma fix_from_template_witness :
  let t := sectionWith "t" (Some [paragraphWith "Fees" noParagraphFormatting
                                    [runWith "Fees" true 11]]) in
  let d := sectionWith "d" (Some [paragraphWith "Fees" noParagraphFormatting
                                    [runWith "Fees" false 11]]) in
  let x := {| type := dFont;
              description := "Bold formatting differs for " ++ DQ ++ "Fees..." ++ DQ;
              templateValue := "Bold"; draftValue := "Normal";
              severity := medium;
              location := {| sectionId := "d"; paragraphIndex := Some 0;
                             textSnippet := Some "Fees" |};
              fix_ := Some {| fixType := apply_template_font;
                              templateFormatting := inr (onlyBold (Some true)) |} |} in
  compareSectionFormatting showInteger (Some t) d = [x]
  /\ attributeOf x = Some aBold
  /\ exists i tPara dPara templateParas draftParas a tRun dRun,
       paragraphs t = Some templateParas
       /\ paragraphs d = Some draftParas
       /\ paragraphIndex (location x) = Some i
       /\ nth_error templateParas i = Some tPara
       /\ nth_error draftParas i = Some dPara
       /\ attributeOf x = Some a
       /\ (ofRuns a = true -> comparedRuns tPara dPara x tRun dRun)
       /\ differsOn a tPara dPara tRun dRun
       /\ templateSide a tPara tRun = Some (inr (onlyBold (Some true))).
Proof.
  intros t d x.
  assert (E : compareSectionFormatting showInteger (Some t) d = [x])
    by (vm_compute; reflexivity).
  split; [exact E |]. split; [reflexivity |].
  refine (proj1 (fix_from_template showInteger t d x _ "" noParagraphFormatting 0) _ eq_refl).
  rewrite E. left. reflexivity.
Defined.

(** C6, the claim as stated fails for a style difference: the style
    identifiers [Heading1] and [Normal] are compared, and the fix is the
    whole formatting record of the template paragraph, alignment included,
    not the compared style identifier. *)
Lemma style_fix_is_whole_formatting :
  compareSectionFormatting showInteger (Some templateStyled) draftStyled
  = [{| type := dStyle;
        description :=
          "Paragraph style differs: " ++ DQ ++ "Heading1" ++ DQ ++ " in template vs "
          ++ DQ ++ "Normal" ++ DQ ++ " in draft";
        templateValue := "Heading1"; draftValue := "Normal";
        severity := high;
        location := {| sectionId := "d1"; paragraphIndex := Some 0;
                       textSnippet := Some "Scope" |};
        fix_ := Some {| fixType := apply_template_style;
                        templateFormatting := inl (styledFormatting "Heading1") |} |}]
  /\ (inl (styledFormatting "Heading1") : ParagraphFormatting + TextRunFormatting)
     <> inl (onlyStyleId (Some "Heading1")).
Proof.
  split; [vm_compute; reflexivity |]. intros E. injection E as E. discriminate E.
Qed.

(** C10. With no template section, or with a template or draft section
    that has no paragraph list, the differ returns the empty list. *)
Theorem differ_outside_domain (numberToString : Q -> string)
  (templateSection : option RichSection) (draftSection : RichSection) :
  (templateSection = None \/ paragraphs draftSection = None
   \/ (exists t, templateSection = Some t /\ paragraphs t = None)) ->
  compareSectionFormatting numberToString templateSection draftSection = [].
Proof.
  intros [-> | [H | (t & -> & H)]]; unfold compareSectionFormatting.
  - reflexivity.
  - destruct templateSection as [t |]; [| reflexivity].
    rewrite H. destruct (paragraphs t); reflexivity.
  - rewrite H. reflexivity.
Qed.

Lemma differ_outside_domain_witness :
  compareSectionFormatting showInteger None draftStyled = []
  /\ compareSectionFormatting showInteger (Some templateStyled) (sectionWith "d1" None) = []
  /\ compareSectionFormatting showInteger (Some (sectionWith "t1" None)) draftStyled = [].
Proof.
  split; [| split].
  - apply (differ_outside_domain showInteger None draftStyled). left. reflexivity.
  - apply (differ_outside_domain showInteger (Some templateStyled) (sectionWith "d1" None)).
    right. left. reflexivity.
  - apply (differ_outside_domain showInteger (Some (sectionWith "t1" None)) draftStyled).
    right. right. exists (sectionWith "t1" None). split; reflexivity.
Defined.

End DifferClaims.

(** ** Claim on the per-section analyzer *)

Module AnalyzerClaims.
Import JsString OpenaiAnalyzer AnalyzerSpec AnalyzerFacts.

(** C7. When the call for a section fails (the client is not configured,
    the request fails in transport, the response is empty, the response does
    not parse, or the parsed reply lacks its list of issues) the analysis of
    that section is the neutral one: severity low, no issues. The
    batch is not cut short: whatever the service does, the section loop
    yields one analysis per draft section, in document order. *)
Theorem analyzer_failure_is_neutral (svc : Service) (uuidv4 : nat -> string)
  (uuids : nat -> nat -> string) (templateSection : option Sec.t) (newSection : Sec.t)
  (context : Context) (templateSow newSow : ParsedSOW) :
  (Failure svc (requestOf templateSection newSection context) ->
   analyzeSectionPair svc uuidv4 templateSection newSection context
   = minimalAnalysis templateSection newSection
   /\ severityOverall (analyzeSectionPair svc uuidv4 templateSection newSection context) = low
   /\ issues (analyzeSectionPair svc uuidv4 templateSection newSection context) = [])
  /\ map sectionId (fst (analyzeSections svc uuids templateSow newSow))
     = map Sec.id (sections newSow).
Proof.
  split.
  - intros F. destruct (failure_throws svc uuidv4 _ _ _ F) as [e E].
    unfold analyzeSectionPair. rewrite E. repeat split.
  - unfold analyzeSections.
    set (g := fun ns : nat * Sec.t =>
                analyzeSectionPair svc (uuids (fst ns))
                  (findTemplate (sections templateSow)
                     (DocxParser.matchSections (sections templateSow) (sections newSow)
                        !! Sec.id (snd ns)))
                  (snd ns)
                  {| projectName := match metadata newSow with
                                    | Some m => metaTitle m
                                    | None => None
                                    end;
                     contextCompany := Some "Company" |}).
    rewrite (analyses_fold g). rewrite batches_concat. cbn [app].
    rewrite map_map.
    assert (E : forall (l : list Sec.t) (k : nat),
               map (fun x => sectionId (g x)) (imap (fun n s => (k + n, s)) l) = map Sec.id l).
    { induction l as [| s l IH]; intros k; [reflexivity |].
      cbn. unfold g at 1. rewrite analyzeSectionPair_sectionId. cbn. f_equal.
      rewrite <- (IH (S k)). f_equal. apply imap_ext. intros n x _. cbn. f_equal. lia. }
    apply (E (sections newSow) 0).
Qed.

(** Two sections against a service that is down, and against one that
    answers with garbled text: both get the neutral analysis. *)
Lemma analyzer_failure_is_neutral_witness :
  Failure downService (requestOf None AlignerSpec.D1 {| projectName := None;
                                                          contextCompany := None |})
  /\ map (fun a => (sectionId a, severityOverall a, issues a))
       (fst (analyzeSections garbledService (fun _ _ => "issue")
               (sow "template.docx" [AlignerSpec.T1; AlignerSpec.T2])
               (sow "draft.docx" [AlignerSpec.D1; AlignerSpec.D3])))
     = [("d1", low, []); ("d3", low, [])]
  /\ severityOverall
       (analyzeSectionPair downService (fun _ => "issue") None AlignerSpec.D1
          {| projectName := None; contextCompany := None |}) = low.
Proof.
  assert (F : Failure downService
                (requestOf None AlignerSpec.D1 {| projectName := None;
                                                    contextCompany := None |})).
  { apply (TransportFailure _ _ "ETIMEDOUT"); reflexivity. }
  split; [exact F |]. split; [vm_compute; reflexivity |].
  exact (proj1 (proj2 (proj1 (analyzer_failure_is_neutral downService (fun _ => "issue")
                                (fun _ _ => "issue") None AlignerSpec.D1
                                {| projectName := None; contextCompany := None |}
                                (sow "t" []) (sow "d" [])) F))).
Defined.

End AnalyzerClaims.

(* ===================================================================== *)
(** * Part IV.  Further properties of the code                            *)
(* ===================================================================== *)

(** ** The backtracking matcher is sound *)

Module RegexFacts.
Import JsString Regex RegexSpec.

Lemma firstn_consumed {A : Type} (pre rest : list A) :
  firstn (length (pre ++ rest) - length rest) (pre ++ rest) = pre.
Proof.
  rewrite length_app. replace (length pre + length rest - length rest) with (length pre) by lia.
  rewrite firstn_app, Nat.sub_diag, firstn_all. cbn. apply app_nil_r.
Qed.

(** Whatever the continuation, a successful run has matched a prefix of the
    input and handed the rest, with the captures of the match, to the
    continuation. *)
Lemma run_sound r : forall s caps k c,
  run r s caps k = Some c ->
  exists pre rest c1, s = pre ++ rest /\ Matches r pre rest caps c1 /\ k rest c1 = Some c.
Proof.
  induction r as [| p | r1 IH1 r2 IH2 | r1 IH1 r2 IH2 | r IH | n r IH |]; intros s caps k c H.
  - exists [], s, caps. repeat split; [constructor | exact H].
  - destruct s as [| a s]; [discriminate H |]. cbn in H.
    destruct (p a) eqn:Pa; [| discriminate H].
    exists [a], s, caps. repeat split; [constructor; exact Pa | exact H].
  - cbn in H. apply IH1 in H as (p1 & rest1 & c1 & -> & M1 & H).
    apply IH2 in H as (p2 & rest2 & c2 & -> & M2 & H).
    exists (p1 ++ p2), rest2, c2. rewrite <- app_assoc.
    repeat split; [econstructor; eassumption | exact H].
  - cbn in H. destruct (run r1 s caps k) as [c' |] eqn:E.
    + injection H as <-. apply IH1 in E as (pre & rest & c1 & -> & M & K).
      exists pre, rest, c1. repeat split; [apply MAltL; exact M | exact K].
    + apply IH2 in H as (pre & rest & c1 & -> & M & K).
      exists pre, rest, c1. repeat split; [apply MAltR; exact M | exact K].
  - cbn -[Nat.ltb] in H. revert H. generalize (length s) as fuel. intros fuel. revert s caps.
    induction fuel as [| fuel IHf]; intros s caps H.
    + exists [], s, caps. repeat split; [constructor | exact H].
    + match type of H with
      | match ?X with _ => _ end = _ => destruct X as [c' |] eqn:E
      end.
      * injection H as <-. apply IH in E as (p1 & rest1 & c1 & -> & M1 & K).
        destruct (Nat.ltb (length rest1) (length (p1 ++ rest1))) eqn:L; [| discriminate K].
        apply Nat.ltb_lt in L. apply IHf in K as (p2 & rest2 & c2 & -> & M2 & K).
        exists (p1 ++ p2), rest2, c2. rewrite <- app_assoc.
        repeat split; [| exact K].
        apply MStarS with (c1 := c1); [| exact M1 | exact M2].
        intros ->. cbn in L. lia.
      * exists [], s, caps. repeat split; [constructor | exact H].
  - cbn in H. apply IH in H as (pre & rest & c1 & -> & M & K).
    rewrite firstn_consumed in K.
    exists pre, rest, ((n, pre) :: c1). repeat split; [constructor; exact M | exact K].
  - destruct s; [| discriminate H].
    exists [], [], caps. repeat split; [constructor | exact H].
Qed.

Lemma execAnchored_sound r s caps :
  execAnchored r s = Some caps -> exists pre rest, chars s = pre ++ rest /\ Matches r pre rest [] caps.
Proof.
  unfold execAnchored. intros H. apply run_sound in H as (pre & rest & c1 & E & M & K).
  injection K as <-. exists pre, rest. split; assumption.
Qed.

Lemma groupless_caps r pre rest c c' :
  Matches r pre rest c c' -> groupless r = true -> c' = c.
Proof.
  induction 1; cbn; intros G; try reflexivity; try discriminate G;
    try (apply andb_true_iff in G as [G1 G2]); eauto.
  - rewrite IHMatches2, IHMatches1 by assumption. reflexivity.
  - rewrite IHMatches2, IHMatches1 by assumption. reflexivity.
Qed.

(** A starred character class matches characters of the class only. *)
Lemma star_class p pre rest c c' :
  Matches (Star (Chr p)) pre rest c c' -> forallb p pre = true.
Proof.
  remember (Star (Chr p)) as r eqn:R. induction 1; try discriminate R.
  - reflexivity.
  - injection R as ->. rewrite forallb_app, (IHMatches2 eq_refl), andb_true_r.
    match goal with M : Matches (Chr p) _ _ _ _ |- _ => inversion M; subst end.
    cbn. match goal with E : p _ = true |- _ => rewrite E end. reflexivity.
Qed.

Lemma plus_class p pre rest c c' :
  Matches (Plus (Chr p)) pre rest c c' -> pre <> [] /\ forallb p pre = true.
Proof.
  unfold Plus. intros M. inversion M; subst.
  match goal with M1 : Matches (Chr p) _ _ _ _ |- _ => inversion M1; subst end.
  split; [discriminate |]. cbn.
  match goal with E : p _ = true |- _ => rewrite E end. cbn.
  eapply star_class; eassumption.
Qed.

End RegexFacts.

(** ** The numbering tokens the section patterns capture *)

Module ExtractionFacts.
Import JsString Regex RegexSpec RegexFacts LevelSpec.

Lemma chars_str (l : list ascii) : chars (str l) = l.
Proof. apply list_ascii_of_string_of_list_ascii. Qed.

Lemma nonEmpty_str (l : list ascii) : l <> [] -> nonEmpty (str l) = true.
Proof. destruct l; [congruence | reflexivity]. Qed.

Lemma digits_then (d l : list ascii) (b : bool) :
  d <> [] -> forallb isDigit d = true -> dottedChars b (d ++ l) = dottedChars false l.
Proof.
  revert b. induction d as [| a d IH]; intros b N F; [congruence |].
  cbn in F. apply andb_true_iff in F as [Fa Fd]. cbn. rewrite Fa.
  destruct d as [| a' d']; [reflexivity |]. apply IH; [discriminate | exact Fd].
Qed.

Lemma dotted_groups pre rest c c' :
  Matches (Star (Seq (lit ".") (Plus digit))) pre rest c c' -> dottedChars false pre = true.
Proof.
  remember (Star (Seq (lit ".") (Plus digit))) as r eqn:R. induction 1; try discriminate R.
  - reflexivity.
  - injection R as ->.
    match goal with M : Matches (Seq _ _) _ _ _ _ |- _ => inversion M; subst end.
    match goal with M : Matches (lit ".") _ _ _ _ |- _ => inversion M; subst end.
    match goal with M : Matches (Plus digit) _ _ _ _ |- _ =>
      apply plus_class in M as [N F] end.
    match goal with E : eqc _ _ = true |- _ => apply Ascii.eqb_eq in E; subst end.
    cbn. rewrite (digits_then _ _ true N F). apply IHMatches2. reflexivity.
Qed.

Lemma dottedNumber_token pre rest c c' :
  Matches DocxParser.dottedNumber pre rest c c' -> isDottedNumber (str pre) = true.
Proof.
  unfold DocxParser.dottedNumber. intros M. inversion M; subst.
  match goal with M1 : Matches (Plus digit) _ _ _ _ |- _ => apply plus_class in M1 as [N F] end.
  match goal with M2 : Matches (Star _) _ _ _ _ |- _ => apply dotted_groups in M2 end.
  unfold isDottedNumber. rewrite chars_str, (digits_then _ _ true N F). assumption.
Qed.

Lemma class_token (p : ascii -> bool) pre rest c c' :
  Matches (Plus (Chr p)) pre rest c c' ->
  nonEmpty (str pre) && forallb p (chars (str pre)) = true.
Proof.
  intros M. apply plus_class in M as [N F]. rewrite chars_str, F, (nonEmpty_str _ N). reflexivity.
Qed.

Lemma groupless_any r p q c c' :
  Matches r p q c c' -> groupless r = true -> forall d, Matches r p q d d.
Proof.
  induction 1; cbn; intros G d; try discriminate G;
    try (apply andb_true_iff in G as [Ga Gb]); eauto using Matches.
Qed.

(** The shape shared by the numbered patterns: a groupless head, the
    numbering token in group 1, a groupless middle, the title in group 2,
    and the end of the input. *)
Lemma two_groups head tok mid title pre rest caps :
  groupless head = true -> groupless tok = true -> groupless mid = true ->
  groupless title = true ->
  Matches (Seq head (Seq (Group 1 tok) (Seq mid (Seq (Group 2 title) Eoi)))) pre rest [] caps ->
  exists p1 r1 p2 r2,
    Matches tok p1 r1 [] [] /\ Matches title p2 r2 [] []
    /\ caps = [(2, p2); (1, p1)].
Proof.
  intros G0 G1 G2 G3 M.
  inversion M as [| | ? ? ph ? ? ? ch ? Mh M' | | | | | |]; subst.
  apply groupless_caps in Mh as ->; [| exact G0].
  inversion M' as [| | ? ? ? ? ? ? ? ? Mg M'' | | | | | |]; subst.
  inversion Mg as [| | | | | | | ? ? tokText ? ? ct Mt |]; subst.
  pose proof (groupless_caps _ _ _ _ _ Mt G1) as ->.
  inversion M'' as [| | ? ? ? ? ? ? cm ? Mm M3 | | | | | |]; subst.
  apply groupless_caps in Mm as ->; [| exact G2].
  inversion M3 as [| | ? ? ? ? ? ? ? ? Mg2 Me | | | | | |]; subst.
  inversion Mg2 as [| | | | | | | ? ? titleText ? ? ct2 Mt2 |]; subst.
  inversion Me; subst.
  pose proof (groupless_caps _ _ _ _ _ Mt2 G3) as ->.
  do 4 eexists. split; [exact Mt |].
  split; [exact (groupless_any _ _ _ _ _ Mt2 G3 []) | reflexivity].
Qed.

(** Inversion of a match of a sequence with capturing groups: the groupless
    parts leave the captures as they are. *)
Ltac invert_sequence :=
  repeat match goal with
  | M : Matches (Seq _ _) _ _ _ _ |- _ => inversion M; subst; clear M
  | M : Matches (Group _ _) _ _ _ _ |- _ => inversion M; subst; clear M
  | M : Matches Eoi _ _ _ _ |- _ => inversion M; subst; clear M
  end;
  repeat match goal with
  | M : Matches ?r _ _ ?c ?c' |- _ =>
      is_var c';
      let G := fresh in
      assert (G : c' = c) by (apply (groupless_caps _ _ _ _ _ M); reflexivity);
      subst c'
  end.

Ltac token_of H :=
  apply execAnchored_sound in H as (? & ? & _ & H); cbn [seqs] in H; invert_sequence.

Lemma numbered_token s caps :
  execAnchored
    (seqs [Group 1 DocxParser.dottedNumber; lit "."; Plus ws; Group 2 (Plus dot); Eoi]) s
  = Some caps ->
  exists tok, group 1 caps = Some tok /\ isDottedNumber tok = true.
Proof.
  intros H. token_of H. eexists. split; [reflexivity |].
  eapply dottedNumber_token; eassumption.
Qed.

Lemma section_token s caps :
  execAnchored
    (seqs [Alt (liti "SECTION") (liti "Section"); Plus ws; Group 1 DocxParser.dottedNumber;
           Opt (Chr (oneOf ":.")); Star ws; Group 2 (Star dot); Eoi]) s
  = Some caps ->
  exists tok, group 1 caps = Some tok /\ isDottedNumber tok = true.
Proof.
  intros H. token_of H. eexists. split; [reflexivity |].
  eapply dottedNumber_token; eassumption.
Qed.

Lemma article_token s caps :
  execAnchored
    (seqs [Alt (liti "ARTICLE") (liti "Article"); Plus ws;
           Group 1 (Plus (Chr (fun c => oneOfi "IVXLCDM" c || isDigit c)));
           Opt (Chr (oneOf ":.")); Star ws; Group 2 (Star dot); Eoi]) s
  = Some caps ->
  exists tok, group 1 caps = Some tok /\ isArticleToken tok = true.
Proof.
  intros H. token_of H. eexists. split; [reflexivity |].
  unfold isArticleToken. eapply class_token; eassumption.
Qed.

Lemma roman_token s caps :
  execAnchored
    (seqs [Group 1 (Plus (Chr (oneOfi "IVXLCDM"))); lit "."; Plus ws; Group 2 (Plus dot); Eoi]) s
  = Some caps ->
  exists tok, group 1 caps = Some tok /\ DocxParserText.isRoman tok = true.
Proof.
  intros H. token_of H. eexists. split; [reflexivity |].
  unfold DocxParserText.isRoman. eapply class_token; eassumption.
Qed.

Lemma letter_token s caps :
  execAnchored (seqs [Group 1 (Chr isUpper); lit "."; Plus ws; Group 2 (Plus dot); Eoi]) s
  = Some caps ->
  exists tok, group 1 caps = Some tok /\ isUpperLetter tok = true.
Proof.
  intros H. token_of H. eexists. split; [reflexivity |].
  match goal with M : Matches (Chr isUpper) _ _ _ _ |- _ => inversion M; subst end.
  unfold isUpperLetter. rewrite chars_str. assumption.
Qed.

Lemma parenthesized_token s caps :
  execAnchored
    (seqs [lit "("; Group 1 (Plus (Chr (fun c => isLetter c || isDigit c))); lit ")";
           Plus ws; Group 2 (Plus dot); Eoi]) s
  = Some caps ->
  exists tok, group 1 caps = Some tok /\ isAlphanumeric tok = true.
Proof.
  intros H. token_of H. eexists. split; [reflexivity |].
  unfold isAlphanumeric. eapply class_token; eassumption.
Qed.

(** The number of a header that [detectSectionHeader] recognises is a
    dotted number or an article token, and its title is not empty. *)
Lemma detectSectionHeader_token text h :
  DocxParser.detectSectionHeader text = Some h ->
  (forall n, DocxParser.hNumber h = Some n -> tokenOfHtml n = true)
  /\ nonEmpty (DocxParser.hTitle h) = true.
Proof.
  unfold DocxParser.detectSectionHeader.
  destruct (negb (nonEmpty (trim text)) || _ || _) eqn:G; [discriminate |].
  apply orb_false_iff in G as [G _]. apply orb_false_iff in G as [G _].
  apply negb_false_iff in G.
  destruct (DocxParser.isTocEntry (trim text)); [discriminate |].
  assert (T : forall caps,
             nonEmpty (default "Untitled" (DocxParser.trimmedGroup2 caps)) = true).
  { intros caps. unfold DocxParser.trimmedGroup2.
    destruct (group 2 caps) as [t |]; [| reflexivity].
    destruct (nonEmpty (trim t)) eqn:N; [exact N | reflexivity]. }
  unfold DocxParser.SECTION_PATTERNS. cbn [DocxParser.firstMatch].
  destruct (execAnchored _ (trim text)) as [caps |] eqn:E1.
  { intros [= <-]. cbn. split; [| apply T].
    apply numbered_token in E1 as (tok & -> & D). intros n [= <-].
    unfold tokenOfHtml. rewrite D. reflexivity. }
  clear E1.
  destruct (execAnchored _ (trim text)) as [caps |] eqn:E2.
  { intros [= <-]. cbn. split; [| apply T].
    apply section_token in E2 as (tok & -> & D). intros n [= <-].
    unfold tokenOfHtml. rewrite D. reflexivity. }
  clear E2.
  destruct (execAnchored _ (trim text)) as [caps |] eqn:E3.
  { intros [= <-]. cbn. split; [| apply T].
    apply article_token in E3 as (tok & -> & D). intros n [= <-].
    unfold tokenOfHtml. rewrite D. apply orb_true_r. }
  clear E3.
  destruct (Nat.ltb (len (trim text)) 60); [| discriminate].
  destruct (existsb _ _).
  { intros [= <-]. cbn. split; [discriminate | exact G]. }
  destruct (_ && _ && _); [| discriminate].
  intros [= <-]. cbn. split; [discriminate | exact G].
Qed.

(** The number of a section that [parseParagraphAsSection] builds is one of
    the tokens of the plain-text parser, its level is the level of that
    token, and its title, if any, is not empty. *)
Lemma parseParagraphAsSection_token id text index s :
  DocxParserText.parseParagraphAsSection id text index = Some s ->
  (forall n, Sec.number s = Some n -> tokenOfText n = true)
  /\ Sec.level s = DocxParserText.calculateSectionLevel (Sec.number s)
  /\ (forall t, Sec.title s = Some t -> nonEmpty t = true)
  /\ Sec.id s = id /\ Sec.startIndex s = Some (Z.of_nat index).
Proof.
  unfold DocxParserText.parseParagraphAsSection.
  destruct (negb (nonEmpty (trim text)) || _) eqn:G; [discriminate |].
  apply orb_false_iff in G as [G _]. apply negb_false_iff in G.
  assert (T : forall caps t, DocxParserText.trimmedGroup2 caps = Some t -> nonEmpty t = true).
  { intros caps t. unfold DocxParserText.trimmedGroup2, DocxParser.trimmedGroup2.
    destruct (group 2 caps) as [t' |]; [| discriminate].
    destruct (nonEmpty (trim t')) eqn:N; [| discriminate]. intros [= <-]. exact N. }
  unfold DocxParserText.SECTION_PATTERNS. cbn [DocxParser.firstMatch].
  destruct (execAnchored _ (trim text)) as [caps |] eqn:E1.
  { intros [= <-]. cbn. repeat split; [| apply T].
    apply numbered_token in E1 as (tok & -> & D). intros n [= <-].
    unfold tokenOfText. rewrite D. reflexivity. }
  clear E1.
  destruct (execAnchored _ (trim text)) as [caps |] eqn:E2.
  { intros [= <-]. cbn. repeat split; [| apply T].
    apply roman_token in E2 as (tok & -> & D). intros n [= <-].
    unfold tokenOfText. rewrite D. rewrite !orb_true_r. reflexivity. }
  clear E2.
  destruct (execAnchored _ (trim text)) as [caps |] eqn:E3.
  { intros [= <-]. cbn. repeat split; [| apply T].
    apply letter_token in E3 as (tok & -> & D). intros n [= <-].
    unfold tokenOfText. rewrite D. rewrite !orb_true_r. reflexivity. }
  clear E3.
  destruct (execAnchored _ (trim text)) as [caps |] eqn:E4.
  { intros [= <-]. cbn. repeat split; [| apply T].
    apply parenthesized_token in E4 as (tok & -> & D). intros n [= <-].
    unfold tokenOfText. rewrite D. rewrite !orb_true_r. reflexivity. }
  clear E4.
  destruct (execAnchored _ (trim text)) as [caps |] eqn:E5.
  { intros [= <-]. cbn. repeat split; [| apply T].
    apply section_token in E5 as (tok & -> & D). intros n [= <-].
    unfold tokenOfText. rewrite D. reflexivity. }
  clear E5.
  destruct (execAnchored _ (trim text)) as [caps |] eqn:E6.
  { intros [= <-]. cbn. repeat split; [| apply T].
    apply article_token in E6 as (tok & -> & D). intros n [= <-].
    unfold tokenOfText. rewrite D. rewrite !orb_true_r. reflexivity. }
  clear E6.
  destruct (_ && _); [| discriminate].
  intros [= <-]. cbn. repeat split; [discriminate |]. intros t [= <-]. exact G.
Qed.

End ExtractionFacts.

(** ** Invariants of the two segmentation loops *)

Module SectionFacts.
Import JsString LevelSpec SectionSpec ExtractionFacts.

#[local] Arguments DocxParserText.parseParagraphAsSection : simpl never.
#[local] Arguments DocxParser.detectSectionHeader : simpl never.
#[local] Arguments DocxParser.isTocEntry : simpl never.
#[local] Arguments DocxParser.isTocHeading : simpl never.
#[local] Arguments DocxParser.calculateSectionLevel : simpl never.
#[local] Arguments trim : simpl never.
#[local] Arguments nonEmpty : simpl never.
#[local] Arguments len : simpl never.
#[local] Arguments join : simpl never.

Lemma seq_snoc (n : nat) : seq 0 (S n) = seq 0 n ++ [n].
Proof. rewrite seq_S. reflexivity. Qed.

Lemma tiled_snoc lo a b R s :
  tiled lo a R -> Sec.startIndex s = Some a -> Sec.endIndex s = Some b -> (a <= b)%Z ->
  tiled lo (b + 1) (R ++ [s]).
Proof.
  revert lo. induction R as [| r R IH]; intros lo T Hs He Hab.
  - cbn in T. subst a. cbn. exists b. repeat split; assumption.
  - cbn in T. destruct T as (b' & S1 & E1 & L1 & T). cbn.
    exists b'. repeat split; try assumption. apply IH; assumption.
Qed.

(** *** The plain-text loop *)

(** The three ways a turn of the loop on a non-blank paragraph goes. *)
Lemma text_step_cases uuidv4 st p :
  nonEmpty (trim p) = true ->
  (exists sec,
     DocxParserText.parseParagraphAsSection (uuidv4 (DocxParserText.fresh st)) (trim p)
       (DocxParserText.i st) = Some sec
     /\ DocxParserText.step uuidv4 st p
        = {| DocxParserText.sections :=
               DocxParserText.close (DocxParserText.currentSection st)
                 (DocxParserText.currentBody st) (Z.of_nat (DocxParserText.i st) - 1)
                 (DocxParserText.sections st);
             DocxParserText.currentSection := Some sec;
             DocxParserText.currentBody := [];
             DocxParserText.i := S (DocxParserText.i st);
             DocxParserText.fresh := S (DocxParserText.fresh st) |})
  \/ (exists c,
        DocxParserText.currentSection st = Some c
        /\ DocxParserText.step uuidv4 st p
           = {| DocxParserText.sections := DocxParserText.sections st;
                DocxParserText.currentSection := Some c;
                DocxParserText.currentBody := DocxParserText.currentBody st ++ [trim p];
                DocxParserText.i := S (DocxParserText.i st);
                DocxParserText.fresh := DocxParserText.fresh st |})
  \/ (DocxParserText.currentSection st = None
      /\ DocxParserText.step uuidv4 st p
         = {| DocxParserText.sections := DocxParserText.sections st;
              DocxParserText.currentSection :=
                Some (Sec.mk (uuidv4 (DocxParserText.fresh st)) None (Some "Introduction") 1 ""
                        (Some (Z.of_nat (DocxParserText.i st))) None);
              DocxParserText.currentBody := [trim p];
              DocxParserText.i := S (DocxParserText.i st);
              DocxParserText.fresh := S (DocxParserText.fresh st) |}).
Proof.
  intros Ne. unfold DocxParserText.step. rewrite Ne. cbn [negb].
  destruct (if Nat.ltb (len (trim p)) 200
            then DocxParserText.parseParagraphAsSection (uuidv4 (DocxParserText.fresh st))
                   (trim p) (DocxParserText.i st)
            else None) as [sec |] eqn:E.
  - left. exists sec. split; [| reflexivity].
    destruct (Nat.ltb (len (trim p)) 200); [exact E | discriminate E].
  - destruct (DocxParserText.currentSection st) as [c |] eqn:Ec.
    + right. left. exists c. split; reflexivity.
    + right. right. split; reflexivity.
Qed.

Lemma wellFormedText_close c b e :
  wellFormedText c ->
  wellFormedText (Sec.mk (Sec.id c) (Sec.number c) (Sec.title c) (Sec.level c) b
                    (Sec.startIndex c) e).
Proof. intros H. exact H. Qed.

Lemma text_close_inv uuidv4 st n :
  textInv uuidv4 st -> DocxParserText.i st = n ->
  let R := DocxParserText.close (DocxParserText.currentSection st)
             (DocxParserText.currentBody st) (Z.of_nat n - 1) (DocxParserText.sections st) in
  map Sec.id R = map uuidv4 (seq 0 (DocxParserText.fresh st))
  /\ Forall wellFormedText R
  /\ tiled 0 (Z.of_nat n) R.
Proof.
  intros (I & W & C) Hn. unfold DocxParserText.close.
  destruct (DocxParserText.currentSection st) as [c |]; cbn.
  - destruct C as (Wc & a & Sa & La & T).
    rewrite map_app. cbn. split; [exact I |].
    split; [apply Forall_app; split; [exact W | constructor; [exact Wc | constructor]] |].
    match goal with |- tiled _ _ (_ ++ [?s]) =>
      pose proof (tiled_snoc 0 (Z.of_nat a) (Z.of_nat n - 1) _ s T Sa eq_refl ltac:(lia)) as TT
    end.
    replace (Z.of_nat n - 1 + 1)%Z with (Z.of_nat n) in TT by lia. exact TT.
  - destruct C as (E & Hi). rewrite E in *. cbn in I.
    split; [exact I |]. split; [constructor |]. cbn. lia.
Qed.

Lemma text_step_inv uuidv4 st p :
  nonEmpty (trim p) = true -> textInv uuidv4 st -> textInv uuidv4 (DocxParserText.step uuidv4 st p).
Proof.
  intros Ne Inv.
  destruct (text_step_cases uuidv4 st p Ne) as [(sec & P & ->) | [(c & Ec & ->) | (Ec & ->)]].
  - destruct (text_close_inv uuidv4 st _ Inv eq_refl) as (I & W & T).
    apply parseParagraphAsSection_token in P as (P1 & P2 & P3 & P4 & P5).
    unfold textInv. cbn [DocxParserText.sections DocxParserText.currentSection
                           DocxParserText.i DocxParserText.fresh].
    split; [| split; [exact W | split; [repeat split; assumption |]]].
    + cbn [openId]. rewrite I, seq_snoc, map_app, P4. reflexivity.
    + exists (DocxParserText.i st). split; [exact P5 |]. split; [lia | exact T].
  - destruct Inv as (I & W & C). rewrite Ec in *.
    unfold textInv. cbn [DocxParserText.sections DocxParserText.currentSection
                           DocxParserText.i DocxParserText.fresh].
    split; [exact I |]. split; [exact W |].
    destruct C as (Wc & a & Sa & La & T). split; [exact Wc |].
    exists a. repeat split; [exact Sa | lia | exact T].
  - destruct Inv as (I & W & C). rewrite Ec in *. destruct C as (E & Hi).
    unfold textInv. cbn [DocxParserText.sections DocxParserText.currentSection
                           DocxParserText.i DocxParserText.fresh].
    rewrite E in *. cbn in I.
    split; [cbn [map app openId Sec.id]; rewrite seq_snoc, map_app, <- I; reflexivity |].
    split; [constructor |]. split.
    + repeat split; cbn; [discriminate | intros t [= <-]; reflexivity].
    + exists 0. rewrite Hi. cbn. repeat split; lia.
Qed.

Lemma text_loop_inv uuidv4 ps st :
  Forall (fun p => nonEmpty (trim p) = true) ps -> textInv uuidv4 st ->
  textInv uuidv4 (fold_left (DocxParserText.step uuidv4) ps st)
  /\ DocxParserText.i (fold_left (DocxParserText.step uuidv4) ps st)
     = DocxParserText.i st + length ps.
Proof.
  intros F. revert st. induction F as [| p ps Hp F IH]; intros st Inv.
  - cbn. split; [exact Inv | lia].
  - cbn [fold_left]. destruct (IH _ (text_step_inv uuidv4 st p Hp Inv)) as (I1 & I2).
    split; [exact I1 |]. rewrite I2. cbn [length].
    assert (DocxParserText.i (DocxParserText.step uuidv4 st p) = S (DocxParserText.i st)).
    { unfold DocxParserText.step. destruct (negb (nonEmpty (trim p))); [reflexivity |].
      destruct (if Nat.ltb (len (trim p)) 200 then _ else _); [reflexivity |].
      destruct (DocxParserText.currentSection st); reflexivity. }
    lia.
Qed.

Lemma paragraphsOf_nonblank text :
  Forall (fun p => nonEmpty (trim p) = true) (DocxParserText.paragraphsOf text).
Proof.
  unfold DocxParserText.paragraphsOf. apply Forall_forall. intros p H.
  apply list_elem_of_In, filter_In in H as [_ H]. exact H.
Qed.

Lemma extractSections_inv uuidv4 text :
  let R := DocxParserText.extractSections uuidv4 text in
  map Sec.id R = map uuidv4 (seq 0 (length R))
  /\ Forall wellFormedText R
  /\ tiled 0 (Z.of_nat (length (DocxParserText.paragraphsOf text))) R.
Proof.
  unfold DocxParserText.extractSections.
  assert (Inv0 : textInv uuidv4 DocxParserText.start).
  { unfold textInv. cbn. repeat split; constructor. }
  destruct (text_loop_inv uuidv4 _ _ (paragraphsOf_nonblank text) Inv0) as (Inv & Hi).
  cbn in Hi.
  destruct (text_close_inv uuidv4 _ _ Inv Hi) as (I & W & T).
  cbn zeta. split; [| split; [exact W | exact T]].
  rewrite I. f_equal. f_equal.
  apply (f_equal (@length string)) in I. rewrite !length_map, length_seq in I. lia.
Qed.

(** *** The HTML-aware loop *)

Lemma html_close_inv uuidv4 st :
  htmlInv uuidv4 st ->
  let R := DocxParser.close (DocxParser.currentSection st) (DocxParser.currentBody st)
             (DocxParser.sections st) in
  map Sec.id R = map uuidv4 (seq 0 (DocxParser.fresh st))
  /\ Forall wellFormedHtml R
  /\ (forall k s, R !! k = Some s ->
        Sec.startIndex s = Some (Z.of_nat k) /\ Sec.endIndex s = None).
Proof.
  intros (I & W & P & C). unfold DocxParser.close.
  destruct (DocxParser.currentSection st) as [c |]; cbn.
  - destruct C as (Wc & Sc & Ec). rewrite map_app. cbn. split; [exact I |].
    split; [apply Forall_app; split; [exact W | constructor; [exact Wc | constructor]] |].
    intros k s H. apply lookup_app_Some in H as [H | [L H]]; [apply P; exact H |].
    apply list_lookup_singleton_Some in H as [H <-]. cbn.
    replace k with (length (DocxParser.sections st)) by lia. split; assumption.
  - subst. cbn in I. rewrite app_nil_r in I. split; [exact I |].
    split; [exact W | exact P].
Qed.

Lemma html_step_inv uuidv4 st p :
  htmlInv uuidv4 st -> htmlInv uuidv4 (DocxParser.step uuidv4 st p).
Proof.
  intros Inv. unfold DocxParser.step.
  destruct (negb (nonEmpty (trim p))); [exact Inv |].
  destruct (DocxParser.isTocHeading (trim p)); [exact Inv |].
  destruct (DocxParser.tocSectionDetected st && DocxParser.isTocEntry (trim p)); [exact Inv |].
  destruct (DocxParser.detectSectionHeader (trim p)) as [h |] eqn:Eh.
  - destruct (html_close_inv uuidv4 st Inv) as (I & W & P).
    apply detectSectionHeader_token in Eh as (H1 & H2).
    unfold htmlInv. cbn [DocxParser.sections DocxParser.currentSection DocxParser.fresh].
    split; [rewrite I, seq_snoc, map_app; reflexivity |].
    split; [exact W |]. split; [exact P |].
    repeat split; cbn; [exact H1 | eexists; split; [reflexivity | exact H2]].
  - destruct Inv as (I & W & P & C).
    destruct (DocxParser.currentSection st) as [c |] eqn:Ec.
    + unfold htmlInv. cbn [DocxParser.sections DocxParser.currentSection DocxParser.fresh].
      split; [exact I |]. split; [exact W |]. split; [exact P | exact C].
    + unfold htmlInv.
      cbn [DocxParser.sections DocxParser.currentSection DocxParser.fresh].
      rewrite C in *. cbn in I.
      split; [cbn [map app openId Sec.id]; rewrite seq_snoc, map_app, <- I; reflexivity |].
      split; [constructor |]. split; [intros k s H; discriminate H |].
      repeat split; cbn; [discriminate | eexists; split; reflexivity].
Qed.

Lemma extractSectionsFromHtml_inv uuidv4 paragraphs :
  let R := DocxParser.extractSectionsFromHtml uuidv4 paragraphs in
  map Sec.id R = map uuidv4 (seq 0 (length R))
  /\ Forall wellFormedHtml R
  /\ (forall k s, R !! k = Some s ->
        Sec.startIndex s = Some (Z.of_nat k) /\ Sec.endIndex s = None).
Proof.
  unfold DocxParser.extractSectionsFromHtml.
  assert (Inv : htmlInv uuidv4 (fold_left (DocxParser.step uuidv4) paragraphs DocxParser.start)).
  { assert (Inv0 : htmlInv uuidv4 DocxParser.start).
    { unfold htmlInv. cbn. split; [reflexivity |]. split; [constructor |].
      split; [| reflexivity]. intros k s H. discriminate H. }
    revert Inv0. generalize DocxParser.start.
    induction paragraphs as [| p ps IH]; intros st Inv0; [exact Inv0 |].
    cbn [fold_left]. apply IH, html_step_inv, Inv0. }
  destruct (html_close_inv uuidv4 _ Inv) as (I & W & P).
  cbn zeta. split; [| split; [exact W | exact P]].
  rewrite I. f_equal. f_equal.
  apply (f_equal (@length string)) in I. rewrite !length_map, length_seq in I. lia.
Qed.

Lemma distinctUuid_inj (m n : nat) : distinctUuid m = distinctUuid n -> m = n.
Proof.
  unfold distinctUuid. intros H. apply (f_equal chars) in H.
  rewrite !chars_str in H. apply (f_equal (@length ascii)) in H.
  rewrite !repeat_length in H. lia.
Qed.

Lemma ids_distinct (uuidv4 : nat -> string) (n : nat) :
  (forall i j, uuidv4 i = uuidv4 j -> i = j) -> NoDup (map uuidv4 (seq 0 n)).
Proof.
  intros Inj. apply NoDup_fmap_2; [intros i j; apply Inj | apply NoDup_seq].
Qed.

End SectionFacts.

(** ** Properties of the sections the segmenters produce *)

Module SegmenterProperties.
Import JsString LevelSpec SectionSpec ExtractionFacts SectionFacts LevelFacts.

Lemma roman_is_letter (c : ascii) : Regex.oneOfi "IVXLCDM" c = true -> isLetter c = true.
Proof.
  destruct c as [b0 b1 b2 b3 b4 b5 b6 b7].
  destruct b0, b1, b2, b3, b4, b5, b6, b7; vm_compute; intros H;
    first [reflexivity | discriminate H].
Qed.

(** A numbering token starts with a letter or a digit. *)
Lemma token_first_char tok :
  tokenOfText tok = true ->
  match chars tok with
  | c :: _ => isLetter c || isDigit c = true
  | [] => False
  end.
Proof.
  unfold tokenOfText. intros H. repeat (apply orb_true_iff in H as [H | H]).
  - pose proof (dotted_first_char _ _ H eq_refl) as D.
    destruct (chars tok) as [| c l]; [exact D |]. rewrite D. apply orb_true_r.
  - unfold DocxParserText.isRoman in H. rewrite chars_nonEmpty in H.
    destruct (chars tok) as [| c l]; [discriminate H |]. cbn in H.
    apply andb_true_iff in H as [H _]. rewrite (roman_is_letter c H). reflexivity.
  - unfold isUpperLetter in H. destruct (chars tok) as [| c [| c' l]]; try discriminate H.
    unfold isLetter. rewrite H. reflexivity.
  - unfold isAlphanumeric in H. rewrite chars_nonEmpty in H.
    destruct (chars tok) as [| c l]; [discriminate H |]. cbn in H.
    apply andb_true_iff in H as [H _]. exact H.
  - unfold isArticleToken in H. rewrite chars_nonEmpty in H.
    destruct (chars tok) as [| c l]; [discriminate H |]. cbn in H.
    apply andb_true_iff in H as [H _]. apply orb_true_iff in H as [H | H].
    + rewrite (roman_is_letter c H). reflexivity.
    + rewrite H. apply orb_true_r.
Qed.

Lemma token_not_parenthetical tok :
  tokenOfText tok = true -> DocxParserText.isParenthetical tok = false.
Proof.
  intros H. apply token_first_char in H. unfold DocxParserText.isParenthetical.
  destruct (chars tok) as [| c l]; [reflexivity |].
  destruct (eqc c "(") eqn:E; [| reflexivity].
  apply Ascii.eqb_eq in E. subst c. discriminate H.
Qed.

(** X1. Every section of the plain-text segmenter has a well-formed header:
    its number, if any, is one of the tokens the six patterns capture and is
    never parenthesized; its level is the level of the specification for
    that token (1 without a number) and is at least 1; and it has level 3
    only when its number holds exactly two full stops. So the parenthetical
    rule of [calculateSectionLevel] never decides the level of a section. *)
Theorem text_sections_well_numbered (uuidv4 : nat -> string) (text : string) (s : Sec.t) :
  In s (DocxParserText.extractSections uuidv4 text) ->
  (forall n, Sec.number s = Some n ->
     tokenOfText n = true /\ DocxParserText.isParenthetical n = false
     /\ Sec.level s = levelSpec n)
  /\ (Sec.number s = None -> Sec.level s = 1)
  /\ 1 <= Sec.level s
  /\ (Sec.level s = 3 ->
      exists n, Sec.number s = Some n /\ DocxParserText.dotCount n = 2).
Proof.
  intros H. destruct (extractSections_inv uuidv4 text) as (_ & W & _).
  rewrite List.Forall_forall in W. destruct (W s H) as (W1 & W2 & _). clear W H.
  destruct (Sec.number s) as [n |] eqn:En.
  - specialize (W1 n eq_refl). pose proof (token_not_parenthetical n W1) as NP.
    assert (L : Sec.level s = levelSpec n) by (rewrite W2; apply level_text_spec, W1).
    split; [intros n' [= <-]; repeat split; assumption |].
    split; [discriminate |].
    unfold DocxParserText.calculateSectionLevel in W2. rewrite NP in W2.
    destruct (nonEmpty n); cbn [negb] in W2.
    + destruct (Nat.ltb 0 (DocxParserText.dotCount n)) eqn:D.
      * split; [lia |]. intros E. exists n. split; [reflexivity | lia].
      * destruct (DocxParserText.isRoman n); [split; [lia | intros E; lia] |].
        destruct (DocxParserText.isSingleLetter n); split; try lia; intros E; lia.
    + split; [lia | intros E; lia].
  - cbn in W2. split; [discriminate |]. split; [intros _; exact W2 |].
    split; [lia | intros E; lia].
Qed.

Lemma text_sections_well_numbered_witness :
  let R := DocxParserText.extractSections distinctUuid
             ("Preamble" ++ String LF "1.2.3. Deep" ++ String LF "(a) Scope of it") in
  map (fun s => (Sec.number s, Sec.level s)) R
  = [(None, 1); (Some "1.2.3", 3); (Some "a", 2)]
  /\ exists n, Sec.number (nth 1 R (Sec.mk "" None None 0 "" None None)) = Some n
               /\ DocxParserText.dotCount n = 2.
Proof.
  intros R.
  assert (E : map (fun s => (Sec.number s, Sec.level s)) R
              = [(None, 1); (Some "1.2.3", 3); (Some "a", 2)]) by (vm_compute; reflexivity).
  split; [exact E |].
  apply (text_sections_well_numbered distinctUuid
           ("Preamble" ++ String LF "1.2.3. Deep" ++ String LF "(a) Scope of it")).
  - fold R. apply nth_In. vm_compute. lia.
  - vm_compute. reflexivity.
Defined.

(** X2. Every section of the HTML-aware segmenter has a title that is not
    empty; its number, if any, is a dotted number or an article token; and
    its level is the number of full stops of its number plus one (1 without
    a number). *)
Theorem html_sections_well_formed (uuidv4 : nat -> string) (paragraphs : list string)
  (s : Sec.t) :
  In s (DocxParser.extractSectionsFromHtml uuidv4 paragraphs) ->
  (exists t, Sec.title s = Some t /\ nonEmpty t = true)
  /\ (forall n, Sec.number s = Some n ->
       tokenOfHtml n = true /\ Sec.level s = DocxParser.dotCount n + 1
       /\ Sec.level s = levelSpec n)
  /\ (Sec.number s = None -> Sec.level s = 1).
Proof.
  intros H. destruct (extractSectionsFromHtml_inv uuidv4 paragraphs) as (_ & W & _).
  rewrite List.Forall_forall in W. destruct (W s H) as (W1 & W2 & W3). clear W H.
  split; [exact W3 |]. split.
  - intros n En. rewrite En in W2. specialize (W1 n En). repeat split; [exact W1 | |].
    + rewrite W2. unfold DocxParser.calculateSectionLevel.
      destruct (nonEmpty n) eqn:N; cbn [negb].
      * destruct (Nat.ltb 0 (DocxParser.dotCount n)) eqn:D; [reflexivity |].
        apply Nat.ltb_ge in D. destruct (DocxParser.isRoman n); lia.
      * destruct n; [reflexivity | discriminate N].
    + rewrite W2. apply level_html_spec, W1.
  - intros En. rewrite En in W2. exact W2.
Qed.

Lemma html_sections_well_formed_witness :
  let R := DocxParser.extractSectionsFromHtml distinctUuid
             ["Preamble"; "Section 2.1"; "body"; "ARTICLE IV: Fees"] in
  map (fun s => (Sec.number s, Sec.title s, Sec.level s)) R
  = [(None, Some "Introduction", 1); (Some "2.1", Some "Untitled", 2);
     (Some "IV", Some "Fees", 1)]
  /\ exists t, Sec.title (nth 1 R (Sec.mk "" None None 0 "" None None)) = Some t
               /\ nonEmpty t = true.
Proof.
  intros R.
  assert (E : map (fun s => (Sec.number s, Sec.title s, Sec.level s)) R
              = [(None, Some "Introduction", 1); (Some "2.1", Some "Untitled", 2);
                 (Some "IV", Some "Fees", 1)]) by (vm_compute; reflexivity).
  split; [exact E |].
  apply (html_sections_well_formed distinctUuid
           ["Preamble"; "Section 2.1"; "body"; "ARTICLE IV: Fees"]).
  fold R. apply nth_In. vm_compute. lia.
Defined.

(** X3. In both segmenters the sections carry, in order, the first
    identifiers the generator returns, one each; with a generator that never
    repeats itself no two sections share an identifier. *)
Theorem section_ids_fresh (uuidv4 : nat -> string) (text : string)
  (paragraphs : list string) :
  let Rt := DocxParserText.extractSections uuidv4 text in
  let Rh := DocxParser.extractSectionsFromHtml uuidv4 paragraphs in
  map Sec.id Rt = map uuidv4 (seq 0 (length Rt))
  /\ map Sec.id Rh = map uuidv4 (seq 0 (length Rh))
  /\ ((forall i j, uuidv4 i = uuidv4 j -> i = j) ->
      NoDup (map Sec.id Rt) /\ NoDup (map Sec.id Rh)).
Proof.
  intros Rt Rh.
  destruct (extractSections_inv uuidv4 text) as (It & _).
  destruct (extractSectionsFromHtml_inv uuidv4 paragraphs) as (Ih & _).
  split; [exact It |]. split; [exact Ih |]. intros Inj.
  subst Rt Rh. rewrite It, Ih. split; apply ids_distinct, Inj.
Qed.

Lemma section_ids_fresh_witness :
  (forall i j, distinctUuid i = distinctUuid j -> i = j)
  /\ map Sec.id (DocxParser.extractSectionsFromHtml distinctUuid ["Preamble"; "1. Scope"; "x"])
     = ["x"; "xx"]
  /\ NoDup (map Sec.id
              (DocxParser.extractSectionsFromHtml distinctUuid ["Preamble"; "1. Scope"; "x"])).
Proof.
  split; [exact distinctUuid_inj |]. split; [vm_compute; reflexivity |].
  exact (proj2 (proj2 (proj2 (section_ids_fresh distinctUuid ""
                                ["Preamble"; "1. Scope"; "x"])) distinctUuid_inj)).
Defined.

(** X4. In the plain-text segmenter the index ranges of the sections tile
    the list of paragraphs: the first section starts at paragraph 0, each
    section ends just before the next one starts, no range is empty, and the
    last section ends at the last paragraph. Without paragraphs there is no
    section. *)
Theorem text_sections_tile_paragraphs (uuidv4 : nat -> string) (text : string) :
  tiled 0 (Z.of_nat (length (DocxParserText.paragraphsOf text)))
    (DocxParserText.extractSections uuidv4 text)
  /\ (DocxParserText.extractSections uuidv4 text = []
      <-> DocxParserText.paragraphsOf text = []).
Proof.
  destruct (extractSections_inv uuidv4 text) as (_ & _ & T). split; [exact T |].
  split; intros E.
  - rewrite E in T. cbn in T. destruct (DocxParserText.paragraphsOf text); [reflexivity |].
    cbn in T. lia.
  - unfold DocxParserText.extractSections. rewrite E. reflexivity.
Qed.

(** X5. In the HTML-aware segmenter [startIndex] is the position of the
    section in the result, not a paragraph index, and [endIndex] is never
    set. *)
Theorem html_sections_start_index (uuidv4 : nat -> string) (paragraphs : list string)
  (k : nat) (s : Sec.t) :
  DocxParser.extractSectionsFromHtml uuidv4 paragraphs !! k = Some s ->
  Sec.startIndex s = Some (Z.of_nat k) /\ Sec.endIndex s = None.
Proof.
  intros H. destruct (extractSectionsFromHtml_inv uuidv4 paragraphs) as (_ & _ & P).
  apply (P k s H).
Qed.

Lemma html_sections_start_index_witness :
  map (fun s => (Sec.startIndex s, Sec.endIndex s))
    (DocxParser.extractSectionsFromHtml distinctUuid
       ["Preamble"; "more"; "1. Scope"; "x"; "y"; "2. Fees"])
  = [(Some 0%Z, None); (Some 1%Z, None); (Some 2%Z, None)]
  /\ Sec.startIndex (Sec.mk "xxx" (Some "2") (Some "Fees") 1 "" (Some 2%Z) None) = Some 2%Z.
Proof.
  split; [vm_compute; reflexivity |].
  apply (html_sections_start_index distinctUuid
           ["Preamble"; "more"; "1. Scope"; "x"; "y"; "2. Fees"] 2).
  vm_compute. reflexivity.
Defined.

End SegmenterProperties.

(** ** The matcher of [docxParser.ts] *)

Module MatcherFacts.
Import JsString AlignerSpec AlignerFacts MatcherSpec.

(** The best candidate found by the inner loop is the first best one. *)
Lemma bestWith_first score used d T b :
  fst (bestWith score used T d) = Some b ->
  exists i, firstBest score T used d b i /\ snd (bestWith score used T d) = score d b.
Proof.
  unfold bestWith. revert b. induction T as [| t T IH] using rev_ind; intros b H.
  - discriminate H.
  - pose proof (bestWith_spec score used d T) as B. unfold bestWith in B.
    rewrite fold_left_app in H |- *. cbn [fold_left] in H |- *.
    destruct (fold_left (considerWith score used d) T (None, 0%Q)) as [bm bs] eqn:E.
    unfold considerWith in H |- *. cbv zeta in H |- *. cbn [snd fst] in H |- *.
    assert (Keep : bm = Some b ->
              exists i : nat, firstBest score (T ++ [t]) used d b i /\ bs = score d b).
    { intros ->. destruct (IH b eq_refl) as (i & (F1 & F2 & F3 & F4 & F5) & F6).
      exists i. split; [| exact F6]. unfold firstBest.
      assert (Li : i < length T) by (apply lookup_lt_Some in F1; exact F1).
      split; [rewrite lookup_app_l by exact Li; exact F1 |].
      split; [exact F2 |]. split; [exact F3 |]. split.
      - intros t' Ht' Hn. apply elem_of_app in Ht' as [Ht' | Ht']; [apply F4; assumption |].
        apply list_elem_of_singleton in Ht'. subst t'.
        case_bool_decide as Hu; [contradiction |].
        destruct (IEEE.gt (score d t) bs) eqn:G.
        + cbn in H. injection H as <-. lra.
        + apply gt_false in G. cbn in F6. rewrite <- F6. exact G.
      - intros j t' Hj Ht' Hn. rewrite lookup_app_l in Ht' by lia. eapply F5; eassumption. }
    case_bool_decide as Hu.
    + cbn in H |- *. apply Keep, H.
    + destruct (IEEE.gt (score d t) bs) eqn:G.
      * cbn in H |- *. injection H as <-. apply gt_true in G.
        exists (length T). split; [| reflexivity]. unfold firstBest.
        split; [rewrite lookup_app_r by lia; rewrite Nat.sub_diag; reflexivity |].
        split; [exact Hu |].
        assert (Old : forall t', t' ∈ T -> Sec.id t' ∉ used -> (score d t' <= bs)%Q /\ (0 <= bs)%Q).
        { intros t' Ht' Hn. unfold bestOf in B. cbn in B. destruct bm as [b0 |].
          - destruct B as (_ & _ & B3 & B4 & B5). split; [apply B5; assumption | lra].
          - destruct B as (B1 & B2). rewrite B1. split; [apply B2; assumption | lra]. }
        assert (P : (0 <= bs)%Q).
        { unfold bestOf in B. cbn in B. destruct bm; [destruct B as (_ & _ & _ & B4 & _) |
                                                      destruct B as (B1 & _); rewrite B1]; lra. }
        split; [lra |]. split.
        -- intros t' Ht' Hn. apply elem_of_app in Ht' as [Ht' | Ht'].
           ++ destruct (Old t' Ht' Hn). lra.
           ++ apply list_elem_of_singleton in Ht'. subst t'. lra.
        -- intros j t' Hj Ht' Hn. rewrite lookup_app_l in Ht' by exact Hj.
           apply list_elem_of_lookup_2 in Ht'. destruct (Old t' Ht' Hn). lra.
      * cbn in H |- *. apply Keep, H.
Qed.

Lemma consider_considerWith (d : Sec.t) (best : option Sec.t * Q) (t : Sec.t) :
  DocxParser.consider d best t = considerWith DocxParser.score ∅ d best t.
Proof.
  unfold DocxParser.consider, considerWith.
  case_bool_decide as H; [set_solver | reflexivity].
Qed.

Lemma bestMatch_bestWith (T : list Sec.t) (d : Sec.t) :
  DocxParser.bestMatch T d = bestWith DocxParser.score ∅ T d.
Proof.
  unfold DocxParser.bestMatch, bestWith. generalize (None (A := Sec.t), 0%Q).
  induction T as [| t T IH]; intros acc; [reflexivity |].
  cbn [fold_left]. rewrite consider_considerWith. apply IH.
Qed.

(** The map that the outer loop builds. *)
Lemma matches_dom (f : Sec.t -> option string) (D : list Sec.t) :
  dom (fold_left (fun (m : gmap string (option string)) d => <[Sec.id d := f d]> m) D ∅)
  = list_to_set (map Sec.id D).
Proof.
  induction D as [| d D IH] using rev_ind; [cbn; apply dom_empty_L |].
  rewrite fold_left_app, map_app, list_to_set_app_L. cbn [fold_left map list_to_set].
  rewrite dom_insert_L, IH. set_solver.
Qed.

Lemma matches_value (f : Sec.t -> option string) (D : list Sec.t) (k : string)
  (v : option string) :
  fold_left (fun (m : gmap string (option string)) d => <[Sec.id d := f d]> m) D ∅ !! k
  = Some v ->
  exists d, d ∈ D /\ Sec.id d = k /\ v = f d.
Proof.
  induction D as [| d D IH] using rev_ind; [cbn; rewrite lookup_empty; discriminate |].
  rewrite fold_left_app. cbn [fold_left]. intros H.
  destruct (decide (Sec.id d = k)) as [E | N].
  - rewrite E, lookup_insert_eq in H. injection H as <-.
    exists d. split; [apply elem_of_app; right; apply list_elem_of_singleton; reflexivity |].
    split; [exact E | reflexivity].
  - rewrite lookup_insert_ne in H by exact N. destruct (IH H) as (d' & I & E & V).
    exists d'. split; [apply elem_of_app; left; exact I | split; assumption].
Qed.

Lemma matches_lookup (f : Sec.t -> option string) (D : list Sec.t) (d : Sec.t) :
  NoDup (map Sec.id D) -> d ∈ D ->
  fold_left (fun (m : gmap string (option string)) d => <[Sec.id d := f d]> m) D ∅
    !! Sec.id d
  = Some (f d).
Proof.
  induction D as [| d0 D IH] using rev_ind; intros N I; [inversion I |].
  rewrite fold_left_app. cbn [fold_left].
  rewrite map_app in N. apply NoDup_app in N as (N1 & N2 & _).
  apply elem_of_app in I as [I | I].
  - rewrite lookup_insert_ne; [apply IH; assumption |].
    intros E. apply (N2 (Sec.id d)).
    + apply list_elem_of_fmap. exists d. split; [reflexivity | exact I].
    + cbn. rewrite E. apply list_elem_of_singleton. reflexivity.
  - apply list_elem_of_singleton in I. subst d0. apply lookup_insert_eq.
Qed.

(** The scores of [matchSections]: between 0 and 190, and at least 10 for
    two sections of the same level. *)
Lemma score_range (d t : Sec.t) :
  (0 <= DocxParser.score d t <= 190)%Q
  /\ (Sec.level d = Sec.level t -> 10 <= DocxParser.score d t)%Q.
Proof.
  unfold DocxParser.score.
  destruct (Sec.number d) as [dn |], (Sec.number t) as [tn |],
    (Sec.title d) as [dt |], (Sec.title t) as [tt |];
    repeat match goal with |- context [if ?c then _ else _] => destruct c eqn:? end;
    (split; [split; vm_compute; discriminate |]);
    intros E; try (vm_compute; discriminate);
    apply Nat.eqb_eq in E; congruence.
Qed.

End MatcherFacts.

Module MatcherProperties.
Import JsString AlignerSpec AlignerFacts ComponentFacts MatcherSpec MatcherFacts.

Lemma matchSections_lookup (T D : list Sec.t) (d : Sec.t) :
  NoDup (map Sec.id D) -> d ∈ D ->
  DocxParser.matchSections T D !! Sec.id d
  = Some (DocxParser.idOrNull (fst (bestWith DocxParser.score ∅ T d))).
Proof.
  intros N I. unfold DocxParser.matchSections.
  rewrite (matches_lookup (fun d => DocxParser.idOrNull (fst (DocxParser.bestMatch T d))) D d N I).
  rewrite bestMatch_bestWith. reflexivity.
Qed.

(** X6. [matchSections] returns a map with one entry for each draft
    section identifier and no other; an entry that is not null holds the
    non-empty identifier of a template section that scores above 0 against a
    draft section with the key as identifier. With no template section every
    entry is null. *)
Theorem matchSections_entries (T D : list Sec.t) (k : string) :
  dom (DocxParser.matchSections T D) = list_to_set (map Sec.id D)
  /\ (forall t, DocxParser.matchSections T D !! k = Some (Some t) ->
        t <> ""
        /\ exists ts d, ts ∈ T /\ d ∈ D /\ Sec.id ts = t /\ Sec.id d = k
                        /\ (0 < DocxParser.score d ts)%Q)
  /\ (T = [] -> forall v, DocxParser.matchSections T D !! k = Some v -> v = None).
Proof.
  split; [apply matches_dom |]. split.
  - intros t H. unfold DocxParser.matchSections in H.
    apply matches_value in H as (d & Hd & Hk & Hv).
    rewrite bestMatch_bestWith in Hv. unfold DocxParser.idOrNull in Hv.
    destruct (fst (bestWith DocxParser.score ∅ T d)) as [b |] eqn:E; [| discriminate Hv].
    destruct (nonEmpty (Sec.id b)) eqn:Nb; [| discriminate Hv]. injection Hv as ->.
    split; [intros Z; rewrite Z in Nb; discriminate Nb |].
    destruct (bestWith_first _ _ _ _ _ E) as (i & (F1 & _ & F3 & _) & _).
    exists b, d. repeat split; try assumption; try reflexivity.
    apply list_elem_of_lookup_2 in F1. exact F1.
  - intros -> v H. unfold DocxParser.matchSections in H.
    apply matches_value in H as (d & _ & _ & ->). reflexivity.
Qed.

Lemma matchSections_entries_witness :
  dom (DocxParser.matchSections [TA; TB] [DA; DB]) = ({["da"; "db"]} : gset string)
  /\ DocxParser.matchSections [TA; TB] [DA; DB] !! "da" = Some (Some "ta")
  /\ "ta" <> ""
  /\ (forall v, DocxParser.matchSections [] [DA; DB] !! "da" = Some v -> v = None).
Proof.
  assert (E : DocxParser.matchSections [TA; TB] [DA; DB] !! "da" = Some (Some "ta"))
    by (vm_compute; reflexivity).
  destruct (matchSections_entries [TA; TB] [DA; DB] "da") as (Dm & V & _).
  split; [rewrite Dm; cbn; set_solver |]. split; [exact E |].
  split; [exact (proj1 (V "ta" E)) |].
  exact (proj2 (proj2 (matchSections_entries [] [DA; DB] "da")) eq_refl).
Defined.

(** X7. When the draft identifiers are distinct and no template identifier
    is empty, [matchSections] maps a draft section to the first, in template
    order, of the template sections of highest score, and to null exactly
    when no template section scores above 0. *)
Theorem matchSections_first_best (T D : list Sec.t) (d : Sec.t) :
  NoDup (map Sec.id D) -> d ∈ D -> Forall (fun t => nonEmpty (Sec.id t) = true) T ->
  (forall t, DocxParser.matchSections T D !! Sec.id d = Some (Some t) ->
     exists i ts, Sec.id ts = t /\ firstBest DocxParser.score T ∅ d ts i)
  /\ (DocxParser.matchSections T D !! Sec.id d = Some None
      <-> forall t', t' ∈ T -> (DocxParser.score d t' <= 0)%Q).
Proof.
  intros N I F. rewrite (matchSections_lookup T D d N I).
  pose proof (bestWith_spec DocxParser.score ∅ d T) as B. unfold bestOf in B.
  destruct (fst (bestWith DocxParser.score ∅ T d)) as [b |] eqn:E.
  - destruct (bestWith_first _ _ _ _ _ E) as (i & FB & _).
    assert (Nb : nonEmpty (Sec.id b) = true).
    { rewrite Forall_forall in F. apply F. destruct FB as (F1 & _).
      apply list_elem_of_lookup_2 in F1. exact F1. }
    cbn. rewrite Nb. split.
    + intros t [= <-]. exists i, b. split; [reflexivity | exact FB].
    + split; [discriminate |]. intros Z. exfalso.
      destruct FB as (F1 & _ & F3 & _). apply list_elem_of_lookup_2 in F1.
      specialize (Z b F1). lra.
  - cbn. split; [discriminate |]. split; [| reflexivity].
    intros _ t' Ht'. destruct B as (_ & B2). apply B2; [exact Ht' | set_solver].
Qed.

Lemma matchSections_first_best_witness :
  (NoDup (map Sec.id [DA; DB]) /\ DA ∈ [DA; DB]
   /\ Forall (fun t => nonEmpty (Sec.id t) = true) [TA; TB])
  /\ DocxParser.matchSections [TA; TB] [DA; DB] !! "da" = Some (Some "ta")
  /\ (DocxParser.score DA TA == 10)%Q /\ (DocxParser.score DA TB == 10)%Q
  /\ exists i ts, Sec.id ts = "ta" /\ firstBest DocxParser.score [TA; TB] ∅ DA ts i.
Proof.
  assert (N : NoDup (map Sec.id [DA; DB])).
  { cbn. apply NoDup_cons. split; [| apply NoDup_singleton].
    intros H. apply list_elem_of_singleton in H. discriminate H. }
  assert (I : DA ∈ [DA; DB]) by apply list_elem_of_here.
  assert (F : Forall (fun t => nonEmpty (Sec.id t) = true) [TA; TB])
    by (repeat constructor).
  assert (E : DocxParser.matchSections [TA; TB] [DA; DB] !! "da" = Some (Some "ta"))
    by (vm_compute; reflexivity).
  split; [repeat split; assumption |]. split; [exact E |].
  split; [vm_compute; reflexivity |]. split; [vm_compute; reflexivity |].
  exact (proj1 (matchSections_first_best [TA; TB] [DA; DB] DA N I F) "ta" E).
Defined.

(** X8. [matchSections] has no confidence floor: when the draft
    identifiers are distinct and no template identifier is empty, a draft
    section is matched as soon as one template section has its level, even
    if the two have neither number nor title in common. *)
Theorem matchSections_level_suffices (T D : list Sec.t) (d t : Sec.t) :
  NoDup (map Sec.id D) -> d ∈ D -> Forall (fun t => nonEmpty (Sec.id t) = true) T ->
  t ∈ T -> Sec.level t = Sec.level d ->
  exists m, DocxParser.matchSections T D !! Sec.id d = Some (Some m).
Proof.
  intros N I F Ht L. rewrite (matchSections_lookup T D d N I).
  pose proof (bestWith_spec DocxParser.score ∅ d T) as B. unfold bestOf in B.
  destruct (fst (bestWith DocxParser.score ∅ T d)) as [b |] eqn:E.
  - assert (Nb : nonEmpty (Sec.id b) = true).
    { rewrite Forall_forall in F. apply F. apply B. }
    cbn. rewrite Nb. eexists. reflexivity.
  - exfalso. destruct B as (_ & B2). specialize (B2 t Ht ltac:(set_solver)).
    pose proof (proj2 (score_range d t) (eq_sym L)). lra.
Qed.

Lemma matchSections_level_suffices_witness :
  (NoDup (map Sec.id [DA; DB]) /\ DA ∈ [DA; DB]
   /\ Forall (fun t => nonEmpty (Sec.id t) = true) [TA; TB]
   /\ TB ∈ [TA; TB] /\ Sec.level TB = Sec.level DA)
  /\ (Sec.number DA, Sec.title DA) = (Some "1", Some "Scope")
  /\ map (fun t => (Sec.number t, Sec.title t)) [TA; TB]
     = [(Some "7", Some "Governance"); (Some "8", Some "Warranty")]
  /\ exists m, DocxParser.matchSections [TA; TB] [DA; DB] !! Sec.id DA = Some (Some m).
Proof.
  assert (N : NoDup (map Sec.id [DA; DB])).
  { cbn. apply NoDup_cons. split; [| apply NoDup_singleton].
    intros H. apply list_elem_of_singleton in H. discriminate H. }
  assert (I : DA ∈ [DA; DB]) by apply list_elem_of_here.
  assert (F : Forall (fun t => nonEmpty (Sec.id t) = true) [TA; TB])
    by (repeat constructor).
  assert (Ht : TB ∈ [TA; TB]) by (apply list_elem_of_further, list_elem_of_here).
  split; [repeat split; assumption |]. split; [reflexivity |]. split; [reflexivity |].
  exact (matchSections_level_suffices [TA; TB] [DA; DB] DA TB N I F Ht eq_refl).
Defined.

End MatcherProperties.

(** ** The two components *)

Module PanelFacts.
Import JsString AlignerSpec AlignerFacts ComponentFacts MatcherSpec MatcherFacts.

(** Issues are filed under their section identifier, in order. *)
Lemma groupIssues_lookup (allIssues : list Issue.t) (k : string) :
  default [] (groupIssues allIssues !! k)
  = List.filter (fun x => String.eqb (Issue.sectionId x) k) allIssues.
Proof.
  unfold groupIssues. induction allIssues as [| x l IH] using rev_ind.
  - cbn. rewrite lookup_empty. reflexivity.
  - rewrite fold_left_app, List.filter_app. cbn [fold_left List.filter].
    destruct (String.eqb (Issue.sectionId x) k) eqn:E.
    + apply String.eqb_eq in E. rewrite E, lookup_insert_eq. cbn. rewrite <- IH.
      reflexivity.
    + apply String.eqb_neq in E. rewrite lookup_insert_ne by exact E.
      rewrite IH, app_nil_r. reflexivity.
Qed.

Lemma pairs_issues T byId ds acc used :
  Forall (fun p => ComparisonView.issues p
                   = default [] (byId !! Sec.id (ComparisonView.draftSection p))) acc ->
  Forall (fun p => ComparisonView.issues p
                   = default [] (byId !! Sec.id (ComparisonView.draftSection p)))
    (fst (fold_left (ComparisonView.pairStep T byId) ds (acc, used))).
Proof.
  revert acc used. induction ds as [| d ds IH]; intros acc used F; [exact F |].
  cbn [fold_left]. unfold ComparisonView.pairStep at 2.
  destruct (ComparisonView.bestCandidate used T d) as [[b |] bs].
  - destruct (IEEE.ge bs 30); apply IH, Forall_app; (split; [exact F |]);
      repeat constructor.
  - apply IH, Forall_app. split; [exact F |]. repeat constructor.
Qed.

Lemma matches_issues T byId resolved ds acc used :
  Forall (fun m => ReviewDashboard.issues m
                   = default [] (byId !! Sec.id (ReviewDashboard.draftSection m))
                   /\ ReviewDashboard.status m
                      = ReviewDashboard.statusOf (ReviewDashboard.templateSection m)
                          (ReviewDashboard.issues m)
                   /\ ReviewDashboard.isResolved m
                      = bool_decide (Sec.id (ReviewDashboard.draftSection m) ∈ resolved)) acc ->
  Forall (fun m => ReviewDashboard.issues m
                   = default [] (byId !! Sec.id (ReviewDashboard.draftSection m))
                   /\ ReviewDashboard.status m
                      = ReviewDashboard.statusOf (ReviewDashboard.templateSection m)
                          (ReviewDashboard.issues m)
                   /\ ReviewDashboard.isResolved m
                      = bool_decide (Sec.id (ReviewDashboard.draftSection m) ∈ resolved))
    (fst (fold_left (ReviewDashboard.matchStep T byId resolved) ds (acc, used))).
Proof.
  revert acc used. induction ds as [| d ds IH]; intros acc used F; [exact F |].
  cbn [fold_left]. unfold ReviewDashboard.matchStep at 2.
  destruct (ReviewDashboard.bestCandidate used T d) as [b bs].
  apply IH, Forall_app. split; [exact F |]. repeat constructor.
Qed.

Lemma align_length score floor T used ds : length (align score floor T used ds) = length ds.
Proof.
  revert used. induction ds as [| d ds IH]; intros used; [reflexivity |]. cbn.
  destruct (bestWith score used T d) as [[b |] bs]; [destruct (IEEE.ge bs floor) |];
    cbn; rewrite IH; reflexivity.
Qed.

(** The matched template sections are sections of the template, carry
    pairwise distinct identifiers, and none was claimed before. *)
Lemma align_matched score floor T used ds :
  Forall (fun t => t ∈ T /\ Sec.id t ∉ used) (matchedOf (align score floor T used ds))
  /\ NoDup (map Sec.id (matchedOf (align score floor T used ds))).
Proof.
  revert used. induction ds as [| d ds IH]; intros used.
  - cbn. split; constructor.
  - cbn [align]. pose proof (bestWith_spec score used d T) as B. unfold bestOf in B.
    destruct (bestWith score used T d) as [[b |] bs]; cbn in B.
    + destruct (IEEE.ge bs floor).
      * destruct (IH ({[Sec.id b]} ∪ used)) as (F & N). unfold matchedOf in *. cbn.
        split.
        -- constructor; [split; apply B |].
           eapply Forall_impl; [exact F |]. cbn. intros t [H1 H2]. split; [exact H1 | set_solver].
        -- apply NoDup_cons. split; [| exact N].
           intros H. apply list_elem_of_fmap in H as (t & E & H).
           rewrite Forall_forall in F. destruct (F t H) as [_ H2]. set_solver.
      * apply IH.
    + apply IH.
Qed.

Lemma matchedOf_pairs (ps : list ComparisonView.SectionPair) :
  omap (fun p => option_map Sec.id (ComparisonView.templateSection p)) ps
  = map Sec.id (matchedOf (map pairEntry ps)).
Proof.
  induction ps as [| p ps IH]; [reflexivity |]. unfold matchedOf in *. cbn.
  destruct (ComparisonView.templateSection p); cbn; rewrite IH; reflexivity.
Qed.

Lemma matched_count (ps : list ComparisonView.SectionPair) :
  length (List.filter (fun p => Regex.isSome (ComparisonView.templateSection p)) ps)
  = length (matchedOf (map pairEntry ps)).
Proof.
  induction ps as [| p ps IH]; [reflexivity |]. unfold matchedOf in *. cbn.
  destruct (ComparisonView.templateSection p); cbn; rewrite IH; reflexivity.
Qed.

(** In a list without repetition, as many elements are in a set as the set
    has elements of the list. *)
Lemma count_members (l : list string) (S : gset string) :
  NoDup l -> S ⊆ list_to_set l ->
  length (List.filter (fun x => bool_decide (x ∈ S)) l) = size S.
Proof.
  intros N Sub.
  assert (N' : NoDup (List.filter (fun x => bool_decide (x ∈ S)) l)).
  { apply NoDup_ListNoDup, List.NoDup_filter, NoDup_ListNoDup, N. }
  rewrite <- (size_list_to_set (C := gset string) _ N'). f_equal.
  apply set_eq. intros x. rewrite elem_of_list_to_set, list_elem_of_In, filter_In,
    <- list_elem_of_In, bool_decide_eq_true.
  split; [intros [_ H]; exact H |]. intros H. split; [| exact H].
  apply Sub in H. apply elem_of_list_to_set in H. exact H.
Qed.

Lemma filter_map_swap {A B : Type} (f : A -> B) (P : B -> bool) (l : list A) :
  map f (List.filter (fun x => P (f x)) l) = List.filter P (map f l).
Proof.
  induction l as [| a l IH]; [reflexivity |]. cbn. destruct (P (f a)); cbn; rewrite IH; reflexivity.
Qed.

End PanelFacts.

Module PanelProperties.
Import JsString AlignerSpec AlignerFacts ComponentFacts MatcherSpec MatcherFacts PanelFacts.

Lemma align_drafts score floor T used ds :
  map (fun e : entry => fst (fst e)) (align score floor T used ds) = ds.
Proof.
  revert used. induction ds as [| d ds IH]; intros used; [reflexivity |]. cbn.
  destruct (bestWith score used T d) as [[b |] bs]; [destruct (IEEE.ge bs floor) |];
    cbn; rewrite IH; reflexivity.
Qed.

Lemma sectionPairs_drafts T D allIssues :
  map ComparisonView.draftSection (ComparisonView.sectionPairs T D allIssues) = D.
Proof.
  rewrite <- (align_drafts ComparisonView.score 30 T ∅ D) at 2.
  rewrite <- (sectionPairs_align T D allIssues), map_map. reflexivity.
Qed.

Lemma sectionMatches_drafts T D allIssues resolved :
  map ReviewDashboard.draftSection (ReviewDashboard.sectionMatches T D allIssues resolved) = D.
Proof.
  transitivity (map fst (map matchEntry (ReviewDashboard.sectionMatches T D allIssues resolved)));
    [rewrite map_map; reflexivity |].
  rewrite sectionMatches_align, map_map. apply align_drafts.
Qed.

(** X9. Both components list the draft sections in document order, one
    entry each, and attach to an entry exactly the issues whose
    [sectionId] is the identifier of its draft section, in the order of
    [allIssues]. *)
Theorem entries_carry_their_issues (T D : list Sec.t) (allIssues : list Issue.t)
  (resolvedSections : gset string) :
  map ComparisonView.draftSection (ComparisonView.sectionPairs T D allIssues) = D
  /\ map ReviewDashboard.draftSection
       (ReviewDashboard.sectionMatches T D allIssues resolvedSections) = D
  /\ Forall (fun p =>
               ComparisonView.issues p
               = List.filter (fun x => String.eqb (Issue.sectionId x)
                                         (Sec.id (ComparisonView.draftSection p))) allIssues)
       (ComparisonView.sectionPairs T D allIssues)
  /\ Forall (fun m =>
               ReviewDashboard.issues m
               = List.filter (fun x => String.eqb (Issue.sectionId x)
                                         (Sec.id (ReviewDashboard.draftSection m))) allIssues)
       (ReviewDashboard.sectionMatches T D allIssues resolvedSections).
Proof.
  split; [apply sectionPairs_drafts |]. split; [apply sectionMatches_drafts |]. split.
  - eapply Forall_impl; [apply pairs_issues; constructor |].
    cbn. intros p ->. apply groupIssues_lookup.
  - eapply Forall_impl; [apply matches_issues; constructor |].
    cbn. intros m (-> & _). apply groupIssues_lookup.
Qed.

Lemma filter_split {A : Type} (f : A -> bool) (l : list A) :
  length (List.filter f l) + length (List.filter (fun x => negb (f x)) l) = length l.
Proof.
  induction l as [| a l IH]; [reflexivity |]. cbn. destruct (f a); cbn; lia.
Qed.

Lemma filter_le {A : Type} (f : A -> bool) (l : list A) : length (List.filter f l) <= length l.
Proof. pose proof (filter_split f l). lia. Qed.

Lemma filter_le_filter {A : Type} (f g : A -> bool) (l : list A) :
  (forall x, In x l -> f x = true -> g x = true) ->
  length (List.filter f l) <= length (List.filter g l).
Proof.
  induction l as [| a l IH]; intros H; [reflexivity |]. cbn.
  assert (IH' := IH (fun x Hx => H x (or_intror Hx))).
  destruct (f a) eqn:Fa.
  - rewrite (H a (or_introl eq_refl) Fa). cbn. lia.
  - destruct (g a); cbn; lia.
Qed.

Lemma sectionPairs_matched T D allIssues :
  let ps := ComparisonView.sectionPairs T D allIssues in
  Forall (fun t => t ∈ T) (matchedOf (map pairEntry ps))
  /\ NoDup (map Sec.id (matchedOf (map pairEntry ps))).
Proof.
  cbn zeta. rewrite sectionPairs_align.
  destruct (align_matched ComparisonView.score 30 T ∅ D) as (F & N).
  split; [| exact N]. eapply Forall_impl; [exact F |]. cbn. intros t [H _]. exact H.
Qed.

(** X10. The counts of the comparison view: every draft section is counted
    as matched or as new, never both; no more sections are matched than the
    template has; and, when the template identifiers are distinct, every
    template section is either the match of exactly one draft section or
    listed as missing from the draft. A template section is listed as
    missing exactly when no entry is matched to a section with its
    identifier. *)
Theorem comparison_counts (T D : list Sec.t) (allIssues : list Issue.t) :
  let ps := ComparisonView.sectionPairs T D allIssues in
  let st := ComparisonViewPanel.stats ps in
  ComparisonViewPanel.total st = length D
  /\ ComparisonViewPanel.matched st + ComparisonViewPanel.unmatched st
     = ComparisonViewPanel.total st
  /\ ComparisonViewPanel.withIssues st <= ComparisonViewPanel.total st
  /\ ComparisonViewPanel.matched st <= length T
  /\ (forall s, In s (ComparisonViewPanel.unmatchedTemplateSections T ps)
                <-> In s T /\ forall p t, In p ps -> ComparisonView.templateSection p = Some t ->
                                         Sec.id t <> Sec.id s)
  /\ (NoDup (map Sec.id T) ->
      ComparisonViewPanel.matched st
      + length (ComparisonViewPanel.unmatchedTemplateSections T ps) = length T).
Proof.
  intros ps st. subst st. unfold ComparisonViewPanel.stats. cbn.
  destruct (sectionPairs_matched T D allIssues) as (F & N). fold ps in F, N.
  assert (Ids : ComparisonViewPanel.matchedTemplateIds ps
                = list_to_set (map Sec.id (matchedOf (map pairEntry ps)))).
  { unfold ComparisonViewPanel.matchedTemplateIds. rewrite matchedOf_pairs. reflexivity. }
  assert (Sub : ComparisonViewPanel.matchedTemplateIds ps ⊆ list_to_set (map Sec.id T)).
  { rewrite Ids. intros x Hx. apply elem_of_list_to_set in Hx.
    apply list_elem_of_fmap in Hx as (t & -> & Ht).
    rewrite Forall_forall in F. apply elem_of_list_to_set, list_elem_of_fmap.
    exists t. split; [reflexivity | apply F, Ht]. }
  split.
  { unfold ps. rewrite <- (length_map ComparisonView.draftSection), sectionPairs_drafts.
    reflexivity. }
  split; [apply filter_split |]. split; [apply filter_le |]. split; [| split].
  - rewrite matched_count, <- (length_map Sec.id), <- (length_map Sec.id T).
    apply submseteq_length, NoDup_submseteq; [exact N |].
    intros x Hx. apply list_elem_of_fmap in Hx as (t & -> & Ht).
    rewrite Forall_forall in F. apply list_elem_of_fmap.
    exists t. split; [reflexivity | apply F, Ht].
  - intros s. unfold ComparisonViewPanel.unmatchedTemplateSections.
    rewrite filter_In, negb_true_iff, bool_decide_eq_false.
    unfold ComparisonViewPanel.matchedTemplateIds.
    rewrite elem_of_list_to_set, list_elem_of_omap.
    split; intros [H1 H2]; (split; [exact H1 |]).
    + intros p t Hp Ht E. apply H2. exists p. split; [apply list_elem_of_In, Hp |].
      rewrite Ht. cbn. rewrite E. reflexivity.
    + intros (p & Hp & E). destruct (ComparisonView.templateSection p) as [t |] eqn:Et;
        [| discriminate E].
      cbn in E. injection E as E. apply (H2 p t); [apply list_elem_of_In, Hp | exact Et | exact E].
  - intros NT. unfold ComparisonViewPanel.unmatchedTemplateSections.
    rewrite <- (filter_split
                  (fun s => bool_decide (Sec.id s ∈ ComparisonViewPanel.matchedTemplateIds ps)) T).
    f_equal.
    rewrite matched_count, <- (length_map Sec.id).
    rewrite <- (size_list_to_set (C := gset string) _ N), <- Ids.
    rewrite <- (count_members (map Sec.id T) _ NT Sub).
    rewrite <- (filter_map_swap Sec.id
                  (fun x => bool_decide (x ∈ ComparisonViewPanel.matchedTemplateIds ps)) T).
    rewrite length_map. reflexivity.
Qed.

Lemma comparison_counts_witness :
  NoDup (map Sec.id [T1; T2])
  /\ ComparisonViewPanel.stats (ComparisonView.sectionPairs [T1; T2] [D1; D2; D3] [])
     = {| ComparisonViewPanel.matched := 1; ComparisonViewPanel.unmatched := 2;
          ComparisonViewPanel.withIssues := 0; ComparisonViewPanel.total := 3 |}
  /\ ComparisonViewPanel.unmatchedTemplateSections [T1; T2]
       (ComparisonView.sectionPairs [T1; T2] [D1; D2; D3] []) = [T2]
  /\ 1 + 1 = length [T1; T2].
Proof.
  assert (N : NoDup (map Sec.id [T1; T2])).
  { cbn. apply NoDup_cons. split; [| apply NoDup_singleton].
    intros H. apply list_elem_of_singleton in H. discriminate H. }
  assert (E1 : ComparisonViewPanel.stats (ComparisonView.sectionPairs [T1; T2] [D1; D2; D3] [])
               = {| ComparisonViewPanel.matched := 1; ComparisonViewPanel.unmatched := 2;
                    ComparisonViewPanel.withIssues := 0; ComparisonViewPanel.total := 3 |})
    by (vm_compute; reflexivity).
  assert (E2 : ComparisonViewPanel.unmatchedTemplateSections [T1; T2]
                 (ComparisonView.sectionPairs [T1; T2] [D1; D2; D3] []) = [T2])
    by (vm_compute; reflexivity).
  split; [exact N |]. split; [exact E1 |]. split; [exact E2 |].
  pose proof (proj2 (proj2 (proj2 (proj2 (proj2
                (comparison_counts [T1; T2] [D1; D2; D3] []))))) N) as H.
  cbv zeta in H. rewrite E1, E2 in H. exact H.
Defined.

(** X11. Expansion state of the comparison view. Toggling a section twice
    restores the set of expanded sections. In the initial state every section
    is shown expanded, yet toggling a section there leaves that section
    expanded and collapses all the others; and while [expandAll] is set,
    collapsing the only expanded section shows every section expanded. *)
Theorem expansion_state (st : ComparisonViewPanel.ViewState) (s x : string) :
  ComparisonViewPanel.expandedSections
    (ComparisonViewPanel.toggleSection s (ComparisonViewPanel.toggleSection s st))
  = ComparisonViewPanel.expandedSections st
  /\ ComparisonViewPanel.isSectionExpanded ComparisonViewPanel.initial x = true
  /\ ComparisonViewPanel.isSectionExpanded
       (ComparisonViewPanel.toggleSection s ComparisonViewPanel.initial) x
     = bool_decide (x = s)
  /\ (ComparisonViewPanel.expandAll st = true ->
      ComparisonViewPanel.expandedSections st = {[s]} ->
      ComparisonViewPanel.isSectionExpanded (ComparisonViewPanel.toggleSection s st) x = true).
Proof.
  split; [| split; [reflexivity | split]].
  - unfold ComparisonViewPanel.toggleSection. cbn.
    destruct (decide (s ∈ ComparisonViewPanel.expandedSections st)) as [I | I].
    + rewrite (bool_decide_eq_true_2 _ I).
      rewrite bool_decide_eq_false_2 by set_solver.
      apply set_eq. intros y. destruct (decide (y = s)); set_solver.
    + rewrite (bool_decide_eq_false_2 _ I).
      rewrite bool_decide_eq_true_2 by set_solver. set_solver.
  - unfold ComparisonViewPanel.isSectionExpanded, ComparisonViewPanel.toggleSection,
      ComparisonViewPanel.initial. cbn.
    rewrite bool_decide_eq_false_2 by set_solver.
    replace ({[s]} ∪ ∅ : gset string) with ({[s]} : gset string) by set_solver.
    rewrite size_singleton. cbn. apply bool_decide_ext. set_solver.
  - intros EA ES.
    unfold ComparisonViewPanel.isSectionExpanded, ComparisonViewPanel.toggleSection. cbn.
    rewrite EA, ES. rewrite bool_decide_eq_true_2 by set_solver.
    replace ({[s]} ∖ {[s]} : gset string) with (∅ : gset string) by set_solver.
    rewrite size_empty. reflexivity.
Qed.

Lemma expansion_state_witness :
  let st := {| ComparisonViewPanel.expandedSections := {["d1"]};
               ComparisonViewPanel.expandAll := true |} in
  ComparisonViewPanel.isSectionExpanded st "d2" = false
  /\ ComparisonViewPanel.isSectionExpanded (ComparisonViewPanel.toggleSection "d1" st) "d2"
     = true.
Proof.
  intros st. split.
  - unfold ComparisonViewPanel.isSectionExpanded. cbn. rewrite size_singleton. cbn.
    apply bool_decide_eq_false_2. set_solver.
  - exact (proj2 (proj2 (proj2 (expansion_state st "d1" "d2"))) eq_refl eq_refl).
Defined.

Lemma sectionMatches_fields T D allIssues resolved :
  Forall (fun m => ReviewDashboard.status m
                   = ReviewDashboard.statusOf (ReviewDashboard.templateSection m)
                       (ReviewDashboard.issues m)
                   /\ ReviewDashboard.isResolved m
                      = bool_decide (Sec.id (ReviewDashboard.draftSection m) ∈ resolved))
    (ReviewDashboard.sectionMatches T D allIssues resolved).
Proof.
  eapply Forall_impl; [apply matches_issues; constructor |]. cbn. intros m (_ & H). exact H.
Qed.

Lemma existsb_high (l : list Issue.t) :
  existsb (fun i => Severity_eqb (Issue.severity i) high) l = true
  <-> exists i, In i l /\ Issue.severity i = high.
Proof.
  rewrite existsb_exists. split; intros (i & I & H); exists i; (split; [exact I |]).
  - destruct (Issue.severity i); first [reflexivity | discriminate H].
  - rewrite H. reflexivity.
Qed.

(** X12. Statuses and counts of the review dashboard. An entry has status
    [new] exactly when it is unmatched, [error] exactly when it is matched
    and one of its issues is of high severity, and [ok] exactly when it is
    matched and has no issue. So an unmatched draft section never counts as
    high priority, whatever its issues; and every entry counted as high
    priority is counted among those with issues. *)
Theorem dashboard_status (T D : list Sec.t) (allIssues : list Issue.t)
  (resolvedSections : gset string) (m : ReviewDashboard.SectionMatch) :
  let ms := ReviewDashboard.sectionMatches T D allIssues resolvedSections in
  (In m ms ->
   (ReviewDashboard.status m = ReviewDashboard.new
    <-> ReviewDashboard.templateSection m = None)
   /\ (ReviewDashboard.status m = ReviewDashboard.error
       <-> ReviewDashboard.templateSection m <> None
           /\ exists i, In i (ReviewDashboard.issues m) /\ Issue.severity i = high)
   /\ (ReviewDashboard.status m = ReviewDashboard.ok
       <-> ReviewDashboard.templateSection m <> None /\ ReviewDashboard.issues m = [])
   /\ ReviewDashboard.isResolved m
      = bool_decide (Sec.id (ReviewDashboard.draftSection m) ∈ resolvedSections))
  /\ ReviewDashboardPanel.highPriority (ReviewDashboardPanel.stats ms)
     <= ReviewDashboardPanel.withIssues (ReviewDashboardPanel.stats ms)
  /\ ReviewDashboardPanel.highPriority (ReviewDashboardPanel.stats ms)
     + ReviewDashboardPanel.resolved (ReviewDashboardPanel.stats ms)
     <= ReviewDashboardPanel.total (ReviewDashboardPanel.stats ms).
Proof.
  intros ms.
  pose proof (sectionMatches_fields T D allIssues resolvedSections) as F. fold ms in F.
  rewrite List.Forall_forall in F.
  assert (St : forall x, In x ms ->
             (ReviewDashboard.status x = ReviewDashboard.new
              <-> ReviewDashboard.templateSection x = None)
             /\ (ReviewDashboard.status x = ReviewDashboard.error
                 <-> ReviewDashboard.templateSection x <> None
                     /\ exists i, In i (ReviewDashboard.issues x) /\ Issue.severity i = high)
             /\ (ReviewDashboard.status x = ReviewDashboard.ok
                 <-> ReviewDashboard.templateSection x <> None
                     /\ ReviewDashboard.issues x = [])).
  { intros x Hx. destruct (F x Hx) as (S & _). rewrite S. unfold ReviewDashboard.statusOf.
    rewrite <- existsb_high.
    destruct (ReviewDashboard.templateSection x) as [t |].
    - destruct (existsb (fun i => Severity_eqb (Issue.severity i) high)
                  (ReviewDashboard.issues x)) eqn:H.
      + split; [split; discriminate |]. split; [split; [split; [discriminate | reflexivity] |
                                                         reflexivity] |].
        split; [discriminate |]. intros [_ E]. rewrite E in H. discriminate H.
      + destruct (ReviewDashboard.issues x) as [| i l] eqn:E; cbn.
        * split; [split; discriminate |]. split; [split; [discriminate | intros [_ Z];
                                                            discriminate Z] |].
          split; [split; [discriminate | reflexivity] | reflexivity].
        * rewrite orb_true_r.
          split; [split; discriminate |]. split; [split; [discriminate | intros [_ Z];
                                                            discriminate Z] |].
          split; [discriminate | intros [_ Z]; discriminate Z].
    - split; [split; reflexivity |]. split; [split; [discriminate | intros [Z _]; congruence] |].
      split; [discriminate | intros [Z _]; congruence]. }
  split; [| split].
  - intros Hm. destruct (St m Hm) as (S1 & S2 & S3). destruct (F m Hm) as (_ & R).
    split; [exact S1 | split; [exact S2 | split; [exact S3 | exact R]]].
  - cbn. apply filter_le_filter. intros x Hx H.
    apply andb_true_iff in H as [H _].
    assert (E : ReviewDashboard.status x = ReviewDashboard.error)
      by (destruct (ReviewDashboard.status x); first [reflexivity | discriminate H]).
    apply (St x Hx) in E as (_ & i & Hi & _).
    destruct (ReviewDashboard.issues x); [destruct Hi | reflexivity].
  - cbn. rewrite <- (filter_split (fun x => ReviewDashboard.isResolved x) ms).
    enough (length (List.filter (fun x => ReviewDashboardPanel.Status_eqb
                                            (ReviewDashboard.status x) ReviewDashboard.error
                                          && negb (ReviewDashboard.isResolved x)) ms)
            <= length (List.filter (fun x => negb (ReviewDashboard.isResolved x)) ms)) by lia.
    apply filter_le_filter. intros x _ H. apply andb_true_iff in H as [_ H]. exact H.
Qed.

(** An issue of high severity filed under the draft section [d3], which
    has no match: the entry is [new], not [error], and the count of high
    priority entries is 0. *)
Lemma dashboard_status_witness :
  let i := Issue.mk "i1" "legal_clause_changed" high "d3" "liability cap removed" None None
             None legal_risk in
  let ms := ReviewDashboard.sectionMatches [T1; T2] [D1; D2; D3] [i] ∅ in
  map (fun m => (Sec.id (ReviewDashboard.draftSection m), ReviewDashboard.status m,
                 length (ReviewDashboard.issues m))) ms
  = [("d1", ReviewDashboard.ok, 0); ("d2", ReviewDashboard.new, 0);
     ("d3", ReviewDashboard.new, 1)]
  /\ ReviewDashboardPanel.highPriority (ReviewDashboardPanel.stats ms) = 0
  /\ (forall m, nth_error ms 2 = Some m ->
        ReviewDashboard.status m = ReviewDashboard.new
        <-> ReviewDashboard.templateSection m = None).
Proof.
  intros i ms. split; [vm_compute; reflexivity |]. split; [vm_compute; reflexivity |].
  intros m Hm. subst ms. apply nth_error_In in Hm.
  exact (proj1 (proj1 (dashboard_status [T1; T2] [D1; D2; D3] [i] ∅ m) Hm)).
Defined.

Lemma matches_resolved T byId r1 r2 ds acc1 acc2 used :
  map (fun m => (ReviewDashboard.draftSection m, ReviewDashboard.templateSection m,
                 ReviewDashboard.issues m, ReviewDashboard.status m)) acc1
  = map (fun m => (ReviewDashboard.draftSection m, ReviewDashboard.templateSection m,
                   ReviewDashboard.issues m, ReviewDashboard.status m)) acc2 ->
  map (fun m => (ReviewDashboard.draftSection m, ReviewDashboard.templateSection m,
                 ReviewDashboard.issues m, ReviewDashboard.status m))
    (fst (fold_left (ReviewDashboard.matchStep T byId r1) ds (acc1, used)))
  = map (fun m => (ReviewDashboard.draftSection m, ReviewDashboard.templateSection m,
                   ReviewDashboard.issues m, ReviewDashboard.status m))
      (fst (fold_left (ReviewDashboard.matchStep T byId r2) ds (acc2, used))).
Proof.
  revert acc1 acc2 used. induction ds as [| d ds IH]; intros acc1 acc2 used E; [exact E |].
  cbn [fold_left]. unfold ReviewDashboard.matchStep at 2 4.
  destruct (ReviewDashboard.bestCandidate used T d) as [b bs].
  apply IH. rewrite !map_app, E. reflexivity.
Qed.

(** X13. Marking a section as resolved. The section leaves the expanded
    set and joins the resolved set, which never shrinks. The entries are
    recomputed with the same draft sections, matches, issues and statuses:
    only the resolved flag changes, and it is set on every entry of the
    marked section, which therefore is absent from the [issues] filter and
    present in the [resolved] filter. *)
Theorem mark_resolved (T D : list Sec.t) (allIssues : list Issue.t)
  (st : ReviewDashboardPanel.ViewState) (s : string) (m : ReviewDashboard.SectionMatch) :
  let st' := ReviewDashboardPanel.markResolved s st in
  let ms := ReviewDashboard.sectionMatches T D allIssues
              (ReviewDashboardPanel.resolvedSections st) in
  let ms' := ReviewDashboard.sectionMatches T D allIssues
               (ReviewDashboardPanel.resolvedSections st') in
  (s ∉ ReviewDashboardPanel.expandedSections st')
  /\ (s ∈ ReviewDashboardPanel.resolvedSections st')
  /\ ReviewDashboardPanel.resolvedSections st ⊆ ReviewDashboardPanel.resolvedSections st'
  /\ map (fun m => (ReviewDashboard.draftSection m, ReviewDashboard.templateSection m,
                    ReviewDashboard.issues m, ReviewDashboard.status m)) ms'
     = map (fun m => (ReviewDashboard.draftSection m, ReviewDashboard.templateSection m,
                      ReviewDashboard.issues m, ReviewDashboard.status m)) ms
  /\ (In m ms' -> Sec.id (ReviewDashboard.draftSection m) = s ->
      ReviewDashboard.isResolved m = true
      /\ ~ In m (ReviewDashboardPanel.filteredMatches ms' ReviewDashboardPanel.issuesOnly)
      /\ In m (ReviewDashboardPanel.filteredMatches ms' ReviewDashboardPanel.resolvedOnly)).
Proof.
  intros st' ms ms'. split; [cbn; set_solver |]. split; [cbn; set_solver |].
  split; [cbn; set_solver |]. split.
  - apply matches_resolved. reflexivity.
  - intros Hm Hs.
    pose proof (sectionMatches_fields T D allIssues
                  (ReviewDashboardPanel.resolvedSections st')) as F.
    rewrite List.Forall_forall in F. destruct (F m Hm) as (_ & R).
    assert (Rm : ReviewDashboard.isResolved m = true).
    { rewrite R, Hs. apply bool_decide_eq_true_2. cbn. set_solver. }
    split; [exact Rm |]. cbn. rewrite !filter_In, Rm, andb_false_r.
    split; [intros [_ Z]; discriminate Z | split; [exact Hm | reflexivity]].
Qed.

Lemma mark_resolved_witness :
  let i := Issue.mk "i1" "vague_language" medium "d1" "unclear" None None None
             language_clarity in
  let st := {| ReviewDashboardPanel.expandedSections := {["d1"]};
               ReviewDashboardPanel.resolvedSections := ∅ |} in
  let ms := ReviewDashboard.sectionMatches [T1; T2] [D1; D2; D3] [i] ∅ in
  let ms' := ReviewDashboard.sectionMatches [T1; T2] [D1; D2; D3] [i]
               (ReviewDashboardPanel.resolvedSections
                  (ReviewDashboardPanel.markResolved "d1" st)) in
  map (fun m => Sec.id (ReviewDashboard.draftSection m))
    (ReviewDashboardPanel.filteredMatches ms ReviewDashboardPanel.issuesOnly) = ["d1"]
  /\ ReviewDashboardPanel.filteredMatches ms' ReviewDashboardPanel.issuesOnly = []
  /\ (forall m, nth_error ms' 0 = Some m -> ReviewDashboard.isResolved m = true).
Proof.
  intros i st ms ms'.
  assert (E : forall m, nth_error ms' 0 = Some m -> Sec.id (ReviewDashboard.draftSection m) = "d1").
  { intros m Hm.
    assert (L : map ReviewDashboard.draftSection ms' = [D1; D2; D3])
      by apply sectionMatches_drafts.
    destruct ms' as [| m0 l]; [discriminate Hm |]. cbn in Hm. injection Hm as <-.
    cbn in L. injection L as L _. rewrite L. reflexivity. }
  split; [| split].
  - unfold ms. vm_compute. reflexivity.
  - unfold ms'. vm_compute. reflexivity.
  - intros m Hm. pose proof (E m Hm) as Sd. subst ms'. apply nth_error_In in Hm.
    exact (proj1 (proj2 (proj2 (proj2 (proj2
             (mark_resolved [T1; T2] [D1; D2; D3] [i] st "d1" m)))) Hm Sd)).
Defined.

Lemma align_first score floor T used ds i e t :
  align score floor T used ds !! i = Some e -> snd (fst e) = Some t ->
  exists k, firstBest score T (used ∪ claimed (take i (align score floor T used ds)))
              (fst (fst e)) t k.
Proof.
  revert used i. induction ds as [| d ds IH]; intros used i Hi Ht.
  - cbn in Hi. inversion Hi.
  - cbn [align] in Hi |- *.
    pose proof (bestWith_first score used d T) as B.
    destruct (bestWith score used T d) as [[b |] bs]; cbn [fst snd] in B.
    + destruct (IEEE.ge bs floor).
      * destruct i as [| i]; cbn in Hi; cbn [firstn].
        { injection Hi as <-. cbn in Ht. injection Ht as <-.
          destruct (B b eq_refl) as (k & FB & _). exists k. cbn [fst snd].
          replace (used ∪ claimed []) with used by (unfold claimed; cbn; set_solver).
          exact FB. }
        destruct (IH _ _ Hi Ht) as (k & FB). exists k. rewrite claimed_cons. cbn [fst snd].
        replace (used ∪ ({[Sec.id b]}
                          ∪ claimed (take i (align score floor T ({[Sec.id b]} ∪ used) ds))))
          with ({[Sec.id b]} ∪ used
                ∪ claimed (take i (align score floor T ({[Sec.id b]} ∪ used) ds)))
          by set_solver.
        exact FB.
      * destruct i as [| i]; cbn in Hi; cbn [firstn].
        { injection Hi as <-. discriminate Ht. }
        destruct (IH _ _ Hi Ht) as (k & FB). exists k. rewrite claimed_cons. exact FB.
    + destruct i as [| i]; cbn in Hi; cbn [firstn].
      { injection Hi as <-. discriminate Ht. }
      destruct (IH _ _ Hi Ht) as (k & FB). exists k. rewrite claimed_cons. exact FB.
Qed.

Lemma claimed_of_fst (es : list entry) :
  claimed es = list_to_set (omap (fun x : Sec.t * option Sec.t => Sec.id <$> snd x) (map fst es)).
Proof.
  unfold claimed. f_equal. induction es as [| [[d r] q] es IH]; [reflexivity |].
  cbn. destruct r; cbn; [f_equal |]; exact IH.
Qed.

Lemma claimedMatches_of_entries (ms : list ReviewDashboard.SectionMatch) :
  claimedMatches ms
  = list_to_set (omap (fun x : Sec.t * option Sec.t => Sec.id <$> snd x) (map matchEntry ms)).
Proof.
  unfold claimedMatches. f_equal. induction ms as [| m ms IH]; [reflexivity |].
  cbn. destruct (ReviewDashboard.templateSection m); cbn; [f_equal |]; exact IH.
Qed.

(** X14. Ties go to the earliest template section. In both components
    the template section matched to a draft section is the first, in
    template order, among the sections not claimed by an earlier entry that
    reach the highest score. *)
Theorem components_first_best (T D : list Sec.t) (allIssues : list Issue.t)
  (resolvedSections : gset string) (i : nat) (t : Sec.t) :
  (forall p, ComparisonView.sectionPairs T D allIssues !! i = Some p ->
     ComparisonView.templateSection p = Some t ->
     exists k, firstBest ComparisonView.score T
                 (claimedPairs (take i (ComparisonView.sectionPairs T D allIssues)))
                 (ComparisonView.draftSection p) t k)
  /\ (forall m, ReviewDashboard.sectionMatches T D allIssues resolvedSections !! i = Some m ->
        ReviewDashboard.templateSection m = Some t ->
        exists k, firstBest ReviewDashboard.score T
                    (claimedMatches
                       (take i (ReviewDashboard.sectionMatches T D allIssues resolvedSections)))
                    (ReviewDashboard.draftSection m) t k).
Proof.
  split.
  - intros p Hp Ht.
    assert (A : align ComparisonView.score 30 T ∅ D !! i = Some (pairEntry p)).
    { rewrite <- (sectionPairs_align T D allIssues), list_lookup_fmap, Hp. reflexivity. }
    destruct (align_first ComparisonView.score 30 T ∅ D i _ t A Ht) as (k & FB).
    exists k. rewrite <- (sectionPairs_align T D allIssues), <- fmap_take in FB.
    replace (∅ ∪ claimed (pairEntry <$> take i (ComparisonView.sectionPairs T D allIssues)))
      with (claimedPairs (take i (ComparisonView.sectionPairs T D allIssues))) in FB
      by (unfold claimedPairs; set_solver).
    exact FB.
  - intros m Hm Ht.
    assert (E : map fst (align ReviewDashboard.score 40 T ∅ D) !! i = Some (matchEntry m)).
    { rewrite <- (sectionMatches_align T D allIssues resolvedSections), list_lookup_fmap, Hm.
      reflexivity. }
    rewrite list_lookup_fmap in E. apply fmap_Some in E as (e & A & E).
    destruct e as [[d r] q]. cbn in E. injection E as Ed Er. subst d r.
    destruct (align_first ReviewDashboard.score 40 T ∅ D i _ t A Ht) as (k & FB).
    exists k.
    rewrite claimed_of_fst, <- firstn_map,
      <- (sectionMatches_align T D allIssues resolvedSections),
      firstn_map, <- claimedMatches_of_entries in FB.
    replace (∅ ∪ claimedMatches
                   (take i (ReviewDashboard.sectionMatches T D allIssues resolvedSections)))
      with (claimedMatches
              (take i (ReviewDashboard.sectionMatches T D allIssues resolvedSections)))
      in FB by set_solver.
    exact FB.
Qed.

(** Two template sections with the same number, title, level and body: the
    draft section takes the first; the next draft section takes the second. *)
Lemma components_first_best_witness :
  let Ta := Sec.mk "a" (Some "1") (Some "Scope") 1 "b" None None in
  let Tb := Sec.mk "b" (Some "1") (Some "Scope") 1 "b" None None in
  let Da := Sec.mk "x" (Some "1") (Some "Scope") 1 "b" None None in
  let Db := Sec.mk "y" (Some "1") (Some "Scope") 1 "b" None None in
  ReviewDashboard.alignment (ReviewDashboard.sectionMatches [Ta; Tb] [Da; Db] [] ∅)
  = [("x", Some "a"); ("y", Some "b")]
  /\ exists k, firstBest ReviewDashboard.score [Ta; Tb] ∅ Da Ta k.
Proof.
  intros Ta Tb Da Db. split; [vm_compute; reflexivity |].
  assert (L : exists m, ReviewDashboard.sectionMatches [Ta; Tb] [Da; Db] [] ∅ !! 0 = Some m
                        /\ ReviewDashboard.templateSection m = Some Ta
                        /\ ReviewDashboard.draftSection m = Da).
  { eexists. split; [vm_compute; reflexivity |]. split; reflexivity. }
  destruct L as (m & L & Lt & Ld).
  destruct (proj2 (components_first_best [Ta; Tb] [Da; Db] [] ∅ 0 Ta) m L Lt) as (k & FB).
  exists k. rewrite Ld in FB. cbn [take] in FB.
  replace (claimedMatches []) with (∅ : gset string) in FB by reflexivity. exact FB.
Defined.

End PanelProperties.

(** ** The formatting differ, further *)

Module DifferMore.
Import JsString FormattingAnalyzer DifferSpec DifferFacts DifferShape.

Lemma compareRuns_refl show draftSection i r : compareRuns show draftSection i r r = [].
Proof.
  unfold compareRuns. cbv zeta.
  rewrite !neqBool_refl, neqNumber_refl, neqString_refl. reflexivity.
Qed.

Lemma compareParagraphs_refl show draftSection i p :
  compareParagraphs show draftSection i p p = [].
Proof.
  unfold compareParagraphs, compareParagraphLevel. cbv zeta.
  rewrite neqAlignment_refl, neqString_refl, !neqNumber_refl, neqBool_refl. cbn.
  induction (runs p) as [| r l IH]; [reflexivity |]. cbn.
  rewrite compareRuns_refl. exact IH.
Qed.

Lemma compareFrom_refl show draftSection i ps : compareFrom show draftSection i ps ps = [].
Proof.
  revert i. induction ps as [| p ps IH]; intros i; [reflexivity |]. cbn.
  rewrite compareParagraphs_refl, IH. reflexivity.
Qed.

Lemma nth_error_length {A : Type} (l : list A) (k : nat) (x : A) :
  nth_error l k = Some x -> k < length l.
Proof. intros H. apply nth_error_Some. rewrite H. discriminate. Qed.

Lemma compareFrom_truncate show draftSection i templateParas draftParas :
  compareFrom show draftSection i templateParas draftParas
  = compareFrom show draftSection i
      (firstn (Nat.min (length templateParas) (length draftParas)) templateParas)
      (firstn (Nat.min (length templateParas) (length draftParas)) draftParas).
Proof.
  revert i draftParas. induction templateParas as [| tPara ts IH]; intros i draftParas.
  - reflexivity.
  - destruct draftParas as [| dPara ds]; [reflexivity |]. cbn. rewrite <- IH. reflexivity.
Qed.

Lemma compareFrom_section show ds ds' i l1 l2 :
  section ds = section ds' -> compareFrom show ds i l1 l2 = compareFrom show ds' i l1 l2.
Proof.
  intros E. revert i l2. induction l1 as [| a l1 IH]; intros i l2; [reflexivity |].
  destruct l2 as [| b l2]; [reflexivity |]. cbn. rewrite IH. f_equal.
  unfold compareParagraphs, compareParagraphLevel, compareRuns, paragraphLocation.
  rewrite E. reflexivity.
Qed.

End DifferMore.

Module DifferProperties.
Import JsString FormattingAnalyzer DifferSpec DifferFacts DifferShape DifferMore.

(** X15. A section compared with itself shows no formatting difference
    (its numbers being finite: the parser stores no heading level that is
    not a number). *)
Theorem differ_reflexive (numberToString : Q -> string) (s : RichSection) :
  compareSectionFormatting numberToString (Some s) s = [].
Proof.
  unfold compareSectionFormatting. destruct (paragraphs s) as [ps |]; [| reflexivity].
  rewrite compareFrom_refl. cbn. destruct (tables s) as [ts |]; [| reflexivity].
  unfold compareTables. rewrite Nat.eqb_refl. reflexivity.
Qed.

(** X16. The shape of a reported difference. It is located in the draft
    section; it is never of type [list]; it is the table-count difference
    exactly when it has no fix, and exactly when it has no paragraph index;
    a paragraph index lies within both paragraph lists; and its type, its
    severity and its kind of fix follow from the compared attribute, which
    its description names: alignment, bold and italic are of medium
    severity, style, heading, font size, font family and table count of
    high, spacing and indent of low. The type [font] covers bold, italic,
    size and family, so the type alone does not give the severity. *)
Theorem difference_shape (numberToString : Q -> string)
  (templateSection draftSection : RichSection) (d : FormattingDifference) :
  In d (compareSectionFormatting numberToString (Some templateSection) draftSection) ->
  sectionId (location d) = Sec.id (section draftSection)
  /\ type d <> dList
  /\ (type d = dTable <-> fix_ d = None)
  /\ (type d = dTable <-> paragraphIndex (location d) = None)
  /\ (forall i, paragraphIndex (location d) = Some i ->
        exists templateParas draftParas,
          paragraphs templateSection = Some templateParas
          /\ paragraphs draftSection = Some draftParas
          /\ i < length templateParas /\ i < length draftParas)
  /\ exists a, attributeOf d = Some a /\ type d = typeOf a /\ severity d = severityOf a
               /\ option_map fixType (fix_ d) = fixTypeOf a.
Proof.
  intros H.
  destruct (compareSectionFormatting_reported _ _ _ _ H)
    as (tps & dps & Pt & Pd & [(i & tp & dp & N1 & N2 & R) | T]).
  - destruct R as (S1 & L & a & A & NT & Ty & Sv & Fx & _).
    assert (Td : type d <> dTable) by (rewrite Ty; destruct a; cbn; congruence).
    assert (Fd : fix_ d <> None).
    { intros E. rewrite E in Fx. destruct a; cbn in Fx; try discriminate Fx. congruence. }
    split; [exact S1 |].
    split; [rewrite Ty; destruct a; discriminate |].
    split; [split; intros E; contradiction |].
    split; [split; intros E; [contradiction | rewrite L in E; discriminate E] |].
    split.
    + intros k E. rewrite L in E. injection E as <-. exists tps, dps.
      split; [exact Pt |]. split; [exact Pd |].
      split; eapply nth_error_length; eassumption.
    + exists a. repeat split; assumption.
  - destruct T as (A & Ty & Sv & Fx & L).
    split; [rewrite L; reflexivity |].
    split; [rewrite Ty; discriminate |].
    split; [split; intros _; assumption |].
    split; [split; intros _; [rewrite L; reflexivity | exact Ty] |].
    split; [intros k E; rewrite L in E; discriminate E |].
    exists aTableCount. rewrite Fx. repeat split; assumption.
Qed.

(** A template paragraph that is dressed against a bare draft paragraph:
    six differences, the two font differences both of high severity. *)
Lemma difference_shape_witness :
  let t := sectionOf "t" [dressedParagraph] in
  let d := sectionOf "d" [bareParagraph] in
  map (fun x => (attributeOf x, type x, severity x))
    (compareSectionFormatting showInteger (Some t) d)
  = [(Some aStyle, dStyle, high); (Some aSpacingAfter, dSpacing, low);
     (Some aIndentLeft, dIndent, low); (Some aHeading, dHeading, high);
     (Some aFontSize, dFont, high); (Some aFontFamily, dFont, high)]
  /\ Forall (fun x => sectionId (location x) = "d"
                      /\ exists a, attributeOf x = Some a /\ type x = typeOf a
                                   /\ severity x = severityOf a
                                   /\ option_map fixType (fix_ x) = fixTypeOf a)
       (compareSectionFormatting showInteger (Some t) d).
Proof.
  intros t d. split; [vm_compute; reflexivity |].
  apply List.Forall_forall. intros x Hx.
  destruct (difference_shape showInteger t d x Hx) as (L & _ & _ & _ & _ & S).
  split; [exact L | exact S].
Defined.

(** X17. The differ is driven by the template. A difference found at a
    paragraph is found on an attribute whose values differ between the
    template paragraph and the draft paragraph at that index or, for bold,
    italic, font size and font family, between the template run and the
    draft run at one position, the draft run being the one the difference
    quotes; and a style, spacing, indent, heading, font-size or font-family
    difference is reported only where the template paragraph, or that
    template run, sets that very attribute. What only the draft sets is
    never reported, except alignment, bold and italic, which are compared as
    they are. *)
Theorem difference_needs_template_value (numberToString : Q -> string)
  (templateSection draftSection : RichSection) (d : FormattingDifference) (i : nat) :
  In d (compareSectionFormatting numberToString (Some templateSection) draftSection) ->
  paragraphIndex (location d) = Some i ->
  exists templateParas draftParas tPara dPara a tRun dRun,
    paragraphs templateSection = Some templateParas
    /\ paragraphs draftSection = Some draftParas
    /\ nth_error templateParas i = Some tPara
    /\ nth_error draftParas i = Some dPara
    /\ attributeOf d = Some a
    /\ (ofRuns a = true -> comparedRuns tPara dPara d tRun dRun)
    /\ differsOn a tPara dPara tRun dRun
    /\ templateSets a tPara tRun.
Proof.
  intros H Hi.
  destruct (compareSectionFormatting_reported _ _ _ _ H)
    as (tps & dps & Pt & Pd & [(k & tp & dp & N1 & N2 & R) | T]).
  - destruct R as (_ & L & a & A & _ & _ & _ & _ & tRun & dRun & C & D & S & _).
    rewrite L in Hi. injection Hi as <-.
    exists tps, dps, tp, dp, a, tRun, dRun. repeat (split; [assumption |]). exact S.
  - destruct T as (_ & _ & _ & _ & L). rewrite L in Hi. discriminate Hi.
Qed.

(** The draft sets a style, spacing, an indent, a heading level, a font
    size and a font family that the template leaves unset: nothing is
    reported. The other way round, six differences are. *)
Lemma difference_needs_template_value_witness :
  compareSectionFormatting showInteger (Some (sectionOf "t" [bareParagraph]))
    (sectionOf "d" [dressedParagraph]) = []
  /\ map templateValue
       (compareSectionFormatting showInteger (Some (sectionOf "t" [dressedParagraph]))
          (sectionOf "d" [bareParagraph]))
     = ["Normal"; "200"; "720"; "Heading 1"; "14pt"; "Arial"]
  /\ forall d, In d (compareSectionFormatting showInteger
                       (Some (sectionOf "t" [dressedParagraph]))
                       (sectionOf "d" [bareParagraph])) ->
               exists templateParas draftParas tPara dPara a tRun dRun,
                 paragraphs (sectionOf "t" [dressedParagraph]) = Some templateParas
                 /\ paragraphs (sectionOf "d" [bareParagraph]) = Some draftParas
                 /\ nth_error templateParas 0 = Some tPara
                 /\ nth_error draftParas 0 = Some dPara
                 /\ attributeOf d = Some a
                 /\ (ofRuns a = true -> comparedRuns tPara dPara d tRun dRun)
                 /\ differsOn a tPara dPara tRun dRun
                 /\ templateSets a tPara tRun.
Proof.
  split; [vm_compute; reflexivity |]. split; [vm_compute; reflexivity |]. intros d Hd.
  apply (difference_needs_template_value showInteger (sectionOf "t" [dressedParagraph])
           (sectionOf "d" [bareParagraph]) d 0 Hd).
  revert Hd. vm_compute. intros Hd.
  repeat (destruct Hd as [<- | Hd]; [reflexivity |]). destruct Hd.
Defined.

(** X18. Paragraphs are compared pairwise by position, up to the length of
    the shorter list: paragraphs beyond it change nothing, so a paragraph
    that the draft lacks or adds is never reported. In particular a draft
    section without paragraphs differs from the template at most by its
    number of tables. *)
Theorem differ_ignores_extra_paragraphs (numberToString : Q -> string)
  (templateSection draftSection : RichSection)
  (templateParas draftParas : list RichParagraph) :
  paragraphs templateSection = Some templateParas ->
  paragraphs draftSection = Some draftParas ->
  let n := Nat.min (length templateParas) (length draftParas) in
  compareSectionFormatting numberToString (Some templateSection) draftSection
  = compareSectionFormatting numberToString
      (Some (withParagraphs templateSection (firstn n templateParas)))
      (withParagraphs draftSection (firstn n draftParas))
  /\ (draftParas = [] ->
      forall d, In d (compareSectionFormatting numberToString (Some templateSection)
                        draftSection) ->
                type d = dTable).
Proof.
  intros Et Ed n. split.
  - unfold compareSectionFormatting, withParagraphs. rewrite Et, Ed. cbn.
    rewrite (compareFrom_truncate numberToString draftSection 0 templateParas draftParas).
    fold n.
    rewrite (compareFrom_section numberToString draftSection
               {| section := section draftSection;
                  paragraphs := Some (firstn n draftParas);
                  tables := tables draftSection |}) by reflexivity.
    reflexivity.
  - intros -> d H. unfold compareSectionFormatting in H. rewrite Et, Ed in H.
    replace (compareFrom numberToString draftSection 0 templateParas [])
      with (@nil FormattingDifference) in H
      by (destruct templateParas; reflexivity).
    cbn in H. destruct (tables templateSection) as [tt |]; [| destruct H].
    destruct (tables draftSection) as [dt |]; [| destruct H].
    unfold compareTables in H.
    destruct (negb (Nat.eqb (length tt) (length dt))); [| destruct H].
    destruct H as [<- | []]. reflexivity.
Qed.

Lemma differ_ignores_extra_paragraphs_witness :
  compareSectionFormatting showInteger
    (Some (sectionOf "t" [bareParagraph; dressedParagraph]))
    (sectionOf "d" [bareParagraph])
  = compareSectionFormatting showInteger (Some (sectionOf "t" [bareParagraph]))
      (sectionOf "d" [bareParagraph])
  /\ compareSectionFormatting showInteger
       (Some (sectionOf "t" [bareParagraph; dressedParagraph]))
       (sectionOf "d" [bareParagraph]) = [].
Proof.
  split; [| vm_compute; reflexivity].
  exact (proj1 (differ_ignores_extra_paragraphs showInteger
                  (sectionOf "t" [bareParagraph; dressedParagraph])
                  (sectionOf "d" [bareParagraph])
                  [bareParagraph; dressedParagraph] [bareParagraph] eq_refl eq_refl)).
Defined.

End DifferProperties.

(** ** The analyzers, further *)

Module AnalyzerMore.
Import JsString OpenaiAnalyzer AnalyzerSpec AnalyzerFacts OpenaiGlobal GlobalSpec.
Import MatcherFacts.

Lemma issues_fold (g : nat * Sec.t -> SectionAnalysis)
  (bs : list (list (nat * Sec.t))) (acc : list SectionAnalysis) (acc' : list Issue.t) :
  snd (fold_left
         (fun (a : list SectionAnalysis * list Issue.t) batch =>
            (fst a ++ map g batch, snd a ++ flat_map issues (map g batch)))
         bs (acc, acc'))
  = acc' ++ flat_map issues (map g (concat bs)).
Proof.
  revert acc acc'. induction bs as [| b bs IH]; intros acc acc'; cbn.
  - rewrite app_nil_r. reflexivity.
  - rewrite IH. cbn. rewrite map_app, flat_map_app, app_assoc. reflexivity.
Qed.

Lemma analyzeSections_unfold svc uuidv4 templateSow newSow :
  analyzeSections svc uuidv4 templateSow newSow
  = (map (analysisOf svc uuidv4 templateSow newSow)
       (imap (fun n s => (n, s)) (sections newSow)),
     flat_map issues
       (map (analysisOf svc uuidv4 templateSow newSow)
          (imap (fun n s => (n, s)) (sections newSow)))).
Proof.
  unfold analyzeSections.
  change (fold_left _ _ _)
    with (fold_left
            (fun (a : list SectionAnalysis * list Issue.t) batch =>
               (fst a ++ map (analysisOf svc uuidv4 templateSow newSow) batch,
                snd a ++ flat_map issues
                           (map (analysisOf svc uuidv4 templateSow newSow) batch)))
            (batches (imap (fun n s => (n, s)) (sections newSow))) ([], [])).
  rewrite (surjective_pairing (fold_left _ _ _)).
  rewrite analyses_fold, issues_fold, batches_concat. reflexivity.
Qed.

Lemma analyzeSectionPair_issues svc uuidv4 templateSection newSection context :
  let a := analyzeSectionPair svc uuidv4 templateSection newSection context in
  Forall (fun x => Issue.sectionId x = Sec.id newSection) (issues a)
  /\ matchedOldSectionId a = option_map Sec.id templateSection.
Proof.
  cbn zeta. unfold analyzeSectionPair.
  destruct (tryAnalyze svc uuidv4 templateSection newSection context) as [e | a] eqn:E;
    [split; [constructor | reflexivity] |].
  unfold tryAnalyze, bind in E.
  destruct (getClient svc); [discriminate E |].
  destruct (create svc _) as [| c]; [discriminate E |].
  destruct c as [c |]; [| discriminate E].
  destruct (nonEmpty c); [| discriminate E]. cbn in E.
  destruct (parse svc c) as [| r]; [discriminate E |].
  destruct (replyIssues r) as [l |]; [| discriminate E].
  injection E as <-. cbn. split; [| reflexivity].
  apply List.Forall_forall. intros x Hx. apply list_elem_of_In in Hx.
  apply elem_of_lookup_imap in Hx as (k & y & -> & _). reflexivity.
Qed.

Lemma imap_index {A : Type} (l : list A) (k : nat) (ns : nat * A) :
  imap (fun n s => (n, s)) l !! k = Some ns -> fst ns = k /\ l !! k = Some (snd ns).
Proof.
  rewrite list_lookup_imap. destruct (l !! k) as [a |]; [| discriminate].
  cbn. intros [= <-]. split; reflexivity.
Qed.

Lemma imap_snd {A : Type} (l : list A) : map snd (imap (fun n s => (n, s)) l) = l.
Proof.
  assert (G : forall (k : nat), map snd (imap (fun n (s : A) => (k + n, s)) l) = l).
  { induction l as [| a l IH]; intros k; [reflexivity |]. cbn. f_equal.
    rewrite <- (IH (S k)) at 2. f_equal. apply imap_ext. intros n x _. cbn. f_equal. lia. }
  apply (G 0).
Qed.

(** Issues filed under one identifier, out of the issues of analyses with
    distinct section identifiers. *)
Lemma filter_own_issues (as_ : list SectionAnalysis) (k : nat) (a : SectionAnalysis) :
  NoDup (map sectionId as_) ->
  Forall (fun a => Forall (fun x => Issue.sectionId x = sectionId a) (issues a)) as_ ->
  as_ !! k = Some a ->
  List.filter (fun x => String.eqb (Issue.sectionId x) (sectionId a)) (flat_map issues as_)
  = issues a.
Proof.
  assert (All : forall (l : list Issue.t) key,
             Forall (fun x => Issue.sectionId x = key) l ->
             List.filter (fun x => String.eqb (Issue.sectionId x) key) l = l).
  { intros l key F. induction F as [| x l Hx F IH]; [reflexivity |].
    cbn. rewrite Hx, String.eqb_refl, IH. reflexivity. }
  assert (Non : forall (l : list Issue.t) key key',
             key' <> key -> Forall (fun x => Issue.sectionId x = key') l ->
             List.filter (fun x => String.eqb (Issue.sectionId x) key) l = []).
  { intros l key key' N F. induction F as [| x l Hx F IH]; [reflexivity |].
    cbn. rewrite Hx. apply String.eqb_neq in N. rewrite N. exact IH. }
  revert k. induction as_ as [| b as_ IH]; intros k N F Hk; [discriminate Hk |].
  cbn [map] in N. apply NoDup_cons in N as [N1 N2].
  apply Forall_cons in F as [Fb F].
  cbn [flat_map]. rewrite List.filter_app. destruct k as [| k]; cbn in Hk.
  - injection Hk as ->. rewrite (All _ _ Fb).
    assert (Z : List.filter (fun x => String.eqb (Issue.sectionId x) (sectionId a))
                  (flat_map issues as_) = []).
    { clear IH. induction as_ as [| c as_ IH]; [reflexivity |].
      cbn [flat_map]. rewrite List.filter_app.
      apply Forall_cons in F as [Fc F]. cbn [map] in N1, N2.
      apply NoDup_cons in N2 as [N2 N3].
      rewrite (Non _ (sectionId a) (sectionId c)); [| | exact Fc].
      - cbn. apply IH; [| exact N3 | exact F].
        intros H. apply N1. apply elem_of_cons. right. exact H.
      - intros E. apply N1. rewrite E. apply list_elem_of_here. }
    rewrite Z, app_nil_r. reflexivity.
  - rewrite (Non _ (sectionId a) (sectionId b)); [| | exact Fb].
    + cbn. apply (IH k); assumption.
    + intros E. apply N1. rewrite E. apply list_elem_of_fmap.
      exists a. split; [reflexivity |]. apply list_elem_of_lookup_2 in Hk. exact Hk.
Qed.

Lemma failure_message svc templateSow newSow e :
  GlobalFailure svc (globalRequest templateSow newSow) e ->
  tryAnalyzeGlobal svc templateSow newSow = inl e.
Proof.
  intros F. unfold tryAnalyzeGlobal.
  destruct F as [H | H1 H2 | c H1 H2 H3 H4 | c H1 H2 H3 H4].
  - rewrite H. reflexivity.
  - rewrite H1. cbn. rewrite H2. reflexivity.
  - rewrite H1. cbn. rewrite H2. cbn. subst e. destruct c as [c |]; cbn in H3.
    + rewrite H3. reflexivity.
    + reflexivity.
  - rewrite H1. cbn. rewrite H2. cbn. rewrite H3. cbn. rewrite H4. reflexivity.
Qed.

End AnalyzerMore.

Module AnalyzerProperties.
Import JsString OpenaiAnalyzer AnalyzerSpec AnalyzerFacts OpenaiGlobal GlobalSpec.
Import AlignerSpec AlignerFacts MatcherFacts PanelFacts AnalyzerMore.

Lemma find_by_id (T : list Sec.t) (b : Sec.t) :
  b ∈ T ->
  exists t, List.find (fun s => String.eqb (Sec.id s) (Sec.id b)) T = Some t
            /\ Sec.id t = Sec.id b.
Proof.
  induction T as [| t T IH]; intros H; [inversion H |]. cbn.
  destruct (String.eqb (Sec.id t) (Sec.id b)) eqn:E.
  - exists t. split; [reflexivity | apply String.eqb_eq, E].
  - apply elem_of_cons in H as [-> | H]; [rewrite String.eqb_refl in E; discriminate E |].
    apply IH, H.
Qed.

Lemma findTemplate_match (T D : list Sec.t) (k : string) :
  option_map Sec.id (findTemplate T (DocxParser.matchSections T D !! k))
  = match DocxParser.matchSections T D !! k with
    | Some (Some t) => Some t
    | _ => None
    end.
Proof.
  destruct (DocxParser.matchSections T D !! k) as [[tid |] |] eqn:E; try reflexivity.
  unfold DocxParser.matchSections in E. apply matches_value in E as (d & _ & _ & V).
  rewrite bestMatch_bestWith in V. unfold DocxParser.idOrNull in V.
  pose proof (bestWith_spec DocxParser.score ∅ d T) as B. unfold bestOf in B.
  destruct (fst (bestWith DocxParser.score ∅ T d)) as [b |]; [| discriminate V].
  destruct (nonEmpty (Sec.id b)) eqn:N; [| discriminate V]. injection V as ->.
  unfold findTemplate. rewrite N.
  destruct (find_by_id T b (proj1 B)) as (t & -> & Et). cbn. rewrite Et. reflexivity.
Qed.

(** X19. The issues of an analysis run. [allIssues] is the concatenation,
    in section order, of the issues of the section analyses; every issue
    carries the identifier of the draft section in whose analysis it was
    found; and the analysis of a draft section records as
    [matchedOldSectionId] the template identifier that [matchSections] gives
    for it (none when that is null). *)
Theorem issues_belong_to_sections (svc : Service) (uuidv4 : nat -> nat -> string)
  (templateSow newSow : ParsedSOW) :
  let analyses := fst (analyzeSections svc uuidv4 templateSow newSow) in
  let allIssues := snd (analyzeSections svc uuidv4 templateSow newSow) in
  allIssues = flat_map issues analyses
  /\ Forall (fun a => Forall (fun x => Issue.sectionId x = sectionId a) (issues a)) analyses
  /\ (forall k a d,
        analyses !! k = Some a -> sections newSow !! k = Some d ->
        sectionId a = Sec.id d
        /\ matchedOldSectionId a
           = match DocxParser.matchSections (sections templateSow) (sections newSow)
                   !! Sec.id d with
             | Some (Some t) => Some t
             | _ => None
             end).
Proof.
  cbn zeta. rewrite analyzeSections_unfold. cbn [fst snd].
  split; [reflexivity |]. split.
  - apply List.Forall_forall. intros a Ha. apply in_map_iff in Ha as (ns & <- & _).
    unfold analysisOf. rewrite analyzeSectionPair_sectionId.
    apply analyzeSectionPair_issues.
  - intros k a d Ha Hd. rewrite list_lookup_fmap in Ha.
    apply fmap_Some in Ha as (ns & Hn & ->). apply imap_index in Hn as (_ & Hn).
    rewrite Hd in Hn. injection Hn as Hn. unfold analysisOf.
    rewrite analyzeSectionPair_sectionId, (proj2 (analyzeSectionPair_issues _ _ _ _ _)).
    rewrite <- Hn. split; [reflexivity | apply findTemplate_match].
Qed.

Lemma issues_belong_to_sections_witness :
  let run := analyzeSections reportingService (fun _ _ => "issue")
               (AnalyzerSpec.sow "template.docx" [T1; T2])
               (AnalyzerSpec.sow "draft.docx" [D1; D3]) in
  map (fun a => (sectionId a, matchedOldSectionId a)) (fst run)
  = [("d1", Some "t1"); ("d3", None)]
  /\ map Issue.sectionId (snd run) = ["d1"; "d3"]
  /\ forall a, fst run !! 1 = Some a ->
               sectionId a = "d3" /\ matchedOldSectionId a = None.
Proof.
  intros run. split; [vm_compute; reflexivity |]. split; [vm_compute; reflexivity |].
  intros a Ha.
  destruct (proj2 (proj2 (issues_belong_to_sections reportingService (fun _ _ => "issue")
                            (AnalyzerSpec.sow "template.docx" [T1; T2])
                            (AnalyzerSpec.sow "draft.docx" [D1; D3])))
              1 a D3 Ha eq_refl) as (E1 & E2).
  split; [exact E1 |]. rewrite E2. vm_compute. reflexivity.
Defined.

(** X20. From the analysis to the two views. When the draft sections have
    distinct identifiers, the entry that the comparison view and the review
    dashboard show for the k-th draft section carries exactly the issues of
    the k-th section analysis, in order. *)
Theorem views_show_analysis_issues (svc : Service) (uuidv4 : nat -> nat -> string)
  (templateSow newSow : ParsedSOW) (resolvedSections : gset string) (k : nat)
  (a : SectionAnalysis) :
  let allIssues := snd (analyzeSections svc uuidv4 templateSow newSow) in
  NoDup (map Sec.id (sections newSow)) ->
  fst (analyzeSections svc uuidv4 templateSow newSow) !! k = Some a ->
  (forall p, ComparisonView.sectionPairs (sections templateSow) (sections newSow) allIssues
               !! k = Some p ->
             Sec.id (ComparisonView.draftSection p) = sectionId a
             /\ ComparisonView.issues p = issues a)
  /\ (forall m, ReviewDashboard.sectionMatches (sections templateSow) (sections newSow)
                  allIssues resolvedSections !! k = Some m ->
                Sec.id (ReviewDashboard.draftSection m) = sectionId a
                /\ ReviewDashboard.issues m = issues a).
Proof.
  intros allIssues N Ha.
  pose proof (analyzeSections_unfold svc uuidv4 templateSow newSow) as U.
  set (analyses := map (analysisOf svc uuidv4 templateSow newSow)
                     (imap (fun n s => (n, s)) (sections newSow))) in U.
  assert (Ea : fst (analyzeSections svc uuidv4 templateSow newSow) = analyses)
    by (rewrite U; reflexivity).
  assert (Ei : allIssues = flat_map issues analyses) by (unfold allIssues; rewrite U; reflexivity).
  rewrite Ea in Ha.
  assert (Ids : map sectionId analyses = map Sec.id (sections newSow)).
  { unfold analyses. rewrite map_map.
    rewrite <- (imap_snd (sections newSow)) at 2. rewrite map_map.
    apply map_ext. intros ns. unfold analysisOf. apply analyzeSectionPair_sectionId. }
  assert (F : Forall (fun a => Forall (fun x => Issue.sectionId x = sectionId a) (issues a))
                analyses).
  { apply List.Forall_forall. intros b Hb. apply in_map_iff in Hb as (ns & <- & _).
    unfold analysisOf. rewrite analyzeSectionPair_sectionId. apply analyzeSectionPair_issues. }
  assert (Own : List.filter (fun x => String.eqb (Issue.sectionId x) (sectionId a)) allIssues
                = issues a).
  { rewrite Ei. apply (filter_own_issues analyses k a); [rewrite Ids; exact N | exact F | exact Ha]. }
  assert (Dk : exists d, sections newSow !! k = Some d /\ Sec.id d = sectionId a).
  { assert (L : map sectionId analyses !! k = Some (sectionId a))
      by (rewrite list_lookup_fmap, Ha; reflexivity).
    rewrite Ids, list_lookup_fmap in L. apply fmap_Some in L as (d & Hd & E).
    exists d. split; [exact Hd | symmetry; exact E]. }
  destruct Dk as (d & Hd & Ed).
  split.
  - intros p Hp.
    assert (Dp : ComparisonView.draftSection p = d).
    { pose proof (PanelProperties.sectionPairs_drafts (sections templateSow) (sections newSow)
                    allIssues) as L.
      apply (f_equal (fun l => l !! k)) in L. rewrite list_lookup_fmap, Hp, Hd in L.
      cbn in L. injection L as L. exact L. }
    split; [rewrite Dp; exact Ed |].
    pose proof (pairs_issues (sections templateSow) (groupIssues allIssues) (sections newSow)
                  [] ∅ (List.Forall_nil _)) as Fp.
    rewrite List.Forall_forall in Fp.
    rewrite (Fp p (proj1 (list_elem_of_In _ _) (list_elem_of_lookup_2 _ _ _ Hp))).
    rewrite groupIssues_lookup, Dp, Ed. exact Own.
  - intros m Hm.
    assert (Dm : ReviewDashboard.draftSection m = d).
    { pose proof (PanelProperties.sectionMatches_drafts (sections templateSow)
                    (sections newSow) allIssues resolvedSections) as L.
      apply (f_equal (fun l => l !! k)) in L. rewrite list_lookup_fmap, Hm, Hd in L.
      cbn in L. injection L as L. exact L. }
    split; [rewrite Dm; exact Ed |].
    pose proof (matches_issues (sections templateSow) (groupIssues allIssues) resolvedSections
                  (sections newSow) [] ∅ (List.Forall_nil _)) as Fm.
    rewrite List.Forall_forall in Fm.
    rewrite (proj1 (Fm m (proj1 (list_elem_of_In _ _) (list_elem_of_lookup_2 _ _ _ Hm)))).
    rewrite groupIssues_lookup, Dm, Ed. exact Own.
Qed.

Lemma views_show_analysis_issues_witness :
  let t := AnalyzerSpec.sow "template.docx" [T1; T2] in
  let n := AnalyzerSpec.sow "draft.docx" [D1; D3] in
  let run := analyzeSections reportingService (fun _ _ => "issue") t n in
  NoDup (map Sec.id (sections n))
  /\ (exists a, fst run !! 1 = Some a /\ map Issue.id (issues a) = ["issue"])
  /\ forall a p, fst run !! 1 = Some a ->
                 ComparisonView.sectionPairs (sections t) (sections n) (snd run) !! 1 = Some p ->
                 Sec.id (ComparisonView.draftSection p) = sectionId a
                 /\ ComparisonView.issues p = issues a.
Proof.
  intros t n run.
  assert (N : NoDup (map Sec.id (sections n))).
  { cbn. apply NoDup_cons. split; [| apply NoDup_singleton].
    intros H. apply list_elem_of_singleton in H. discriminate H. }
  split; [exact N |]. split; [eexists; split; vm_compute; reflexivity |].
  intros a p Ha Hp.
  exact (proj1 (views_show_analysis_issues reportingService (fun _ _ => "issue") t n ∅ 1 a
                  N Ha) p Hp).
Defined.

Lemma len_str (l : list ascii) : len (str l) = length l.
Proof. unfold len, str. induction l as [| a l IH]; [reflexivity |]. cbn. rewrite IH. reflexivity. Qed.

Lemma len_append (a b : string) : len (a ++ b)%string = len a + len b.
Proof.
  unfold len. induction a as [| c a IH]; [reflexivity |].
  change (S (String.length (a ++ b)%string) = S (String.length a + String.length b)).
  rewrite IH. reflexivity.
Qed.

(** X21. When the document-level call fails, [analyzeGlobal] does not
    propagate the error: it returns scope change [unchanged], no red flag
    and no other finding, with a summary chosen from the error message. The
    summary is not empty and holds at most 100 characters of the message;
    rate limiting is tested first, so a message that mentions [429], or
    [rate] in any case and anywhere, is reported as rate limiting whatever
    else it says. *)
Theorem global_failure_is_neutral (svc : GlobalService) (templateSow newSow : ParsedSOW)
  (e : string) :
  GlobalFailure svc (globalRequest templateSow newSow) e ->
  let g := analyzeGlobal svc templateSow newSow in
  scopeChange g = Some "unchanged"
  /\ criticalRedFlags g = []
  /\ scopeChangeDescription g = None /\ totalValueChange g = None /\ timelineChanges g = None
  /\ (exists text, summary g = Some text /\ nonEmpty text = true /\ len text <= 138
                   /\ (text = RATE_LIMIT_SUMMARY \/ text = TIMEOUT_SUMMARY
                       \/ text = AUTH_SUMMARY
                       \/ text = ("Global analysis encountered an error: " ++ substring0 100 e)%string)
                   /\ (includes e "429" = true \/ includes (toLowerCase e) "rate" = true ->
                       text = RATE_LIMIT_SUMMARY)).
Proof.
  intros F g. subst g. unfold analyzeGlobal. rewrite (failure_message _ _ _ _ F). cbn.
  repeat (split; [reflexivity |]).
  exists (failureSummary e). split; [reflexivity |]. unfold failureSummary.
  assert (L : len ("Global analysis encountered an error: " ++ substring0 100 e)%string <= 138).
  { rewrite len_append. unfold substring0. rewrite len_str, length_firstn. change (len "Global analysis encountered an error: ") with 38. lia. }
  split; [| split; [| split]].
  - destruct (isRateLimit e); [reflexivity |]. destruct (isTimeout e); [reflexivity |].
    destruct (isAuth e); reflexivity.
  - destruct (isRateLimit e); [cbn; lia |]. destruct (isTimeout e); [cbn; lia |].
    destruct (isAuth e); [cbn; lia | exact L].
  - destruct (isRateLimit e); [tauto |]. destruct (isTimeout e); [tauto |].
    destruct (isAuth e); tauto.
  - intros H. unfold isRateLimit. destruct H as [-> | ->]; [reflexivity |].
    rewrite orb_true_r. reflexivity.
Qed.

(** A transport failure whose message has nothing to do with rate limits. *)
Lemma global_failure_is_neutral_witness :
  let e := "ETIMEDOUT: failed to generate completion" in
  let t := AnalyzerSpec.sow "template.docx" [T1; T2] in
  let n := AnalyzerSpec.sow "draft.docx" [D1; D3] in
  GlobalFailure (failingWith e) (globalRequest t n) e
  /\ summary (analyzeGlobal (failingWith e) t n) = Some RATE_LIMIT_SUMMARY
  /\ criticalRedFlags (analyzeGlobal (failingWith e) t n) = [].
Proof.
  intros e t n.
  assert (F : GlobalFailure (failingWith e) (globalRequest t n) e)
    by (apply GTransport; reflexivity).
  split; [exact F |]. split; [vm_compute; reflexivity |].
  exact (proj1 (proj2 (global_failure_is_neutral (failingWith e) t n e F))).
Defined.

End AnalyzerProperties.

(** ** The export route *)

Module ExportFacts.
Import JsString ExportRoute ExportSpec SegmenterSpec ExtractionFacts.

Lemma str_chars (s : string) : str (chars s) = s.
Proof. apply string_of_list_ascii_of_string. Qed.

Lemma chars_append (a b : string) : chars (a ++ b)%string = chars a ++ chars b.
Proof.
  unfold chars. induction a as [| c a IH]; [reflexivity |].
  change (c :: list_ascii_of_string (a ++ b)%string
          = c :: (list_ascii_of_string a ++ list_ascii_of_string b)).
  rewrite IH. reflexivity.
Qed.

Lemma noLF_app a b : noLF (a ++ b) = noLF a && noLF b.
Proof. apply forallb_app. Qed.

Lemma noLF_rev a : noLF a = true -> noLF (rev a) = true.
Proof.
  unfold noLF. rewrite !forallb_forall. intros H c Hc. apply H, in_rev. exact Hc.
Qed.

Lemma splitRuns_noLF l : forall acc prev,
  noLF acc = true ->
  List.Forall (fun p => noLF p = true) (splitRuns (eqc LF) acc prev l).
Proof.
  induction l as [| c l IH]; intros acc prev A; cbn [splitRuns].
  - constructor; [apply noLF_rev; exact A | constructor].
  - destruct (eqc LF c) eqn:E.
    + destruct prev; [apply IH; exact A |].
      constructor; [apply noLF_rev; exact A | apply IH; reflexivity].
    + apply IH. change (noLF (c :: acc)) with (negb (eqc c LF) && noLF acc).
      rewrite A, andb_true_r. unfold eqc in *. rewrite Ascii.eqb_sym, E. reflexivity.
Qed.

Lemma dropSpaces_noLF l : noLF l = true -> noLF (dropSpaces l) = true.
Proof.
  induction l as [| c l IH]; [reflexivity |]. intros H. cbn [dropSpaces].
  destruct (isSpace c); [| exact H].
  apply IH. cbn in H. apply andb_true_iff in H as [_ H]. exact H.
Qed.

Lemma trimChars_noLF l : noLF l = true -> noLF (trimChars l) = true.
Proof.
  intros H. unfold trimChars.
  apply noLF_rev, dropSpaces_noLF, noLF_rev, dropSpaces_noLF, H.
Qed.

Lemma dropSpaces_clean l : clean (dropSpaces l).
Proof.
  induction l as [| c l IH]; [exact I |]. cbn [dropSpaces].
  destruct (isSpace c) eqn:E; [exact IH | exact E].
Qed.

Lemma dropSpaces_id l : clean l -> dropSpaces l = l.
Proof. destruct l as [| c l]; [reflexivity |]. cbn. intros ->. reflexivity. Qed.

Lemma dropSpaces_snoc l c : isSpace c = false -> dropSpaces (l ++ [c]) = dropSpaces l ++ [c].
Proof.
  intros E. induction l as [| a l IH]; cbn; [rewrite E; reflexivity |].
  destruct (isSpace a); [exact IH | reflexivity].
Qed.

Lemma clean_rev_dropSpaces_rev l : clean l -> clean (rev (dropSpaces (rev l))).
Proof.
  destruct l as [| c l]; [intros _; exact I |]. cbn [clean rev]. intros E.
  rewrite (dropSpaces_snoc _ _ E), rev_app_distr. exact E.
Qed.

Lemma trimChars_idem l : trimChars (trimChars l) = trimChars l.
Proof.
  unfold trimChars.
  rewrite (dropSpaces_id (rev (dropSpaces (rev (dropSpaces l))))).
  - rewrite rev_involutive, (dropSpaces_id _ (dropSpaces_clean _)). reflexivity.
  - apply clean_rev_dropSpaces_rev, dropSpaces_clean.
Qed.

Lemma dropSpaces_blank l : forallb isSpace l = true -> dropSpaces l = [].
Proof.
  induction l as [| c l IH]; [reflexivity |]. cbn. intros H.
  apply andb_true_iff in H as [-> H]. exact (IH H).
Qed.

Lemma trimChars_blank l : forallb isSpace l = true -> trimChars l = [].
Proof. intros H. unfold trimChars. rewrite (dropSpaces_blank _ H). reflexivity. Qed.

(** The pieces of a split hold characters of the string only. *)
Lemma splitLFLF_forall (p : ascii -> bool) l : forall acc,
  forallb p acc = true -> forallb p l = true ->
  List.Forall (fun piece => forallb p piece = true) (splitLFLF acc l).
Proof.
  assert (R : forall a, forallb p a = true -> forallb p (rev a) = true).
  { intros a H. rewrite forallb_forall in *. intros c Hc. apply H, in_rev. exact Hc. }
  induction l as [l IH] using (well_founded_induction (well_founded_ltof _ (@length ascii))).
  intros acc A L. destruct l as [| a [| b l']].
  - constructor; [exact (R _ A) | constructor].
  - constructor; [| constructor]. apply R. cbn. cbn in L. rewrite A.
    apply andb_true_iff in L as [-> _]. reflexivity.
  - change (splitLFLF acc (a :: b :: l')) with
      (if eqc a LF && eqc b LF then rev acc :: splitLFLF [] l'
       else splitLFLF (a :: acc) (b :: l')).
    cbn in L. apply andb_true_iff in L as [La L]. apply andb_true_iff in L as [Lb L].
    destruct (eqc a LF && eqc b LF).
    + constructor; [exact (R _ A) |]. apply IH; [unfold ltof; cbn; lia | reflexivity | exact L].
    + apply IH; [unfold ltof; cbn; lia | cbn; rewrite La, A; reflexivity |].
      cbn. rewrite Lb, L. reflexivity.
Qed.

(** A piece without line feed is not cut. *)
Lemma splitLFLF_last p : forall acc, noLF p = true -> splitLFLF acc p = [rev acc ++ p].
Proof.
  induction p as [| a t IH]; intros acc N.
  - cbn. rewrite app_nil_r. reflexivity.
  - cbn in N. apply andb_true_iff in N as [Na N]. apply negb_true_iff in Na.
    destruct t as [| b l'].
    + reflexivity.
    + change (splitLFLF acc (a :: b :: l')) with
        (if eqc a LF && eqc b LF then rev acc :: splitLFLF [] l'
         else splitLFLF (a :: acc) (b :: l')).
      rewrite Na. cbn [andb]. rewrite (IH (a :: acc) N). cbn [rev].
      rewrite <- app_assoc. reflexivity.
Qed.

Lemma splitLFLF_piece p rest : forall acc, noLF p = true ->
  splitLFLF acc (p ++ LF :: LF :: rest) = (rev acc ++ p) :: splitLFLF [] rest.
Proof.
  induction p as [| a t IH]; intros acc N.
  - cbn. rewrite app_nil_r. reflexivity.
  - cbn in N. apply andb_true_iff in N as [Na N]. apply negb_true_iff in Na.
    change ((a :: t) ++ LF :: LF :: rest) with (a :: (t ++ LF :: LF :: rest)).
    destruct (t ++ LF :: LF :: rest) as [| b l'] eqn:E.
    + destruct t; discriminate E.
    + change (splitLFLF acc (a :: b :: l')) with
        (if eqc a LF && eqc b LF then rev acc :: splitLFLF [] l'
         else splitLFLF (a :: acc) (b :: l')).
      rewrite Na. cbn [andb]. rewrite (IH (a :: acc) N). cbn [rev].
      rewrite <- app_assoc. reflexivity.
Qed.

Lemma chars_join_cons x y g :
  chars (join LFLF (x :: y :: g)) = chars x ++ LF :: LF :: chars (join LFLF (y :: g)).
Proof.
  change (join LFLF (x :: y :: g)) with (x ++ (LFLF ++ join LFLF (y :: g)))%string.
  rewrite !chars_append. reflexivity.
Qed.

Lemma split_join g :
  g <> [] -> List.Forall (fun p => noLF (chars p) = true) g -> split_LFLF (join LFLF g) = g.
Proof.
  unfold split_LFLF. induction g as [| x g IH]; [congruence |]. intros _ F.
  inversion F as [| ? ? Fx Fg]; subst. destruct g as [| y g].
  - cbn [join]. rewrite (splitLFLF_last _ [] Fx). cbn. rewrite str_chars. reflexivity.
  - rewrite chars_join_cons, (splitLFLF_piece _ _ [] Fx). cbn [map rev app].
    rewrite str_chars, (IH ltac:(discriminate) Fg). reflexivity.
Qed.

Lemma bodyTexts_app a b : bodyTexts (a ++ b) = bodyTexts a ++ bodyTexts b.
Proof. unfold bodyTexts. rewrite List.filter_app, map_app. reflexivity. Qed.

Lemma bodyTexts_concat pss : bodyTexts (concat pss) = concat (map bodyTexts pss).
Proof.
  induction pss as [| ps pss IH]; [reflexivity |]. cbn [concat map].
  rewrite bodyTexts_app, IH. reflexivity.
Qed.

(** The texts of the body paragraphs of one section. *)
Lemma bodyTexts_section s e :
  bodyTexts (sectionToDocxParagraphs s e)
  = map trim (List.filter (fun para => nonEmpty (trim para))
                (split_LFLF (if truthy e then default "" e else Sec.body s))).
Proof.
  unfold sectionToDocxParagraphs. cbv zeta. rewrite bodyTexts_app.
  replace (bodyTexts (if truthy (Sec.title s) || truthy (Sec.number s) then _ else [])) with
    (@nil string) by (destruct (truthy (Sec.title s) || truthy (Sec.number s)); reflexivity).
  cbn [app]. unfold bodyTexts, bodyParagraphs.
  generalize (List.filter (fun para => nonEmpty (trim para))
                (split_LFLF (if truthy e then default "" e else Sec.body s))).
  intros l. induction l as [| p l IH]; [reflexivity |]. cbn. rewrite <- IH. reflexivity.
Qed.

Lemma plain_texts g :
  List.Forall plainParagraph g ->
  map trim (List.filter (fun para => nonEmpty (trim para)) g) = g.
Proof.
  induction 1 as [| p g (_ & T & N) _ IH]; [reflexivity |].
  cbn. rewrite T, N. cbn. rewrite T, IH. reflexivity.
Qed.

Lemma plain_body g :
  List.Forall plainParagraph g ->
  map trim (List.filter (fun para => nonEmpty (trim para)) (split_LFLF (join LFLF g))) = g.
Proof.
  intros F. destruct g as [| x g]; [reflexivity |].
  rewrite split_join; [apply plain_texts; exact F | discriminate |].
  eapply List.Forall_impl; [| exact F]. intros p (N & _). exact N.
Qed.

Lemma bodyParagraphsText_plain text :
  List.Forall plainParagraph (bodyParagraphsText (DocxParserText.paragraphsOf text)).
Proof.
  apply List.Forall_forall. intros t H. unfold bodyParagraphsText in H.
  apply filter_In in H as [H N]. apply andb_true_iff in N as [N _].
  apply in_map_iff in H as (p & <- & H).
  unfold DocxParserText.paragraphsOf in H. apply filter_In in H as [H _].
  unfold split in H. apply in_map_iff in H as (piece & <- & H).
  pose proof (splitRuns_noLF (chars (str (replaceCRLF (chars text)))) [] false eq_refl) as F.
  rewrite List.Forall_forall in F. specialize (F _ H).
  unfold plainParagraph, trim in *. rewrite !chars_str in *.
  split; [apply trimChars_noLF; exact F |]. split; [| exact N].
  rewrite trimChars_idem. reflexivity.
Qed.

Lemma Forall_concat_inv {A : Type} (P : A -> Prop) (gs : list (list A)) :
  List.Forall P (concat gs) -> List.Forall (List.Forall P) gs.
Proof.
  induction gs as [| g gs IH]; [constructor |]. cbn. intros H.
  apply List.Forall_app in H as [H1 H2]. constructor; [exact H1 | exact (IH H2)].
Qed.

End ExportFacts.

Module ExportProperties.
Import JsString ExportRoute ExportSpec SegmenterSpec ExtractionFacts ExportFacts.

(** X22. Parsing a plain text and exporting the sections unedited gives
    back the body paragraphs of the text: the paragraphs of the exported
    sections that are not headings are, in order, exactly the trimmed
    paragraphs of the text that the parser did not take for a header. *)
Theorem export_round_trip (uuidv4 : nat -> string) (text : string) :
  bodyTexts (concat (map (fun s => sectionToDocxParagraphs s None)
                       (DocxParserText.extractSections uuidv4 text)))
  = bodyParagraphsText (DocxParserText.paragraphsOf text).
Proof.
  destruct (SegmenterFacts.extractSections_partition uuidv4 text) as (gs & B & C).
  pose proof (bodyParagraphsText_plain text) as F. rewrite <- C in F |- *.
  apply Forall_concat_inv in F.
  rewrite bodyTexts_concat, map_map.
  rewrite (map_ext _ (fun s => map trim (List.filter (fun para => nonEmpty (trim para))
                                           (split_LFLF (Sec.body s)))))
    by (intros s; apply bodyTexts_section).
  rewrite <- (map_map Sec.body
                (fun b => map trim (List.filter (fun para => nonEmpty (trim para))
                                      (split_LFLF b)))), B, map_map.
  f_equal. clear B C. induction F as [| g gs Fg _ IH]; [reflexivity |].
  cbn [map]. rewrite (plain_body g Fg), IH. reflexivity.
Qed.

(** X23. An edited body replaces the body of the section unless it is the
    empty string, which is ignored: the section is exported as if it had
    not been edited. An edit of white space only does replace the body, and
    the section is exported without any body paragraph. An edit made of
    paragraphs without line feed or outer white space, joined by blank
    lines, is exported as these paragraphs. *)
Theorem export_edits (s : Sec.t) :
  sectionToDocxParagraphs s (Some "") = sectionToDocxParagraphs s None
  /\ (forall e, blank e = true -> bodyTexts (sectionToDocxParagraphs s (Some e)) = [])
  /\ (forall g, g <> [] -> List.Forall plainParagraph g ->
                bodyTexts (sectionToDocxParagraphs s (Some (join LFLF g))) = g)
  /\ (forall e, headings (sectionToDocxParagraphs s e) = headings (sectionToDocxParagraphs s None)).
Proof.
  split; [reflexivity |]. split; [| split].
  - intros e B. unfold blank in B. apply andb_true_iff in B as [N B].
    rewrite bodyTexts_section. cbn [truthy]. rewrite N.
    change (default "" (Some e)) with e.
    pose proof (splitLFLF_forall isSpace (chars e) [] eq_refl B) as F.
    unfold split_LFLF. induction F as [| piece l P _ IH]; [reflexivity |].
    cbn [map List.filter].
    replace (trim (str piece)) with ""
      by (unfold trim; rewrite chars_str, (trimChars_blank _ P); reflexivity).
    cbn [nonEmpty String.eqb negb]. exact IH.
  - intros g G F. rewrite bodyTexts_section. cbn [truthy].
    change (default "" (Some (join LFLF g))) with (join LFLF g).
    assert (N : nonEmpty (join LFLF g) = true).
    { destruct g as [| x g]; [congruence |]. inversion F as [| ? ? (_ & _ & Nx) _]; subst.
      destruct x; [discriminate Nx |]. destruct g; reflexivity. }
    rewrite N. apply plain_body. exact F.
  - intros e. unfold sectionToDocxParagraphs, headings. cbv zeta.
    rewrite !List.filter_app.
    assert (Z : forall b, List.filter (fun p => Regex.isSome (heading p)) (bodyParagraphs b) = []).
    { intros b. unfold bodyParagraphs.
      induction (List.filter (fun para => nonEmpty (trim para)) (split_LFLF b)) as [| p l IH];
        [reflexivity | exact IH]. }
    rewrite !Z. reflexivity.
Qed.

Lemma export_edits_witness :
  blank " " = true
  /\ bodyTexts (sectionToDocxParagraphs exampleSection (Some " ")) = []
  /\ bodyTexts (sectionToDocxParagraphs exampleSection (Some ""))
     = ["First paragraph"; "Second one"]
  /\ bodyTexts (sectionToDocxParagraphs exampleSection (Some (join LFLF ["New text"])))
     = ["New text"].
Proof.
  split; [reflexivity |].
  split; [exact (proj1 (proj2 (export_edits exampleSection)) " " eq_refl) |].
  split; [rewrite (proj1 (export_edits exampleSection)); vm_compute; reflexivity |].
  apply (proj1 (proj2 (proj2 (export_edits exampleSection)))); [discriminate |].
  constructor; [| constructor]. repeat split.
Defined.

End ExportProperties.
